(** * Incremental ingestion of the Hitchwiki dump into Firestore

    A shallow embedding of [src/index.js]: the selection query over the
    downloaded SQLite dump ([getSrcRows]), the watermark query over the
    [hitching-spots] collection ([getLastIngestedRow]), the row transformer
    ([formatRow]), the write loop ([insertRows]) and the pass ([ingest]).

    The script is asynchronous but strictly sequential (every promise is
    awaited before the next statement), so it is embedded as a state and
    exception monad over the state of one process run.  The external
    collaborators (HTTP download, sqlite3, Firestore, the clock, geofire, the
    local time zone) are gathered in a record [Env] that fixes how they
    answer during one run.

    Dates are kept as the code has them: the [datetime] column is an SQLite
    value, the query compares it with the text [DATETIME] prints for the
    cutoff in UTC, and [formatRow] reads it with [new Date], in local time. *)

From Stdlib Require Import ZArith QArith Qabs String Ascii DecimalString Lia.
From stdpp Require Import gmap list sorting.

Local Open Scope Z_scope.

(** ** JavaScript strings

    A JavaScript string is a sequence of UTF-16 code units.  [js] reads an
    ASCII literal as such a sequence. *)

Abbreviation jsstring := (list N) (only parsing).

Definition js (s : string) : jsstring := N_of_ascii <$> list_ascii_of_string s.

Module Js.

(** [WhiteSpace] and [LineTerminator] of ECMAScript, the code units that
    [String.prototype.trim] strips: TAB, LF, VT, FF, CR, SP, NBSP, the
    Unicode space separators and ZWNBSP. *)
Definition isWhiteSpace (c : N) : bool :=
  ((9 <=? c) && (c <=? 13) || (c =? 32) || (c =? 160) || (c =? 5760)
   || (8192 <=? c) && (c <=? 8202) || (c =? 8232) || (c =? 8233)
   || (c =? 8239) || (c =? 8287) || (c =? 12288) || (c =? 65279))%N.

Fixpoint dropWhile {A} (f : A → bool) (s : list A) : list A :=
  match s with
  | [] => []
  | c :: s' => if f c then dropWhile f s' else s
  end.

Definition trimStart (s : jsstring) : jsstring := dropWhile isWhiteSpace s.

Definition trimEnd (s : jsstring) : jsstring :=
  reverse (dropWhile isWhiteSpace (reverse s)).

(** [s.trim()] *)
Definition trim (s : jsstring) : jsstring := trimEnd (trimStart s).

(** [s.startsWith(pat)] *)
Fixpoint startsWith (pat s : jsstring) : bool :=
  match pat, s with
  | [], _ => true
  | _ :: _, [] => false
  | p :: pat', c :: s' => (p =? c)%N && startsWith pat' s'
  end.

(** [s.indexOf(pat)], with [None] for -1. *)
Fixpoint indexOf (pat s : jsstring) : option nat :=
  if startsWith pat s then Some 0%nat
  else match s with
       | [] => None
       | _ :: s' => S <$> indexOf pat s'
       end.

(** [s.replace(pat, rep)] for a string pattern: the first occurrence of
    [pat] is replaced, later ones are kept.  The dollar patterns of the
    replacement text are not interpreted here; the script only ever
    replaces by the empty string, which has none. *)
Definition replace (pat rep s : jsstring) : jsstring :=
  match indexOf pat s with
  | Some i => take i s ++ rep ++ drop (i + length pat) s
  | None => s
  end.

(** [pat] occurs in [s] at position [i]. *)
Definition occursAt (pat s : jsstring) (i : nat) : bool :=
  (i <=? length s)%nat && startsWith pat (drop i s).

(** The number of leading white space code units of [s]. *)
Definition leading (s : jsstring) : nat := (length s - length (trimStart s))%nat.

(** [t] is [s] without the white space at its two ends. *)
Definition trimmed_of (t s : jsstring) : Prop :=
  ∃ l r, s = l ++ t ++ r
         ∧ Forall (λ c, isWhiteSpace c = true) l
         ∧ Forall (λ c, isWhiteSpace c = true) r
         ∧ (∀ c, head t = Some c → isWhiteSpace c = false)
         ∧ (∀ c, last t = Some c → isWhiteSpace c = false).

End Js.

(** ** JavaScript numbers

    The numbers the script computes times with are integers, or [NaN]: the
    time value of an invalid [Date] and whatever is computed from it. *)
Inductive Number :=
| NaN
| Integer (z : Z).

Coercion Integer : Z >-> Number.

#[global] Instance Number_eq_dec : EqDecision Number.
Proof. solve_decision. Defined.

(** [a < b] and [a <= b] of JavaScript: false as soon as one side is [NaN]. *)
Definition Number_ltb (a b : Number) : bool :=
  match a, b with
  | Integer x, Integer y => x <? y
  | _, _ => false
  end.

Definition Number_leb (a b : Number) : bool :=
  match a, b with
  | Integer x, Integer y => x <=? y
  | _, _ => false
  end.

(** Arithmetic on a number: [NaN] stays [NaN]. *)
Definition Number_map (f : Z → Z) (a : Number) : Number :=
  match a with
  | Integer x => Integer (f x)
  | NaN => NaN
  end.

(** ** Calendar dates

    The proleptic Gregorian calendar in UTC, which both [DATETIME] of SQLite
    and [Date] of JavaScript count in.  [DayFromYear], [InLeapYear] and
    [DaysInYear] are the functions of that name of ECMAScript; days are
    counted from 1970-01-01 and months from 1. *)

Definition DayFromYear (y : Z) : Z :=
  365 * (y - 1970) + (y - 1969) / 4 - (y - 1901) / 100 + (y - 1601) / 400.

Definition InLeapYear (y : Z) : bool :=
  (y mod 4 =? 0) && (negb (y mod 100 =? 0) || (y mod 400 =? 0)).

Definition DaysInYear (y : Z) : Z := if InLeapYear y then 366 else 365.

(** The year a day falls in: the largest [y] with [DayFromYear y <= n]. *)
Definition YearFromDay (n : Z) : Z :=
  let y := 1970 + (400 * n) / 146097 in
  if DayFromYear (y + 1) <=? n then y + 1
  else if n <? DayFromYear y then y - 1 else y.

(** The days of year [y] before its month [m]; at 13, the days of the
    year. *)
Definition DaysBeforeMonth (y m : Z) : Z :=
  let leap := if InLeapYear y then 1 else 0 in
  match m with
  | 1 => 0 | 2 => 31 | 3 => 59 + leap | 4 => 90 + leap | 5 => 120 + leap
  | 6 => 151 + leap | 7 => 181 + leap | 8 => 212 + leap | 9 => 243 + leap
  | 10 => 273 + leap | 11 => 304 + leap | 12 => 334 + leap | _ => 365 + leap
  end.

Definition DaysInMonth (y m : Z) : Z := DaysBeforeMonth y (m + 1) - DaysBeforeMonth y m.

Fixpoint MonthFrom (fuel : nat) (y doy m : Z) : Z :=
  match fuel with
  | O => m
  | S fuel => if doy <? DaysBeforeMonth y (m + 1) then m else MonthFrom fuel y doy (m + 1)
  end.

(** The month the day [doy] of year [y] falls in, days counted from 0. *)
Definition MonthFromDay (y doy : Z) : Z := MonthFrom 11 y doy 1.

(** A date and a time of day, to the second. *)
Record DateTime := {
  year : Z;
  month : Z;
  day : Z;
  hour : Z;
  minute : Z;
  second : Z
}.

(** [MakeDay] of ECMAScript, for a month within the year. *)
Definition MakeDay (y m d : Z) : Z := DayFromYear y + DaysBeforeMonth y m + d - 1.

(** The seconds from the epoch to [f], read in UTC. *)
Definition secondsOf (f : DateTime) : Z :=
  MakeDay (year f) (month f) (day f) * 86400 + hour f * 3600 + minute f * 60 + second f.

(** The date and time in UTC, [c] seconds after the epoch. *)
Definition dateTimeOf (c : Z) : DateTime :=
  let n := c / 86400 in
  let r := c mod 86400 in
  let y := YearFromDay n in
  let doy := n - DayFromYear y in
  let m := MonthFromDay y doy in
  {| year := y; month := m; day := doy - DaysBeforeMonth y m + 1;
     hour := r / 3600; minute := r mod 3600 / 60; second := r mod 60 |}.

(** A date of the calendar in the years 0000 to 9999 and a time of day. *)
Definition validDateTime (f : DateTime) : bool :=
  (0 <=? year f) && (year f <=? 9999)
  && (1 <=? month f) && (month f <=? 12)
  && (1 <=? day f) && (day f <=? DaysInMonth (year f) (month f))
  && (0 <=? hour f) && (hour f <? 24)
  && (0 <=? minute f) && (minute f <? 60)
  && (0 <=? second f) && (second f <? 60).

(** Earlier, field by field. *)
Definition DateTime_lt (f g : DateTime) : Prop :=
  year f < year g ∨ (year f = year g ∧
  (month f < month g ∨ (month f = month g ∧
  (day f < day g ∨ (day f = day g ∧
  (hour f < hour g ∨ (hour f = hour g ∧
  (minute f < minute g ∨ (minute f = minute g ∧ second f < second g))))))))).

(** The text [YYYY-MM-DD HH:MM:SS]. *)
Definition digit (d : Z) : N := Z.to_N (48 + d).

Definition pad2 (n : Z) : jsstring := [digit (n / 10); digit (n mod 10)].

Definition pad4 (n : Z) : jsstring := pad2 (n / 100) ++ pad2 (n mod 100).

Definition formatDateTime (f : DateTime) : jsstring :=
  pad4 (year f) ++ js "-" ++ pad2 (month f) ++ js "-" ++ pad2 (day f) ++ js " "
  ++ pad2 (hour f) ++ js ":" ++ pad2 (minute f) ++ js ":" ++ pad2 (second f).

Definition digitOf (c : N) : option Z :=
  if (48 <=? c)%N && (c <=? 57)%N then Some (Z.of_N c - 48) else None.

Definition number2 (a b : N) : option Z :=
  x ← digitOf a; y ← digitOf b; Some (10 * x + y).

(** The milliseconds of a fraction of a second: nothing, or a dot and
    digits, of which the first three count. *)
Definition fractionOf (s : jsstring) : option Z :=
  match s with
  | [] => Some 0
  | dot :: ds =>
      if (dot =? 46)%N && forallb (λ c, bool_decide (is_Some (digitOf c))) ds
      then match ds with
           | [] => None
           | [a] => x ← digitOf a; Some (100 * x)
           | [a; b] => x ← digitOf a; y ← digitOf b; Some (100 * x + 10 * y)
           | a :: b :: c :: _ =>
               x ← digitOf a; y ← digitOf b; z ← digitOf c; Some (100 * x + 10 * y + z)
           end
      else None
  end.

(** The texts [YYYY-MM-DD HH:MM:SS] and [YYYY-MM-DD HH:MM:SS.f...] of a date
    of the calendar from the year 0100 on, with the milliseconds of the
    fraction.  These are the date strings whose reading by [Date] is modelled
    here; V8 reads years below 100 written this way as years of the 20th and
    21st century, and they are left with the other strings. *)
Definition parseDateTime (s : jsstring) : option (DateTime * Z) :=
  match s with
  | y1 :: y2 :: y3 :: y4 :: c1 :: m1 :: m2 :: c2 :: d1 :: d2 :: c3
    :: h1 :: h2 :: c4 :: i1 :: i2 :: c5 :: s1 :: s2 :: rest =>
      if (c1 =? 45)%N && (c2 =? 45)%N && (c3 =? 32)%N && (c4 =? 58)%N && (c5 =? 58)%N
      then
        yh ← number2 y1 y2; yl ← number2 y3 y4;
        m ← number2 m1 m2; d ← number2 d1 d2;
        h ← number2 h1 h2; i ← number2 i1 i2; sec ← number2 s1 s2;
        ms ← fractionOf rest;
        let f := {| year := 100 * yh + yl; month := m; day := d;
                    hour := h; minute := i; second := sec |} in
        if validDateTime f && (100 <=? year f) then Some (f, ms) else None
      else None
  | _ => None
  end.

(** The largest time value of a [Date], and [TimeClip] of ECMAScript on an
    integer. *)
Definition MAX_TIME : Z := 8640000000000000.

Definition TimeClip (t : Z) : Number :=
  if Z.abs t <=? MAX_TIME then Integer t else NaN.

(** ** SQLite values *)

(** What a column of the dump holds, as node-sqlite3 hands it to the
    script: NULL, a number (every finite double is a rational) or text. *)
Inductive SqlValue :=
| SqlNull
| SqlNumber (q : Q)
| SqlText (s : jsstring).

(** The code points of a string, surrogate pairs read as one. *)
Fixpoint codePoints (s : jsstring) : list N :=
  match s with
  | [] => []
  | hi :: rest =>
      match rest with
      | lo :: rest' =>
          if (55296 <=? hi)%N && (hi <? 56320)%N && (56320 <=? lo)%N && (lo <? 57344)%N
          then (65536 + (hi - 55296) * 1024 + (lo - 56320))%N :: codePoints rest'
          else hi :: codePoints rest
      | [] => [hi]
      end
  end.

Fixpoint lex_ltb (a b : list N) : bool :=
  match a, b with
  | _, [] => false
  | [], _ :: _ => true
  | x :: a', y :: b' => (x <? y)%N || ((x =? y)%N && lex_ltb a' b')
  end.

(** How SQLite orders two texts under its default collation: byte by byte
    in the encoding of the database, a prefix first.  In UTF-8, the default
    encoding, that is the order of the code points. *)
Definition text_ltb (a b : jsstring) : bool := lex_ltb (codePoints a) (codePoints b).

(** [a > b] in a [WHERE] clause, true or not: a comparison with NULL is
    NULL, a number is below every text. *)
Definition sql_gt (a b : SqlValue) : bool :=
  match a, b with
  | SqlNull, _ | _, SqlNull => false
  | SqlNumber x, SqlNumber y => negb (Qle_bool x y)
  | SqlNumber _, SqlText _ => false
  | SqlText _, SqlNumber _ => true
  | SqlText s, SqlText t => text_ltb t s
  end.

(** The order of [ORDER BY]: NULL first, then the numbers, then the
    texts. *)
Definition sql_leb (a b : SqlValue) : bool :=
  match a, b with
  | SqlNull, _ => true
  | _, SqlNull => false
  | SqlNumber x, SqlNumber y => Qle_bool x y
  | SqlNumber _, SqlText _ => true
  | SqlText _, SqlNumber _ => false
  | SqlText s, SqlText t => negb (text_ltb t s)
  end.

Definition sql_le (a b : SqlValue) : Prop := sql_leb a b = true.

(** The seconds [DATETIME(c, 'unixepoch')] has a text for in every version
    of SQLite: the years 0000 to 9999. *)
Definition DATETIME_MIN : Z := -62167219200.
Definition DATETIME_MAX : Z := 253402300800.

(** ** Firestore values *)

(** [firestore.Timestamp]: seconds since the epoch and the nanoseconds
    within that second. *)
Record Timestamp := { seconds : Number; nanoseconds : Number }.

Definition MIN_SECONDS : Z := -62135596800.
Definition MAX_SECONDS : Z := 253402300800.

(** [new Timestamp(seconds, nanoseconds)] throws when one of its four range
    tests holds: outside the years 0001 to 9999 and for nanoseconds outside
    one second.  None of them holds of [NaN]. *)
Definition Timestamp_new (s n : Number) : option Timestamp :=
  if Number_ltb n 0 || Number_leb 1000000000 n
     || Number_ltb s MIN_SECONDS || Number_leb MAX_SECONDS s
  then None
  else Some {| seconds := s; nanoseconds := n |}.

(** [Timestamp.fromMillis(ms)], which [Timestamp.fromDate(date)] goes
    through with [date.getTime()]. *)
Definition Timestamp_fromMillis (ms : Number) : option Timestamp :=
  let s := Number_map (λ ms, ms / 1000) ms in
  Timestamp_new s (Number_map (λ ms, (ms - ms / 1000 * 1000) * 1000000) ms).

(** The order Firestore sorts numbers by: [NaN] before every number. *)
Definition Number_lt (a b : Number) : Prop :=
  match a, b with
  | _, NaN => False
  | NaN, Integer _ => True
  | Integer x, Integer y => x < y
  end.

Definition Number_le (a b : Number) : Prop :=
  match a, b with
  | NaN, _ => True
  | Integer _, NaN => False
  | Integer x, Integer y => x ≤ y
  end.

#[global] Instance Number_lt_dec a b : Decision (Number_lt a b).
Proof. destruct a, b; simpl; apply _. Defined.

(** The order Firestore sorts timestamps by. *)
Definition Timestamp_ltb (a b : Timestamp) : bool :=
  bool_decide (Number_lt (seconds a) (seconds b))
  || bool_decide (seconds a = seconds b)
     && bool_decide (Number_lt (nanoseconds a) (nanoseconds b)).

Definition Timestamp_lt (a b : Timestamp) : Prop :=
  Number_lt (seconds a) (seconds b)
  ∨ (seconds a = seconds b ∧ Number_lt (nanoseconds a) (nanoseconds b)).

Definition Timestamp_le (a b : Timestamp) : Prop :=
  Number_lt (seconds a) (seconds b)
  ∨ (seconds a = seconds b ∧ Number_le (nanoseconds a) (nanoseconds b)).

(** [firestore.GeoPoint] *)
Record GeoPoint := { latitude : Q; longitude : Q }.

(** [new GeoPoint(lat, lon)] throws unless the latitude is within
    [-90, 90] and the longitude within [-180, 180]. *)
Definition GeoPoint_new (lat lon : Q) : option GeoPoint :=
  if Qle_bool (-90) lat && Qle_bool lat 90
     && Qle_bool (-180) lon && Qle_bool lon 180
  then Some {| latitude := lat; longitude := lon |}
  else None.

(** ** Rows *)

(** Modelled from the spec: the schema of the [points] table of the dump is
    not part of the source.  The columns are the ones the query of
    [getSrcRows] names; [id] is a string, the coordinates are rationals
    (every finite double is one), and [datetime], the spec's [createdAt],
    is kept as the value the column holds, since the script compares it in
    SQL and parses it in JavaScript. *)
Record Point := {
  p_id : jsstring;
  p_lat : Q;
  p_lon : Q;
  p_rating : Z;
  p_name : option jsstring;
  p_datetime : SqlValue;
  p_banned : Z;
  p_reviewed : Z
}.

(** A row as the query returns it:
    [SELECT id, lat, lon, rating, name, datetime]. *)
Record SrcRow := {
  id : jsstring;
  lat : Q;
  lon : Q;
  rating : Z;
  name : option jsstring;
  datetime : SqlValue
}.

(** The document [formatRow] builds; [user.type], [user.name],
    [source.type], [source.id] and [source.ingestedTimestamp] are flattened
    into fields of their own. *)
Record DstRow := {
  coords : GeoPoint;
  geohash : jsstring;
  dst_rating : Z;
  user_type : jsstring;
  user_name : jsstring;
  submittedTimestamp : Timestamp;
  source_type : jsstring;
  source_id : jsstring;
  source_ingestedTimestamp : Timestamp
}.

(** ** Constants of the script *)

(** Max number of operations before ending process (stay within daily free
    tier). *)
Definition MAX_WRITES : Z := 10000.

Definition HITCHWIKI_MARK : jsstring := js "(Hitchwiki)".

Definition HITCHWIKI : jsstring := js "hitchwiki".

(** ** The state of a run and its effects *)

(** What a thrown value can be: one constructor per call that can throw or
    reject. *)
Inductive Error :=
| DownloadFailed
| SqliteError
| GetDocsRejected
| InvalidGeoPoint (lat lon : Q)
| InvalidTimestamp (datetime : SqlValue)
| SetDocRejected (key : jsstring).

(** The lines the script prints, one constructor per [console] call. *)
Inductive LogLine :=
| Running
| DownloadingFile
| ConnectingToSqlite
| ConnectingToFirebase
| GettingRowsAfter (cutoffTimestamp : Number)
| GettingLastIngestedRow
| InsertingRows (n : Z)
| Progress (done total : Z) (row_id : jsstring) (submitted : Timestamp)
| ReachedQuota
| CompletedWithoutError
| Failed (err : Error).

(** What a run does that can be seen from outside: the lines it prints and
    the writes it issues, in order. *)
Inductive Event :=
| Log (line : LogLine)
| SetDoc (key : jsstring) (row : DstRow).

(** The collaborators during one run. *)
Record Env := {
  (** what [DUMP_URL] serves: [None] when the download fails, otherwise the
      file, itself [None] when sqlite cannot query a [points] table in it *)
  served : option (option (list Point));
  (** whether the watermark query is rejected by Firestore *)
  getDocsRejects : bool;
  (** the writes Firestore rejects *)
  setDocRejects : jsstring → DstRow → bool;
  (** what [Timestamp.now()] returns at its n-th call *)
  clock : nat → Timestamp;
  (** [geofire.geohashForLocation] on a valid location *)
  geohashForLocation : Q → Q → jsstring;
  (** the time zone of the process, [LocalTZA(t, false)] of ECMAScript: the
      milliseconds local time is ahead of UTC at the local time [t] *)
  LocalTZA : Z → Z;
  (** what [Date.parse] makes of a string that [parseDateTime] does not
      read: a time value or [NaN] *)
  parseOther : jsstring → Number;
  (** what [DATETIME(c, 'unixepoch')] is outside the years 0000 to 9999 *)
  datetimeOutside : Z → SqlValue
}.

(** The local file, the [hitching-spots] collection by document id, what
    the run has printed and written, and the number of clock reads. *)
Record State := {
  sqliteFile : option (list Point);
  hitchingSpots : gmap jsstring DstRow;
  console : list Event;
  clockReads : nat
}.

(** A promise that has settled. *)
Inductive Outcome (A : Type) :=
| Resolved (a : A)
| Rejected (e : Error).
Arguments Resolved {A} a.
Arguments Rejected {A} e.

Definition M (A : Type) : Type := State → Outcome A * State.

Definition ret {A} (a : A) : M A := λ st, (Resolved a, st).

Definition throw {A} (e : Error) : M A := λ st, (Rejected e, st).

Definition bind {A B} (m : M A) (k : A → M B) : M B :=
  λ st, match m st with
        | (Resolved a, st') => k a st'
        | (Rejected e, st') => (Rejected e, st')
        end.

(** [try { body } catch (err) { handler }] *)
Definition try_catch {A} (body : M A) (handler : Error → M A) : M A :=
  λ st, match body st with
        | (Resolved a, st') => (Resolved a, st')
        | (Rejected e, st') => handler e st'
        end.

Declare Scope js_scope.
Delimit Scope js_scope with M.
Notation "'let*' x ':=' m 'in' k" := (bind m (λ x, k))
  (at level 10, x name, m at level 100, k at level 200) : js_scope.
Notation "m >> k" := (bind m (λ _, k))
  (at level 100, right associativity) : js_scope.
Local Open Scope js_scope.

(** The four ways a run changes its state: it prints or issues a write, it
    stores a collection, it saves the downloaded file, it reads the clock. *)
Definition printed (evs : list Event) (st : State) : State :=
  {| sqliteFile := sqliteFile st; hitchingSpots := hitchingSpots st;
     console := console st ++ evs; clockReads := clockReads st |}.

Definition stored (spots : gmap jsstring DstRow) (st : State) : State :=
  {| sqliteFile := sqliteFile st; hitchingSpots := spots;
     console := console st; clockReads := clockReads st |}.

Definition saved (file : option (list Point)) (st : State) : State :=
  {| sqliteFile := file; hitchingSpots := hitchingSpots st;
     console := console st; clockReads := clockReads st |}.

Definition tick (st : State) : State :=
  {| sqliteFile := sqliteFile st; hitchingSpots := hitchingSpots st;
     console := console st; clockReads := S (clockReads st) |}.

Definition emit (e : Event) : M unit := λ st, (Resolved tt, printed [e] st).

Definition log (l : LogLine) : M unit := emit (Log l).

(** A value that may have thrown. *)
Definition orThrow {A} (e : Error) (o : option A) : M A :=
  match o with Some a => ret a | None => throw e end.

(** [array.map(f)] for an [f] with effects: left to right, stopping at the
    first throw. *)
Fixpoint mapM {A B} (f : A → M B) (l : list A) : M (list B) :=
  match l with
  | [] => ret []
  | a :: l' => let* b := f a in let* bs := mapM f l' in ret (b :: bs)
  end.

(** [Timestamp.now()] *)
Definition Timestamp_now (env : Env) : M Timestamp :=
  λ st, (Resolved (clock env (clockReads st)), tick st).

(** ** The script *)

(** [downloadDump]: the served file replaces the local one.  The write
    stream opens the local file with flag [w], which empties it before any
    byte arrives: a failed download leaves a file that holds at most a part
    of the dump, no database sqlite can read. *)
Definition downloadDump (env : Env) : M unit :=
  log DownloadingFile >>
  match served env with
  | None => λ st, (Rejected DownloadFailed, saved None st)
  | Some file => λ st, (Resolved tt, saved file st)
  end.

(** [getSrcDb]: the handle is the content of the local file. *)
Definition getSrcDb : M (option (list Point)) :=
  log ConnectingToSqlite >>
  λ st, (Resolved (sqliteFile st), st).

(** [getDstDb]: the handle carries nothing, the collection is in the state. *)
Definition getDstDb : M unit := log ConnectingToFirebase.

(** [DATETIME(c, 'unixepoch')]: the text [YYYY-MM-DD HH:MM:SS] of the
    instant [c] seconds after the epoch, in UTC. *)
Definition DATETIME (env : Env) (c : Z) : SqlValue :=
  if (DATETIME_MIN <=? c) && (c <? DATETIME_MAX)
  then SqlText (formatDateTime (dateTimeOf c))
  else datetimeOutside env c.

(** The [WHERE] clause of [getSrcRows]: the [datetime] column is compared,
    as the value it is, with the text of the cutoff. *)
Definition ingestible (env : Env) (cutoffTimestamp : Z) (p : Point) : bool :=
  (p_banned p =? 0) && (p_reviewed p =? 1) && (2 <? p_rating p)
  && sql_gt (p_datetime p) (DATETIME env cutoffTimestamp).

(** The [ORDER BY datetime] clause. *)
Definition by_datetime (a b : Point) : Prop := sql_le (p_datetime a) (p_datetime b).

#[global] Instance by_datetime_dec a b : Decision (by_datetime a b).
Proof. unfold by_datetime, sql_le. apply _. Defined.

(** The [SELECT] list. *)
Definition selected (p : Point) : SrcRow :=
  {| id := p_id p; lat := p_lat p; lon := p_lon p; rating := p_rating p;
     name := p_name p; datetime := p_datetime p |}.

(** What the query of [getSrcRows] returns on a readable dump.  The order
    sqlite gives rows of equal [datetime] is not specified; the sort here is
    one such order. *)
Definition query (env : Env) (points : list Point) (cutoffTimestamp : Z) : list SrcRow :=
  selected <$> merge_sort by_datetime
                 (filter (λ p, ingestible env cutoffTimestamp p = true) points).

(** What sqlite answers to the query: an error when the file is no
    readable dump, and when the cutoff is [NaN], which the text of the query
    then names where a number is expected and sqlite takes for a column that
    does not exist. *)
Definition selection (env : Env) (db : option (list Point)) (cutoffTimestamp : Number)
  : option (list SrcRow) :=
  match db, cutoffTimestamp with
  | Some points, Integer c => Some (query env points c)
  | _, _ => None
  end.

(** [getSrcRows] *)
Definition getSrcRows (env : Env) (db : option (list Point)) (cutoffTimestamp : Number)
  : M (list SrcRow) :=
  log (GettingRowsAfter cutoffTimestamp) >>
  orThrow SqliteError (selection env db cutoffTimestamp).

(** Of two documents, the one [orderBy("submittedTimestamp", "desc")] puts
    first.  Firestore breaks ties by document name; the model keeps one of
    the tied documents, whose timestamp is the same. *)
Definition later (a b : DstRow) : DstRow :=
  if Timestamp_ltb (submittedTimestamp a) (submittedTimestamp b) then b else a.

Definition latest (docs : list DstRow) : option DstRow :=
  foldr (λ d acc, Some (from_option (later d) d acc)) None docs.

(** [where("source.type", "==", "hitchwiki")],
    [orderBy("submittedTimestamp", "desc")], [limit(1)], and then
    [snapshot.docs[0]?.data()]. *)
Definition lastIngested (spots : gmap jsstring DstRow) : option DstRow :=
  latest (filter (λ d, source_type d = HITCHWIKI) (snd <$> map_to_list spots)).

(** [getLastIngestedRow] *)
Definition getLastIngestedRow (env : Env) : M (option DstRow) :=
  log GettingLastIngestedRow >>
  if getDocsRejects env then throw GetDocsRejected
  else λ st, (Resolved (lastIngested (hitchingSpots st)), st).

(** [Date.parse]: a date and time without a zone is read in the local time
    zone of the process. *)
Definition Date_parse (env : Env) (s : jsstring) : Number :=
  match parseDateTime s with
  | Some (f, ms) =>
      let t := secondsOf f * 1000 + ms in
      TimeClip (t - LocalTZA env t)
  | None => parseOther env s
  end.

(** [new Date(value)], as its time value: [null] is 0, a number is cut to
    an integer when a [Date] can hold it, a string is parsed. *)
Definition Date_new (env : Env) (value : SqlValue) : Number :=
  match value with
  | SqlNull => 0
  | SqlNumber q =>
      if Qle_bool (Qabs q) (inject_Z MAX_TIME)
      then Integer (Z.quot (Qnum q) (Zpos (Qden q)))
      else NaN
  | SqlText s => Date_parse env s
  end.

(** [formatRow]: the fields of the object literal are evaluated in order, so
    the clock is read last. *)
Definition formatRow (env : Env) (row : SrcRow) : M DstRow :=
  let* point := orThrow (InvalidGeoPoint (lat row) (lon row))
                         (GeoPoint_new (lat row) (lon row)) in
  let* submitted := orThrow (InvalidTimestamp (datetime row))
                             (Timestamp_fromMillis (Date_new env (datetime row))) in
  let* ingested := Timestamp_now env in
  ret {| coords := point;
         geohash := geohashForLocation env (lat row) (lon row);
         dst_rating := rating row - 2;
         user_type := js "guest";
         user_name := Js.trim (Js.replace HITCHWIKI_MARK [] (default [] (name row)));
         submittedTimestamp := submitted;
         source_type := HITCHWIKI;
         source_id := id row;
         source_ingestedTimestamp := ingested |}.

(** The document id of [insertRows]:
    [`${row.source.type}-${row.source.id}`]. *)
Definition docId (row : DstRow) : jsstring :=
  source_type row ++ js "-" ++ source_id row.

(** [setDoc(doc(db, "hitching-spots", key), row)]: the write is issued, and
    unless Firestore rejects it the document replaces whatever the slot
    held. *)
Definition setDoc (env : Env) (key : jsstring) (row : DstRow) : M unit :=
  emit (SetDoc key row) >>
  if setDocRejects env key row then throw (SetDocRejected key)
  else λ st, (Resolved tt, stored (<[key := row]> (hitchingSpots st)) st).

(** The [for ... of] loop of [insertRows], from the rows still to write and
    the value of [done]. *)
Fixpoint insertLoop (env : Env) (total : Z) (rows : list DstRow) (done : Z) : M unit :=
  match rows with
  | [] => ret tt
  | row :: rest =>
      setDoc env (docId row) row >>
      let done := done + 1 in
      log (Progress done total (source_id row) (submittedTimestamp row)) >>
      (if MAX_WRITES <=? done then log ReachedQuota else ret tt) >>
      insertLoop env total rest done
  end.

(** [insertRows] *)
Definition insertRows (env : Env) (rows : list DstRow) : M unit :=
  log (InsertingRows (Z.of_nat (length rows))) >>
  insertLoop env (Z.of_nat (length rows)) rows 0.

(** The cutoff of [ingest]: 0, or the seconds of the last ingested row. *)
Definition cutoffOf (lastIngestedRow : option DstRow) : Number :=
  match lastIngestedRow with
  | Some row => seconds (submittedTimestamp row)
  | None => 0
  end.

(** [ingest] *)
Definition ingest (env : Env) : M unit :=
  log Running >>
  downloadDump env >>
  let* srcDb := getSrcDb in
  let* dstDb := getDstDb in
  let* lastIngestedRow := getLastIngestedRow env in
  let cutoff := cutoffOf lastIngestedRow in
  let* srcRows := getSrcRows env srcDb cutoff in
  let* dstRows := mapM (formatRow env) srcRows in
  try_catch
    (insertRows env dstRows >> log CompletedWithoutError)
    (λ err, log (Failed err)).

(** ** Observing a run *)

(** The state a process starts in: the local file and the collection as the
    previous runs left them, nothing printed yet. *)
Definition startOf (file : option (list Point)) (spots : gmap jsstring DstRow) : State :=
  {| sqliteFile := file; hitchingSpots := spots; console := []; clockReads := 0 |}.

(** The writes among the events of a run. *)
Definition writesOf (evs : list Event) : list (jsstring * DstRow) :=
  omap (λ e, match e with SetDoc key row => Some (key, row) | Log _ => None end) evs.

(** The rows [formatRow] does not throw on. *)
Definition formattable (env : Env) (row : SrcRow) : bool :=
  bool_decide (is_Some (GeoPoint_new (lat row) (lon row)))
  && bool_decide (is_Some (Timestamp_fromMillis (Date_new env (datetime row)))).

(** The script ends with [ingest();] and nothing handles the promise.  The
    script never calls [process.exit] and never sets [process.exitCode]: when
    the promise resolves the process ends with code 0; when it rejects, the
    code is the one the runtime gives an unhandled rejection, taken here as
    [onUnhandledRejection] (1 where Node.js throws on them, 0 where it only
    warns). *)
Definition exitCode (onUnhandledRejection : Z) (o : Outcome unit) : Z :=
  match o with
  | Resolved _ => 0
  | Rejected _ => onUnhandledRejection
  end.

(** The collection after the rows have been written in order. *)
Definition written (spots : gmap jsstring DstRow) (rows : list DstRow) : gmap jsstring DstRow :=
  foldl (λ m row, <[docId row := row]> m) spots rows.

(** [formatRow] makes [d] of [row] at some point of a run. *)
Definition formats (env : Env) (row : SrcRow) (d : DstRow) : Prop :=
  ∃ s s', formatRow env row s = (Resolved d, s').

(** What [ingest] prints up to the watermark query. *)
Definition stage_lines : list Event :=
  [Log Running; Log DownloadingFile; Log ConnectingToSqlite;
   Log ConnectingToFirebase; Log GettingLastIngestedRow].

(** What the write loop prints and issues. *)
Definition loop_event (e : Event) : Prop :=
  match e with
  | SetDoc _ _ | Log (Progress _ _ _ _) | Log ReachedQuota => True
  | Log _ => False
  end.

(** The writes of a run that Firestore accepted: the documents the run
    has put in the collection, in order. *)
Definition acceptedWrites (env : Env) (evs : list Event) : list (jsstring * DstRow) :=
  filter (λ w, setDocRejects env w.1 w.2 = false) (writesOf evs).

(** How many times a run has printed the quota line. *)
Definition quotaLinesOf (evs : list Event) : nat :=
  length (omap (λ e, match e with Log ReachedQuota => Some tt | _ => None end) evs).

(** The rows a pass selects in the dump [points] when it starts from the
    collection [spots]: none when the cutoff is [NaN] and the query fails. *)
Definition selectedRows (env : Env) (points : list Point) (spots : gmap jsstring DstRow)
  : list SrcRow :=
  default [] (selection env (Some points) (cutoffOf (lastIngested spots))).

(** The date strings of a dump that [parseDateTime] reads. *)
Definition readable (v : SqlValue) : Prop :=
  ∀ s, v = SqlText s → is_Some (parseDateTime s).

(** ** Sample data *)

(** A process in the time zone that is [offset] milliseconds ahead of UTC
    all year, over a Firestore that accepts every write. *)
Definition zone_env (offset : Z) (points : list Point) : Env :=
  {| served := Some (Some points);
     getDocsRejects := false;
     setDocRejects := λ _ _, false;
     clock := λ n, {| seconds := 1700000000 + Z.of_nat n; nanoseconds := 0 |};
     geohashForLocation := λ _ _, js "s3y0zh7w1z";
     LocalTZA := λ _, offset;
     parseOther := λ _, NaN;
     datetimeOutside := λ _, SqlNull |}.

(** A process in UTC. *)
Definition sample_env (points : list Point) : Env := zone_env 0 points.

Definition sample_row (i : string) (r : Z) (n : option string) (t : string) : SrcRow :=
  {| id := js i; lat := 10; lon := 20; rating := r; name := js <$> n;
     datetime := SqlText (js t) |}.

Definition sample_point (i : string) (r : Z) (n : option string) (t : string) : Point :=
  {| p_id := js i; p_lat := 10; p_lon := 20; p_rating := r; p_name := js <$> n;
     p_datetime := SqlText (js t); p_banned := 0; p_reviewed := 1 |}.

(** What [formatRow] makes of a sample row at the first clock read. *)
Definition sample_doc (i : string) (r : Z) (n : string) (s ns : Z) : DstRow :=
  {| coords := {| latitude := 10; longitude := 20 |};
     geohash := js "s3y0zh7w1z";
     dst_rating := r;
     user_type := js "guest";
     user_name := js n;
     submittedTimestamp := {| seconds := s; nanoseconds := ns |};
     source_type := HITCHWIKI;
     source_id := js i;
     source_ingestedTimestamp := {| seconds := 1700000000; nanoseconds := 0 |} |}.

(** A document that does not come from Hitchwiki, submitted at [s]. *)
Definition other_doc (s : Z) : DstRow :=
  {| coords := {| latitude := 10; longitude := 20 |};
     geohash := js "s3y0zh7w1z";
     dst_rating := 3;
     user_type := js "member";
     user_name := js "Z";
     submittedTimestamp := {| seconds := s; nanoseconds := 0 |};
     source_type := js "app";
     source_id := js "1";
     source_ingestedTimestamp := {| seconds := s; nanoseconds := 0 |} |}.

(** Four rows, created 1600000000.5, 1500000000, 1650000000 and 1660000000
    seconds after the epoch; the third is rated too low to be selected. *)
Definition sample_points : list Point :=
  [sample_point "42" 4 (Some "X (Hitchwiki)"%string) "2020-09-13 12:26:40.500";
   sample_point "7" 5 None "2017-07-14 02:40:00";
   sample_point "8" 2 (Some "low"%string) "2022-04-15 05:20:00";
   sample_point "9" 3 (Some " Y "%string) "2022-08-08 23:06:40"].

(** More rows than [MAX_WRITES]: 10001 documents with the ids 0 to 10000. *)
Definition many_rows : list DstRow :=
  (λ i, sample_doc (NilEmpty.string_of_uint (Nat.to_uint i)) 2 "X"
          (1600000000 + Z.of_nat i) 0) <$> seq 0 (Z.to_nat 10001).

(** A Firestore that rejects the document of the row with id 42. *)
Definition rejecting_env (points : list Point) : Env :=
  {| served := Some (Some points);
     getDocsRejects := false;
     setDocRejects := λ key _, bool_decide (key = js "hitchwiki-42");
     clock := λ n, {| seconds := 1700000000 + Z.of_nat n; nanoseconds := 0 |};
     geohashForLocation := λ _ _, js "s3y0zh7w1z";
     LocalTZA := λ _, 0;
     parseOther := λ _, NaN;
     datetimeOutside := λ _, SqlNull |}.

(** * Properties *)

(** ** JavaScript strings *)

Module JsFacts.
Import Js.

Lemma dropWhile_split {A} (f : A → bool) (s : list A) :
  ∃ l, s = l ++ dropWhile f s ∧ Forall (λ c, f c = true) l.
Proof.
  induction s as [|c s [l [Hs Hl]]]; simpl.
  - by exists [].
  - destruct (f c) eqn:Hc.
    + exists (c :: l). split; [simpl; by f_equal | by constructor].
    + by exists [].
Qed.

Lemma dropWhile_head {A} (f : A → bool) (s : list A) c :
  head (dropWhile f s) = Some c → f c = false.
Proof.
  induction s as [|a s IH]; simpl; [done|].
  destruct (f a) eqn:Ha; [done|]. simpl. congruence.
Qed.

(** Dropping a prefix never reaches into an occurrence of a pattern that
    starts with a character the test refuses. *)
Lemma dropWhile_keeps {A} (f : A → bool) (x : list A) p rest :
  f p = false →
  ∃ l x', x = l ++ x' ∧ dropWhile f (x ++ p :: rest) = x' ++ p :: rest.
Proof.
  intros Hp. induction x as [|c x (l & x' & Hx & Hd)]; simpl.
  - exists [], []. by rewrite Hp.
  - destruct (f c).
    + exists (c :: l), x'. split; [simpl; by f_equal | done].
    + by exists [], (c :: x).
Qed.

Lemma startsWith_prefix pat s : startsWith pat s = true ↔ pat `prefix_of` s.
Proof.
  revert s. induction pat as [|p pat IH]; intros [|c s]; simpl.
  - split; [intros _; apply prefix_nil | done].
  - split; [intros _; apply prefix_nil | done].
  - split; [done | intros [k Hk]; discriminate].
  - rewrite andb_true_iff, N.eqb_eq, IH. split.
    + intros [-> Hs]. by apply prefix_cons.
    + intros [k Hk]. injection Hk as -> ->. split; [done | by exists k].
Qed.

Lemma occursAt_split pat s i :
  occursAt pat s i = true ↔ ∃ a b, s = a ++ pat ++ b ∧ length a = i.
Proof.
  unfold occursAt. rewrite andb_true_iff, Nat.leb_le, startsWith_prefix. split.
  - intros [Hi [b Hb]]. exists (take i s), b. split.
    + by rewrite <- Hb, take_drop.
    + rewrite length_take. lia.
  - intros (a & b & -> & <-). split.
    + rewrite length_app. lia.
    + rewrite drop_app_length. by exists b.
Qed.

Lemma occursAt_0 pat s : occursAt pat s 0 = startsWith pat s.
Proof. reflexivity. Qed.

Lemma occursAt_S pat c s j : occursAt pat (c :: s) (S j) = occursAt pat s j.
Proof. reflexivity. Qed.

Lemma occursAt_nil pat j : occursAt pat [] (S j) = false.
Proof. reflexivity. Qed.

Lemma indexOf_occurs pat s i : indexOf pat s = Some i → occursAt pat s i = true.
Proof.
  revert i. induction s as [|c s IH]; intros i; simpl.
  - destruct (startsWith pat []) eqn:H; [|done].
    intros [= <-]. by rewrite occursAt_0.
  - destruct (startsWith pat (c :: s)) eqn:H.
    + intros [= <-]. by rewrite occursAt_0.
    + destruct (indexOf pat s) as [k|]; [|done].
      intros [= <-]. rewrite occursAt_S. by apply IH.
Qed.

Lemma indexOf_first pat s i j :
  indexOf pat s = Some i → (j < i)%nat → occursAt pat s j = false.
Proof.
  revert i j. induction s as [|c s IH]; intros i j; simpl.
  - destruct (startsWith pat []); [|done]. intros [= <-]. lia.
  - destruct (startsWith pat (c :: s)) eqn:H.
    + intros [= <-]. lia.
    + destruct (indexOf pat s) as [k|] eqn:Hk; [|done].
      intros [= <-] Hj. destruct j as [|j].
      * by rewrite occursAt_0.
      * rewrite occursAt_S. apply (IH k); [done | lia].
Qed.

Lemma indexOf_none pat s j : indexOf pat s = None → occursAt pat s j = false.
Proof.
  revert j. induction s as [|c s IH]; intros j; simpl.
  - destruct (startsWith pat []) eqn:H; [done|]. intros _.
    destruct j; [by rewrite occursAt_0 | apply occursAt_nil].
  - destruct (startsWith pat (c :: s)) eqn:H; [done|].
    destruct (indexOf pat s); [done|]. intros _. destruct j as [|j].
    + by rewrite occursAt_0.
    + rewrite occursAt_S. by apply IH.
Qed.

(** [indexOf] finds the first position the pattern occurs at. *)
Lemma indexOf_Some pat s i :
  indexOf pat s = Some i
  ↔ occursAt pat s i = true ∧ ∀ j, (j < i)%nat → occursAt pat s j = false.
Proof.
  split.
  - intros Hi. split; [by apply indexOf_occurs|].
    intros j Hj. by apply (indexOf_first pat s i).
  - intros [Hi Hfirst]. destruct (indexOf pat s) as [k|] eqn:Hk.
    + f_equal. destruct (Nat.lt_trichotomy k i) as [Hlt|[Heq|Hgt]]; [|done|].
      * apply indexOf_occurs in Hk. rewrite (Hfirst k Hlt) in Hk. discriminate.
      * rewrite (indexOf_first pat s k i Hk Hgt) in Hi. discriminate.
    + rewrite (indexOf_none pat s i Hk) in Hi. discriminate.
Qed.

Abbreviation ws := (λ c, isWhiteSpace c = true).

Lemma trimEnd_split s : ∃ r, s = trimEnd s ++ r ∧ Forall ws r.
Proof.
  destruct (dropWhile_split isWhiteSpace (reverse s)) as (l & Hs & Hl).
  exists (reverse l). split.
  - unfold trimEnd. rewrite <- reverse_app, <- Hs. by rewrite reverse_involutive.
  - by apply Forall_reverse.
Qed.

Lemma trimEnd_last s c : last (trimEnd s) = Some c → isWhiteSpace c = false.
Proof. unfold trimEnd. rewrite last_reverse. apply dropWhile_head. Qed.

(** [trim] strips exactly the white space at the two ends. *)
Lemma trim_trimmed_of s : trimmed_of (trim s) s.
Proof.
  destruct (dropWhile_split isWhiteSpace s) as (l & Hs & Hl).
  destruct (trimEnd_split (trimStart s)) as (r & Ht & Hr).
  exists l, r. repeat split; [| done | done | | apply trimEnd_last].
  - unfold trim. rewrite <- Ht. exact Hs.
  - intros c Hc. apply (dropWhile_head isWhiteSpace s).
    fold (trimStart s). rewrite Ht. unfold trim in Hc.
    by rewrite head_app, Hc.
Qed.

Lemma trimStart_occurs x pat y p :
  head pat = Some p → isWhiteSpace p = false →
  ∃ x', trimStart (x ++ pat ++ y) = x' ++ pat ++ y
        ∧ length x = (leading (x ++ pat ++ y) + length x')%nat.
Proof.
  intros Hp Hws. destruct pat as [|p' pat]; simplify_eq/=.
  destruct (dropWhile_keeps isWhiteSpace x p (pat ++ y) Hws) as (l & x' & -> & Hd).
  exists x'. unfold leading, trimStart. rewrite Hd. split; [done|].
  rewrite !length_app. simpl. rewrite !length_app. lia.
Qed.

Lemma trimEnd_occurs x pat y q :
  last pat = Some q → isWhiteSpace q = false →
  ∃ y', trimEnd (x ++ pat ++ y) = x ++ pat ++ y'.
Proof.
  intros Hq Hws. apply last_Some in Hq as [pat0 ->].
  destruct (dropWhile_keeps isWhiteSpace (reverse y) q
              (reverse pat0 ++ reverse x) Hws) as (l & y' & Hy & Hd).
  exists (reverse y'). unfold trimEnd.
  rewrite !reverse_app. simpl. rewrite <- !app_assoc. simpl.
  rewrite Hd, reverse_app, reverse_cons, !reverse_app, !reverse_involutive.
  by rewrite <- !app_assoc.
Qed.

(** An occurrence of a pattern whose two ends are not white space survives
    [trim], moved left by the leading white space. *)
Lemma trim_occurs pat s j p q :
  head pat = Some p → isWhiteSpace p = false →
  last pat = Some q → isWhiteSpace q = false →
  occursAt pat s j = true →
  (leading s ≤ j)%nat ∧ occursAt pat (trim s) (j - leading s) = true.
Proof.
  intros Hp Hwp Hq Hwq (x & y & -> & <-)%occursAt_split.
  destruct (trimStart_occurs x pat y p Hp Hwp) as (x' & Hs & Hlen).
  destruct (trimEnd_occurs x' pat y q Hq Hwq) as (y' & He).
  split; [lia|]. apply occursAt_split. exists x', y'. split; [|lia].
  unfold trim. by rewrite Hs, He.
Qed.

(** Two occurrences of a pattern whose first code unit does not come back
    in it cannot overlap. *)
Lemma occurs_apart p pat s i j :
  p ∉ pat → (i < j)%nat →
  occursAt (p :: pat) s i = true → occursAt (p :: pat) s j = true →
  (i + length (p :: pat) ≤ j)%nat.
Proof.
  intros Hp Hij (a & b & -> & <-)%occursAt_split (a' & b' & Hs & <-)%occursAt_split.
  destruct (decide (length a + length (p :: pat) ≤ length a')%nat) as [|Hlt]; [done|].
  exfalso. apply Hp.
  assert (((a ++ (p :: pat) ++ b) !! length a') = Some p) as Hj.
  { rewrite Hs. exact (list_lookup_middle a' (pat ++ b') p _ eq_refl). }
  rewrite lookup_app_r in Hj by lia.
  destruct (length a' - length a)%nat as [|k] eqn:Hk; [lia|].
  simpl in Hj, Hlt. rewrite lookup_app_l in Hj by lia.
  by apply list_elem_of_lookup_2 in Hj.
Qed.

(** Cutting out the first occurrence moves the occurrences that start after
    it left by the length of the pattern. *)
Lemma replace_occurs pat s i j :
  indexOf pat s = Some i → (i + length pat ≤ j)%nat →
  occursAt pat s j = true →
  occursAt pat (replace pat [] s) (j - length pat) = true.
Proof.
  intros Hi Hij Hj. unfold replace. rewrite Hi. simpl.
  unfold occursAt in *. apply andb_true_iff in Hj as [Hlen%Nat.leb_le Hj].
  apply andb_true_iff. split.
  - apply Nat.leb_le. rewrite length_app, length_take, length_drop. lia.
  - rewrite drop_app_ge by (rewrite length_take; lia).
    rewrite length_take, drop_drop.
    replace (i + length pat + (j - length pat - i `min` length s))%nat with j by lia.
    done.
Qed.

End JsFacts.

(** ** Calendar dates and date strings *)

Lemma DayFromYear_succ y : DayFromYear (y + 1) = DayFromYear y + DaysInYear y.
Proof.
  unfold DayFromYear, DaysInYear, InLeapYear.
  assert ((y + 1 - 1969) / 4 = (y - 1969) / 4 + (if y mod 4 =? 0 then 1 else 0)) as ->
    by (destruct (Z.eqb_spec (y mod 4) 0); Z.to_euclidean_division_equations; lia).
  assert ((y + 1 - 1901) / 100 = (y - 1901) / 100 + (if y mod 100 =? 0 then 1 else 0)) as ->
    by (destruct (Z.eqb_spec (y mod 100) 0); Z.to_euclidean_division_equations; lia).
  assert ((y + 1 - 1601) / 400 = (y - 1601) / 400 + (if y mod 400 =? 0 then 1 else 0)) as ->
    by (destruct (Z.eqb_spec (y mod 400) 0); Z.to_euclidean_division_equations; lia).
  assert (y mod 100 = 0 -> y mod 4 = 0) as H1 by (Z.to_euclidean_division_equations; lia).
  assert (y mod 400 = 0 -> y mod 100 = 0) as H2 by (Z.to_euclidean_division_equations; lia).
  destruct (Z.eqb_spec (y mod 4) 0), (Z.eqb_spec (y mod 100) 0),
    (Z.eqb_spec (y mod 400) 0); cbn [andb orb negb]; try tauto;
    generalize ((y - 1969) / 4) ((y - 1901) / 100) ((y - 1601) / 400); intros; lia.
Qed.

Lemma DayFromYear_bounds y :
  146097 * (y - 1970) - 800 ≤ 400 * DayFromYear y ≤ 146097 * (y - 1970) + 800.
Proof. unfold DayFromYear. Z.to_euclidean_division_equations. lia. Qed.

Lemma YearFromDay_spec n :
  DayFromYear (YearFromDay n) <= n < DayFromYear (YearFromDay n + 1).
Proof.
  unfold YearFromDay.
  set (y := 1970 + (400 * n) / 146097).
  assert (146097 * (y - 1970) <= 400 * n < 146097 * (y - 1970) + 146097) as Hy
    by (subst y; Z.to_euclidean_division_equations; lia).
  pose proof (DayFromYear_bounds (y - 1)) as B0.
  pose proof (DayFromYear_bounds y) as B1.
  pose proof (DayFromYear_bounds (y + 1)) as B2.
  pose proof (DayFromYear_bounds (y + 2)) as B3.
  pose proof (DayFromYear_succ (y - 1)) as S0.
  replace (y - 1 + 1) with y in S0 by lia.
  pose proof (DayFromYear_succ y) as S1.
  pose proof (DayFromYear_succ (y + 1)) as S2.
  replace (y + 1 + 1) with (y + 2) in * by lia.
  destruct (DayFromYear (y + 1) <=? n) eqn:H1; [apply Z.leb_le in H1|apply Z.leb_gt in H1].
  - replace (y + 1 + 1) with (y + 2) by lia. split; [assumption|lia].
  - destruct (n <? DayFromYear y) eqn:H2; [apply Z.ltb_lt in H2|apply Z.ltb_ge in H2].
    + replace (y - 1 + 1) with y by lia. split; [lia|assumption].
    + lia.
Qed.

Lemma validDateTime_true f :
  validDateTime f = true ↔
  0 ≤ year f ≤ 9999 ∧ 1 ≤ month f ≤ 12 ∧ 1 ≤ day f ≤ DaysInMonth (year f) (month f)
  ∧ 0 ≤ hour f < 24 ∧ 0 ≤ minute f < 60 ∧ 0 ≤ second f < 60.
Proof.
  unfold validDateTime. rewrite !andb_true_iff, !Z.leb_le, !Z.ltb_lt. tauto.
Qed.

Lemma DayFromYear_add y k : 0 ≤ k → DayFromYear y + 365 * k ≤ DayFromYear (y + k).
Proof.
  intros Hk. pattern k. apply natlike_ind; [| |exact Hk]; clear k Hk; cbv beta.
  - replace (y + 0) with y by lia. lia.
  - intros k Hk IH. replace (y + Z.succ k) with (y + k + 1) by lia.
    rewrite DayFromYear_succ. unfold DaysInYear. destruct (InLeapYear _); lia.
Qed.

Lemma DayFromYear_mono y1 y2 : y1 ≤ y2 → DayFromYear y1 ≤ DayFromYear y2.
Proof.
  intros H. pose proof (DayFromYear_add y1 (y2 - y1) ltac:(lia)) as Ha.
  replace (y1 + (y2 - y1)) with y2 in Ha by lia. lia.
Qed.

Lemma DaysBeforeMonth_mono y m1 m2 :
  1 ≤ m1 → m1 ≤ m2 → m2 ≤ 13 → DaysBeforeMonth y m1 ≤ DaysBeforeMonth y m2.
Proof.
  intros H1 H12 H2. unfold DaysBeforeMonth. destruct (InLeapYear y).
  all: assert (m1 = 1 ∨ m1 = 2 ∨ m1 = 3 ∨ m1 = 4 ∨ m1 = 5 ∨ m1 = 6 ∨ m1 = 7 ∨ m1 = 8
       ∨ m1 = 9 ∨ m1 = 10 ∨ m1 = 11 ∨ m1 = 12 ∨ m1 = 13) as Hm1 by lia.
  all: assert (m2 = 1 ∨ m2 = 2 ∨ m2 = 3 ∨ m2 = 4 ∨ m2 = 5 ∨ m2 = 6 ∨ m2 = 7 ∨ m2 = 8
       ∨ m2 = 9 ∨ m2 = 10 ∨ m2 = 11 ∨ m2 = 12 ∨ m2 = 13) as Hm2 by lia.
  all: repeat (destruct Hm1 as [->|Hm1]); try subst m1;
       repeat (destruct Hm2 as [->|Hm2]); try subst m2; simpl; lia.
Qed.

Lemma DaysBeforeMonth_13 y : DaysBeforeMonth y 13 = DaysInYear y.
Proof. unfold DaysBeforeMonth, DaysInYear. by destruct (InLeapYear y). Qed.

Lemma DaysBeforeMonth_1 y : DaysBeforeMonth y 1 = 0.
Proof. done. Qed.

Ltac add_literals :=
  repeat match goal with
         | |- context [Z.add (Zpos ?a) (Zpos ?b)] =>
             let r := eval vm_compute in (Z.add (Zpos a) (Zpos b)) in
             change (Z.add (Zpos a) (Zpos b)) with r
         end.

Lemma MonthFromDay_spec y doy :
  0 ≤ doy < DaysInYear y →
  1 ≤ MonthFromDay y doy ≤ 12
  ∧ DaysBeforeMonth y (MonthFromDay y doy) ≤ doy
  ∧ doy < DaysBeforeMonth y (MonthFromDay y doy + 1).
Proof.
  unfold MonthFromDay, MonthFrom, DaysBeforeMonth, DaysInYear.
  destruct (InLeapYear y); add_literals; cbv iota; intros Hdoy;
    repeat (match goal with
            | |- context [doy <? ?b] => destruct (Z.ltb_spec doy b)
            end; [add_literals; cbv iota; lia|]); add_literals; cbv iota; lia.
Qed.

Lemma DayFromYear_0 : DayFromYear 0 = -719528.
Proof. reflexivity. Qed.

Lemma DayFromYear_10000 : DayFromYear 10000 = 2932897.
Proof. reflexivity. Qed.

Lemma time_of_day r :
  0 ≤ r < 86400 →
  0 ≤ r / 3600 < 24 ∧ 0 ≤ r mod 3600 / 60 < 60 ∧ 0 ≤ r mod 60 < 60
  ∧ r / 3600 * 3600 + r mod 3600 / 60 * 60 + r mod 60 = r.
Proof. intros Hr. Z.to_euclidean_division_equations. lia. Qed.

Lemma dateTimeOf_spec c :
  DATETIME_MIN ≤ c < DATETIME_MAX →
  validDateTime (dateTimeOf c) = true ∧ secondsOf (dateTimeOf c) = c.
Proof.
  unfold DATETIME_MIN, DATETIME_MAX. intros Hc.
  rewrite validDateTime_true. unfold secondsOf, MakeDay, dateTimeOf. cbn [year month day hour minute second].
  set (n := c / 86400). set (r := c mod 86400).
  assert (c = 86400 * n + r ∧ 0 ≤ r < 86400) as [Hcn Hr].
  { subst n r. pose proof (Z.div_mod c 86400 ltac:(lia)).
    pose proof (Z.mod_pos_bound c 86400 ltac:(lia)). lia. }
  destruct (time_of_day r Hr) as (Hh & Hmi & Hs & Htime).
  pose proof (YearFromDay_spec n) as Hy. set (y := YearFromDay n) in *.
  rewrite DayFromYear_succ in Hy.
  set (doy := n - DayFromYear y).
  destruct (MonthFromDay_spec y doy ltac:(subst doy; lia)) as (Hm & Hlo & Hhi).
  set (m := MonthFromDay y doy) in *.
  assert (0 ≤ y ≤ 9999) as Hyr.
  { split.
    - destruct (Z_lt_le_dec y 0) as [Hneg|]; [|done]. exfalso.
      pose proof (DayFromYear_mono (y + 1) 0 ltac:(lia)) as Hmono.
      rewrite DayFromYear_succ, DayFromYear_0 in Hmono. lia.
    - destruct (Z_lt_le_dec 9999 y) as [Hbig|]; [|done]. exfalso.
      pose proof (DayFromYear_mono 10000 y ltac:(lia)) as Hmono.
      rewrite DayFromYear_10000 in Hmono. lia. }
  unfold DaysInMonth. fold m. repeat split; try lia.
Qed.

Lemma secondsOf_lt f g :
  validDateTime f = true → validDateTime g = true →
  DateTime_lt f g → secondsOf f < secondsOf g.
Proof.
  rewrite !validDateTime_true. unfold DaysInMonth, DateTime_lt, secondsOf, MakeDay.
  destruct f as [y1 m1 d1 h1 i1 s1], g as [y2 m2 d2 h2 i2 s2].
  cbn [year month day hour minute second].
  intros (Hy1 & Hm1 & Hd1 & Hh1 & Hi1 & Hs1) (Hy2 & Hm2 & Hd2 & Hh2 & Hi2 & Hs2).
  pose proof (DaysBeforeMonth_mono y1 (m1 + 1) 13 ltac:(lia) ltac:(lia) ltac:(lia)) as Hend1.
  rewrite DaysBeforeMonth_13 in Hend1.
  pose proof (DaysBeforeMonth_mono y2 1 m2 ltac:(lia) ltac:(lia) ltac:(lia)) as Hstart2.
  rewrite DaysBeforeMonth_1 in Hstart2.
  intros [Hy|[-> Hrest]].
  - pose proof (DayFromYear_mono (y1 + 1) y2 ltac:(lia)) as Hmono.
    rewrite DayFromYear_succ in Hmono. lia.
  - destruct Hrest as [Hm|[-> Hrest]].
    + pose proof (DaysBeforeMonth_mono y2 (m1 + 1) m2 ltac:(lia) ltac:(lia) ltac:(lia)). lia.
    + lia.
Qed.

Lemma DateTime_lt_trichotomy f g : DateTime_lt f g ∨ f = g ∨ DateTime_lt g f.
Proof.
  destruct f as [y1 m1 d1 h1 i1 s1], g as [y2 m2 d2 h2 i2 s2].
  unfold DateTime_lt. cbn [year month day hour minute second].
  destruct (Z.lt_trichotomy y1 y2) as [?|[->|?]]; [lia| |lia].
  destruct (Z.lt_trichotomy m1 m2) as [?|[->|?]]; [lia| |lia].
  destruct (Z.lt_trichotomy d1 d2) as [?|[->|?]]; [lia| |lia].
  destruct (Z.lt_trichotomy h1 h2) as [?|[->|?]]; [lia| |lia].
  destruct (Z.lt_trichotomy i1 i2) as [?|[->|?]]; [lia| |lia].
  destruct (Z.lt_trichotomy s1 s2) as [?|[->|?]]; [lia| |lia].
  right. by left.
Qed.

Lemma dateTimeOf_lt c1 c2 :
  DATETIME_MIN ≤ c1 < DATETIME_MAX → DATETIME_MIN ≤ c2 < DATETIME_MAX →
  c1 < c2 ↔ DateTime_lt (dateTimeOf c1) (dateTimeOf c2).
Proof.
  intros [V1 E1]%dateTimeOf_spec [V2 E2]%dateTimeOf_spec. split.
  - intros Hlt. destruct (DateTime_lt_trichotomy (dateTimeOf c1) (dateTimeOf c2))
      as [H|[H|H]]; [done| |].
    + rewrite H in E1. lia.
    + pose proof (secondsOf_lt _ _ V2 V1 H). lia.
  - intros H. pose proof (secondsOf_lt _ _ V1 V2 H). lia.
Qed.

Lemma lex_ltb_cons x a y b :
  lex_ltb (x :: a) (y :: b) = true ↔ (x < y)%N ∨ (x = y ∧ lex_ltb a b = true).
Proof. simpl. by rewrite orb_true_iff, andb_true_iff, N.ltb_lt, N.eqb_eq. Qed.

Lemma lex_ltb_sep c a b : lex_ltb (c :: a) (c :: b) = true ↔ lex_ltb a b = true.
Proof. rewrite lex_ltb_cons. split; [intros [?|[_ ?]]; [lia|done] | by right]. Qed.

Lemma lex_ltb_nil_l b : lex_ltb [] b = true ↔ b ≠ [].
Proof. by destruct b. Qed.

Lemma lex_ltb_nil_r a : lex_ltb a [] = false.
Proof. by destruct a. Qed.

Lemma codePoints_low s : Forall (λ c, (c < 55296)%N) s → codePoints s = s.
Proof.
  induction 1 as [|hi rest Hhi Hrest IH]; [done|].
  cbn [codePoints]. destruct rest as [|lo rest']; [done|].
  replace (55296 <=? hi)%N with false by (symmetry; apply N.leb_gt; lia).
  cbn [andb]. by rewrite IH.
Qed.

Lemma digit_lt x y : 0 ≤ x → 0 ≤ y → (digit x < digit y)%N ↔ x < y.
Proof. unfold digit. lia. Qed.

Lemma digit_inj x y : 0 ≤ x → 0 ≤ y → digit x = digit y ↔ x = y.
Proof. unfold digit. lia. Qed.

Lemma digit_low x : 0 ≤ x ≤ 9 → (digit x < 55296)%N.
Proof. unfold digit. lia. Qed.

Lemma lex_pad2 a b s t :
  0 ≤ a < 100 → 0 ≤ b < 100 →
  lex_ltb (pad2 a ++ s) (pad2 b ++ t) = true ↔ a < b ∨ (a = b ∧ lex_ltb s t = true).
Proof.
  intros Ha Hb. unfold pad2. cbn [app]. rewrite !lex_ltb_cons.
  rewrite !digit_lt, !digit_inj by (Z.to_euclidean_division_equations; lia).
  assert (a < b ↔ a / 10 < b / 10 ∨ (a / 10 = b / 10 ∧ a mod 10 < b mod 10))
    by (Z.to_euclidean_division_equations; lia).
  assert (a = b ↔ a / 10 = b / 10 ∧ a mod 10 = b mod 10)
    by (Z.to_euclidean_division_equations; lia).
  tauto.
Qed.

Lemma lex_pad4 a b s t :
  0 ≤ a ≤ 9999 → 0 ≤ b ≤ 9999 →
  lex_ltb (pad4 a ++ s) (pad4 b ++ t) = true ↔ a < b ∨ (a = b ∧ lex_ltb s t = true).
Proof.
  intros Ha Hb. unfold pad4. rewrite <- !app_assoc.
  rewrite !lex_pad2 by (Z.to_euclidean_division_equations; lia).
  assert (a < b ↔ a / 100 < b / 100 ∨ (a / 100 = b / 100 ∧ a mod 100 < b mod 100))
    by (Z.to_euclidean_division_equations; lia).
  assert (a = b ↔ a / 100 = b / 100 ∧ a mod 100 = b mod 100)
    by (Z.to_euclidean_division_equations; lia).
  tauto.
Qed.

Lemma DaysInMonth_le y m : 1 ≤ m ≤ 12 → 28 ≤ DaysInMonth y m ≤ 31.
Proof.
  intros Hm. unfold DaysInMonth, DaysBeforeMonth.
  assert (m = 1 ∨ m = 2 ∨ m = 3 ∨ m = 4 ∨ m = 5 ∨ m = 6 ∨ m = 7 ∨ m = 8
          ∨ m = 9 ∨ m = 10 ∨ m = 11 ∨ m = 12) as Hcases by lia.
  destruct (InLeapYear y);
    repeat (destruct Hcases as [->|Hcases]); try subst m; add_literals; cbv iota; lia.
Qed.

Lemma formatDateTime_ltb f g r1 r2 :
  validDateTime f = true → validDateTime g = true →
  lex_ltb (formatDateTime f ++ r1) (formatDateTime g ++ r2) = true
  ↔ DateTime_lt f g ∨ (f = g ∧ lex_ltb r1 r2 = true).
Proof.
  rewrite !validDateTime_true.
  destruct f as [y1 m1 d1 h1 i1 s1], g as [y2 m2 d2 h2 i2 s2].
  unfold formatDateTime, DateTime_lt. cbn [year month day hour minute second].
  intros (Hy1 & Hm1 & Hd1 & Hh1 & Hi1 & Hs1) (Hy2 & Hm2 & Hd2 & Hh2 & Hi2 & Hs2).
  pose proof (DaysInMonth_le y1 m1 Hm1). pose proof (DaysInMonth_le y2 m2 Hm2).
  change (js "-") with [45%N]. change (js " ") with [32%N]. change (js ":") with [58%N].
  rewrite <- !app_assoc. cbn [app].
  rewrite lex_pad4, lex_ltb_sep, lex_pad2, lex_ltb_sep, lex_pad2, lex_ltb_sep,
    lex_pad2, lex_ltb_sep, lex_pad2, lex_ltb_sep, lex_pad2 by lia.
  split.
  - intros [?|[-> [?|[-> [?|[-> [?|[-> [?|[-> [?|[-> ?]]]]]]]]]]]]; try (left; lia).
    by right.
  - intros [Hlt|[[= -> -> -> -> -> ->] ?]]; [lia|].
    do 6 (right; split; [done|]). done.
Qed.

Lemma formatDateTime_low f :
  validDateTime f = true → Forall (λ c, (c < 55296)%N) (formatDateTime f).
Proof.
  rewrite validDateTime_true. intros (Hy & Hm & Hd & Hh & Hi & Hs).
  pose proof (DaysInMonth_le (year f) (month f) Hm).
  unfold formatDateTime, pad4, pad2.
  change (js "-") with [45%N]. change (js " ") with [32%N]. change (js ":") with [58%N].
  cbn [app]. repeat constructor;
    try (apply digit_low; Z.to_euclidean_division_equations; lia); lia.
Qed.

Lemma digitOf_Some c x : digitOf c = Some x → c = digit x ∧ 0 ≤ x ≤ 9.
Proof.
  unfold digitOf, digit. destruct (_ && _) eqn:H; [|done]. intros [= <-].
  apply andb_true_iff in H as [H1%N.leb_le H2%N.leb_le]. lia.
Qed.

Lemma number2_Some a b n : number2 a b = Some n → [a; b] = pad2 n ∧ 0 ≤ n < 100.
Proof.
  unfold number2. destruct (digitOf a) as [x|] eqn:Ha; [|done].
  destruct (digitOf b) as [y|] eqn:Hb; [|done]. cbn. intros [= <-].
  apply digitOf_Some in Ha as [-> Hx]. apply digitOf_Some in Hb as [-> Hy].
  unfold pad2. split; [|lia].
  replace ((10 * x + y) / 10) with x by (Z.to_euclidean_division_equations; lia).
  replace ((10 * x + y) mod 10) with y by (Z.to_euclidean_division_equations; lia).
  done.
Qed.

Lemma fractionOf_Some rest ms :
  fractionOf rest = Some ms →
  0 ≤ ms < 1000 ∧ (rest = [] → ms = 0) ∧ (0 < ms → rest ≠ [])
  ∧ Forall (λ c, (c < 55296)%N) rest.
Proof.
  destruct rest as [|dot ds]; [by intros [= <-]|]. cbn [fractionOf].
  destruct (_ && _) eqn:H; [|done].
  apply andb_true_iff in H as [Hdot%N.eqb_eq Hds]. subst dot.
  intros Hms. assert (0 ≤ ms < 1000) as Hr.
  { destruct ds as [|a [|b [|c ds]]]; [done|..];
      repeat match type of Hms with
             | context [digitOf ?c] =>
                 let Hc := fresh "Hc" in
                 destruct (digitOf c) as [?|] eqn:Hc; [apply digitOf_Some in Hc as [_ Hc]|done]
             end; cbn in Hms; injection Hms as <-; lia. }
  repeat split; [lia..|done|done|].
  constructor; [lia|]. rewrite forallb_forall in Hds. apply Forall_forall.
  intros c Hc%list_elem_of_In%Hds%bool_decide_eq_true.
  destruct Hc as [x [-> Hx]%digitOf_Some]. by apply digit_low.
Qed.

Lemma parseDateTime_Some s f ms :
  parseDateTime s = Some (f, ms) →
  validDateTime f = true ∧ 100 ≤ year f
  ∧ ∃ rest, s = formatDateTime f ++ rest ∧ fractionOf rest = Some ms.
Proof.
  do 19 (destruct s as [|? s]; [done|]). cbn [parseDateTime].
  destruct (_ && _) eqn:Hsep; [|done].
  repeat (apply andb_true_iff in Hsep as [Hsep ?%N.eqb_eq]). apply N.eqb_eq in Hsep.
  subst.
  destruct (number2 n n0) as [yh|] eqn:Hyh; [|done].
  destruct (number2 n1 n2) as [yl|] eqn:Hyl; [|done].
  destruct (number2 n4 n5) as [m|] eqn:Hm; [|done].
  destruct (number2 n7 n8) as [d|] eqn:Hd; [|done].
  destruct (number2 n10 n11) as [h|] eqn:Hh; [|done].
  destruct (number2 n13 n14) as [i|] eqn:Hi; [|done].
  destruct (number2 n16 n17) as [sec|] eqn:Hsec; [|done].
  destruct (fractionOf s) as [ms'|] eqn:Hfrac; [|done]. cbn [mbind option_bind].
  destruct (_ && _) eqn:Hok; [|done]. intros [= <- <-].
  apply andb_true_iff in Hok as [Hvalid Hyear%Z.leb_le].
  split; [done|]. split; [done|]. exists s. split; [|done].
  apply number2_Some in Hyh as [Hyh ?], Hyl as [Hyl ?], Hm as [Hm _], Hd as [Hd _],
    Hh as [Hh _], Hi as [Hi _], Hsec as [Hsec _].
  unfold formatDateTime, pad4. cbn [year month day hour minute second].
  replace ((100 * yh + yl) / 100) with yh by (Z.to_euclidean_division_equations; lia).
  replace ((100 * yh + yl) mod 100) with yl by (Z.to_euclidean_division_equations; lia).
  rewrite <- Hyh, <- Hyl, <- Hm, <- Hd, <- Hh, <- Hi, <- Hsec. reflexivity.
Qed.

(** ** The row transformer *)

Lemma fromMillis_Some (ms : Z) t :
  Timestamp_fromMillis ms = Some t →
  seconds t = ms / 1000 ∧ nanoseconds t = (ms mod 1000) * 1000000
  ∧ MIN_SECONDS ≤ ms / 1000 < MAX_SECONDS.
Proof.
  unfold Timestamp_fromMillis, Timestamp_new, Number_map, Number_ltb, Number_leb.
  destruct (_ || _) eqn:H; [done|]. intros [= <-]. simpl.
  apply orb_false_iff in H as [[[_ _]%orb_false_iff H1]%orb_false_iff H2].
  apply Z.ltb_ge in H1. apply Z.leb_gt in H2.
  rewrite Z.mod_eq by lia. repeat split; try lia. f_equal. lia.
Qed.

Lemma fromMillis_in_range (ms : Z) :
  MIN_SECONDS * 1000 ≤ ms < MAX_SECONDS * 1000 →
  Timestamp_fromMillis ms
  = Some {| seconds := ms / 1000; nanoseconds := (ms - ms / 1000 * 1000) * 1000000 |}.
Proof.
  intros Hms. unfold Timestamp_fromMillis, Timestamp_new, Number_map, Number_ltb, Number_leb.
  assert (MIN_SECONDS ≤ ms / 1000 < MAX_SECONDS) as Hs.
  { unfold MIN_SECONDS, MAX_SECONDS in *. split.
    - apply Z.div_le_lower_bound; lia.
    - apply Z.div_lt_upper_bound; lia. }
  pose proof (Z.mod_pos_bound ms 1000 eq_refl) as Hm.
  rewrite Z.mod_eq in Hm by lia.
  replace (_ || _) with false; [done|]. symmetry.
  repeat (apply orb_false_iff; split);
    [apply Z.ltb_ge | apply Z.leb_gt | apply Z.ltb_ge | apply Z.leb_gt]; lia.
Qed.

(** An invalid [Date] passes the range tests of the constructor. *)
Lemma fromMillis_NaN :
  Timestamp_fromMillis NaN = Some {| seconds := NaN; nanoseconds := NaN |}.
Proof. reflexivity. Qed.

(** What [formatRow] returns when it does not throw. *)
Lemma formatRow_resolved env row st d st' :
  formatRow env row st = (Resolved d, st') →
  ∃ point submitted,
    GeoPoint_new (lat row) (lon row) = Some point
    ∧ Timestamp_fromMillis (Date_new env (datetime row)) = Some submitted
    ∧ d = {| coords := point;
             geohash := geohashForLocation env (lat row) (lon row);
             dst_rating := rating row - 2;
             user_type := js "guest";
             user_name := Js.trim (Js.replace HITCHWIKI_MARK [] (default [] (name row)));
             submittedTimestamp := submitted;
             source_type := HITCHWIKI;
             source_id := id row;
             source_ingestedTimestamp := clock env (clockReads st) |}
    ∧ st' = tick st.
Proof.
  unfold formatRow, bind, orThrow, Timestamp_now, ret, throw.
  destruct (GeoPoint_new _ _) as [point|]; [|done].
  destruct (Timestamp_fromMillis _) as [submitted|]; [|done].
  intros [= <- <-]. by exists point, submitted.
Qed.

(** [formatRow] returns on every row with a valid location whose date is no
    valid [Date] or one in the years 0001 to 9999, and throws on the
    others. *)
Lemma formatRow_returns env row st :
  formattable env row = true → ∃ d, formatRow env row st = (Resolved d, tick st).
Proof.
  unfold formattable. rewrite andb_true_iff, !bool_decide_eq_true.
  intros [[point Hp] [submitted Hs]].
  unfold formatRow, bind, orThrow, Timestamp_now, ret, throw.
  rewrite Hp, Hs. eauto.
Qed.

Lemma formatRow_throws env row st :
  formattable env row = false → ∃ e, formatRow env row st = (Rejected e, st).
Proof.
  unfold formattable. rewrite andb_false_iff, !bool_decide_eq_false.
  unfold formatRow, bind, orThrow, Timestamp_now, ret, throw.
  destruct (GeoPoint_new _ _) as [point|]; [|by eauto].
  destruct (Timestamp_fromMillis _) as [submitted|]; [|by eauto].
  intros [H|H]; destruct H; eauto.
Qed.

Lemma replace_cut pat a b :
  Js.indexOf pat (a ++ pat ++ b) = Some (length a) →
  Js.replace pat [] (a ++ pat ++ b) = a ++ b.
Proof.
  intros Hi. unfold Js.replace. rewrite Hi. simpl.
  rewrite take_app_length, <- drop_drop, drop_app_length. by rewrite drop_app_length.
Qed.

Lemma replace_absent pat s : Js.indexOf pat s = None → Js.replace pat [] s = s.
Proof. intros Hi. unfold Js.replace. by rewrite Hi. Qed.

(** C7. The transform derives [user.name] from the source name by cutting
    out the literal "(Hitchwiki)" (its first occurrence, when there is one)
    and stripping the white space at the two ends; an absent name gives the
    empty string.  "Jane Doe (Hitchwiki)" gives "Jane Doe" and [null] gives
    the empty string. *)
Theorem name_cleanup env row st d st' :
  formatRow env row st = (Resolved d, st') →
  (name row = None → user_name d = js "")
  ∧ (name row = Some (js "Jane Doe (Hitchwiki)") → user_name d = js "Jane Doe")
  ∧ (∀ a b, name row = Some (a ++ js "(Hitchwiki)" ++ b) →
            Js.indexOf (js "(Hitchwiki)") (a ++ js "(Hitchwiki)" ++ b) = Some (length a) →
            Js.trimmed_of (user_name d) (a ++ b))
  ∧ (∀ nm, name row = Some nm → Js.indexOf (js "(Hitchwiki)") nm = None →
           Js.trimmed_of (user_name d) nm).
Proof.
  intros (point & submitted & _ & _ & -> & _)%formatRow_resolved.
  change (js "(Hitchwiki)") with HITCHWIKI_MARK. cbn [user_name].
  repeat split.
  - by intros ->.
  - by intros ->.
  - intros a b -> Hi. cbn [default from_option Datatypes.id].
    rewrite (replace_cut _ _ _ Hi). apply JsFacts.trim_trimmed_of.
  - intros nm -> Hi. cbn [default from_option Datatypes.id].
    rewrite (replace_absent _ _ Hi). apply JsFacts.trim_trimmed_of.
Qed.

Lemma name_cleanup_witness :
  formatRow (sample_env [])
    (sample_row "42" 4 (Some "Jane Doe (Hitchwiki)"%string) "2020-09-13 12:26:40")
    (startOf None ∅)
  = (Resolved (sample_doc "42" 2 "Jane Doe" 1600000000 0), tick (startOf None ∅))
  ∧ user_name (sample_doc "42" 2 "Jane Doe" 1600000000 0) = js "Jane Doe".
Proof.
  split; [reflexivity|].
  refine (proj1 (proj2 (name_cleanup (sample_env [])
            (sample_row "42" 4 (Some "Jane Doe (Hitchwiki)"%string) "2020-09-13 12:26:40")
            (startOf None ∅) _ (tick (startOf None ∅)) _)) _);
    reflexivity.
Defined.

Lemma mark_ends :
  head HITCHWIKI_MARK = Some 40%N ∧ Js.isWhiteSpace 40 = false
  ∧ last HITCHWIKI_MARK = Some 41%N ∧ Js.isWhiteSpace 41 = false
  ∧ (40%N ∉ tail HITCHWIKI_MARK) ∧ length HITCHWIKI_MARK = 11%nat.
Proof.
  repeat split. intros H. vm_compute in H.
  repeat (apply elem_of_cons in H as [H|H]; [discriminate H|]).
  by apply elem_of_nil in H.
Qed.

(** The occurrences of "(Hitchwiki)" after the first one are all still in
    the cleaned name, each moved left by the same distance: the eleven code
    units cut out plus the leading white space stripped. *)
Lemma cleanup_keeps_later nm i j :
  Js.indexOf HITCHWIKI_MARK nm = Some i → (i < j)%nat →
  Js.occursAt HITCHWIKI_MARK nm j = true →
  let cut := Js.replace HITCHWIKI_MARK [] nm in
  (11 + Js.leading cut ≤ j)%nat
  ∧ Js.occursAt HITCHWIKI_MARK (Js.trim cut) (j - (11 + Js.leading cut)) = true.
Proof.
  intros Hi Hij Hj cut.
  destruct mark_ends as (Hh & Hwh & Hl & Hwl & Hnot & Hlen).
  assert (i + length HITCHWIKI_MARK ≤ j)%nat as Hapart.
  { apply (JsFacts.occurs_apart 40%N (tail HITCHWIKI_MARK) nm i j Hnot Hij);
      [by apply JsFacts.indexOf_occurs | done]. }
  pose proof (JsFacts.replace_occurs _ _ _ _ Hi Hapart Hj) as Hcut.
  rewrite Hlen in Hcut, Hapart. fold cut in Hcut.
  destruct (JsFacts.trim_occurs _ _ _ _ _ Hh Hwh Hl Hwl Hcut) as [Hlead Hocc].
  split; [lia|].
  replace (j - (11 + Js.leading cut))%nat with (j - 11 - Js.leading cut)%nat by lia.
  exact Hocc.
Qed.

(** C10. Name cleanup removes only the first occurrence of "(Hitchwiki)":
    the cleaned name is the source name with the eleven code units of the
    first occurrence cut out and the ends trimmed, and every occurrence that
    starts after the first one is still in it. *)
Theorem name_cleanup_first_only env row st d st' nm i :
  formatRow env row st = (Resolved d, st') →
  name row = Some nm →
  Js.indexOf (js "(Hitchwiki)") nm = Some i →
  Js.trimmed_of (user_name d) (take i nm ++ drop (i + 11) nm)
  ∧ ∃ shift, ∀ j, (i < j)%nat → Js.occursAt (js "(Hitchwiki)") nm j = true →
                  (shift ≤ j)%nat
                  ∧ Js.occursAt (js "(Hitchwiki)") (user_name d) (j - shift) = true.
Proof.
  intros (point & submitted & _ & _ & -> & _)%formatRow_resolved Hnm Hi.
  change (js "(Hitchwiki)") with HITCHWIKI_MARK in *. cbn [user_name].
  rewrite Hnm. cbn [default from_option Datatypes.id]. split.
  - unfold Js.replace at 1. rewrite Hi. apply JsFacts.trim_trimmed_of.
  - exists (11 + Js.leading (Js.replace HITCHWIKI_MARK [] nm))%nat.
    intros j Hij Hj. by apply (cleanup_keeps_later nm i j).
Qed.

Lemma name_cleanup_first_only_witness :
  Js.trimmed_of (js "A  B (Hitchwiki)") (js "A  B (Hitchwiki) ")
  ∧ ∃ shift, ∀ j, (2 < j)%nat →
       Js.occursAt (js "(Hitchwiki)") (js "A (Hitchwiki) B (Hitchwiki) ") j = true →
       (shift ≤ j)%nat
       ∧ Js.occursAt (js "(Hitchwiki)") (js "A  B (Hitchwiki)") (j - shift) = true.
Proof.
  exact (name_cleanup_first_only (sample_env [])
           (sample_row "42" 4 (Some "A (Hitchwiki) B (Hitchwiki) "%string) "2020-09-13 12:26:40")
           (startOf None ∅) (sample_doc "42" 2 "A  B (Hitchwiki)" 1600000000 0)
           (tick (startOf None ∅)) (js "A (Hitchwiki) B (Hitchwiki) ") 2%nat
           eq_refl eq_refl eq_refl).
Defined.

(** ** The source selector *)

Lemma StronglySorted_lookup_lt {A} (R : relation A) l i j x y :
  StronglySorted R l → l !! i = Some x → l !! j = Some y → (i < j)%nat → R x y.
Proof.
  intros Hl. revert i j. induction Hl as [|a l Hl IH Ha]; intros i j; [by rewrite lookup_nil|].
  destruct i as [|i], j as [|j]; simpl; try lia.
  - intros [= <-] Hy _. rewrite Forall_forall in Ha.
    by eapply Ha, list_elem_of_lookup_2.
  - intros Hx Hy Hij. apply (IH i j); [done..|lia].
Qed.

Lemma lex_ltb_asym a b : lex_ltb a b = true → lex_ltb b a = false.
Proof.
  revert b. induction a as [|x a IH]; intros [|y b]; simpl; try done.
  rewrite orb_true_iff, andb_true_iff, orb_false_iff, andb_false_iff,
    N.ltb_lt, N.ltb_ge, N.eqb_eq, N.eqb_neq.
  intros [Hlt|[-> Hab]]; [split; [lia|left; lia]|].
  split; [lia|]. right. by apply IH.
Qed.

(** Not after, for the order of texts, is transitive. *)
Lemma lex_leb_trans a b c :
  lex_ltb b a = false → lex_ltb c b = false → lex_ltb c a = false.
Proof.
  revert b c. induction a as [|x a IH]; intros b c; [intros _ _; apply lex_ltb_nil_r|].
  destruct b as [|y b]; [done|]. destruct c as [|z c]; [done|]. simpl.
  rewrite !orb_false_iff, !andb_false_iff, !N.ltb_ge, !N.eqb_neq.
  intros [Hyx Hba] [Hzy Hcb]. split; [lia|].
  destruct (decide (z = x)) as [->|Hne]; [|by left]. right.
  assert (y = x) as -> by lia.
  destruct Hba as [?|Hba]; [done|]. destruct Hcb as [?|Hcb]; [done|].
  by apply (IH b c).
Qed.

Lemma sql_leb_total a b : sql_leb a b = true ∨ sql_leb b a = true.
Proof.
  destruct a as [|x|s], b as [|y|t]; simpl; auto.
  - rewrite !Qle_bool_iff. destruct (Qlt_le_dec x y) as [H%Qlt_le_weak|H]; auto.
  - destruct (text_ltb t s) eqn:H; [|by left]. right.
    unfold text_ltb in *. by rewrite (lex_ltb_asym _ _ H).
Qed.

Lemma sql_leb_trans a b c : sql_leb a b = true → sql_leb b c = true → sql_leb a c = true.
Proof.
  destruct a as [|x|s], b as [|y|t], c as [|z|u]; simpl; try done.
  - rewrite !Qle_bool_iff. apply Qle_trans.
  - rewrite !negb_true_iff. unfold text_ltb. intros H1 H2.
    by apply (lex_leb_trans _ (codePoints t)).
Qed.

#[global] Instance by_datetime_total : Total by_datetime.
Proof. intros a b. apply sql_leb_total. Qed.

#[global] Instance datetime_le_trans :
  Transitive (λ a b : SrcRow, sql_le (datetime a) (datetime b)).
Proof. intros a b c. apply sql_leb_trans. Qed.

Lemma ingestible_true env cutoff p :
  ingestible env cutoff p = true
  ↔ p_banned p = 0 ∧ p_reviewed p = 1 ∧ 2 < p_rating p
    ∧ sql_gt (p_datetime p) (DATETIME env cutoff) = true.
Proof.
  unfold ingestible. rewrite !andb_true_iff, !Z.eqb_eq, !Z.ltb_lt. tauto.
Qed.

Lemma query_Permutation env points cutoff :
  query env points cutoff
  ≡ₚ selected <$> filter (λ p, ingestible env cutoff p = true) points.
Proof. unfold query. by rewrite merge_sort_Permutation. Qed.

Lemma elem_of_query env points cutoff r :
  r ∈ query env points cutoff
  ↔ ∃ p, p ∈ points ∧ r = selected p ∧ ingestible env cutoff p = true.
Proof.
  rewrite query_Permutation, list_elem_of_fmap. split.
  - intros (p & -> & [Hp Hin]%list_elem_of_filter). eauto.
  - intros (p & Hin & -> & Hp). exists p. split; [done|].
    by apply list_elem_of_filter.
Qed.

Lemma query_Sorted env points cutoff :
  Sorted (λ a b, sql_le (datetime a) (datetime b)) (query env points cutoff).
Proof.
  unfold query. apply (Sorted_fmap selected by_datetime); [done|].
  apply (Sorted_merge_sort by_datetime).
Qed.

(** Within the years 0000 to 9999 the cutoff is compared as its text. *)
Lemma DATETIME_text env c :
  DATETIME_MIN ≤ c < DATETIME_MAX →
  DATETIME env c = SqlText (formatDateTime (dateTimeOf c)).
Proof.
  intros [H1%Z.leb_le H2%Z.ltb_lt]. unfold DATETIME. by rewrite H1, H2.
Qed.

(** Only text is above a text: NULL compares to NULL and a number is below
    every text. *)
Lemma sql_gt_text v t :
  sql_gt v (SqlText t) = true ↔ ∃ s, v = SqlText s ∧ text_ltb t s = true.
Proof.
  destruct v as [|q|s]; simpl; split; try done.
  - by intros (s & ? & _).
  - by intros (s & ? & _).
  - eauto.
  - by intros (s' & [= <-] & ?).
Qed.

(** Two date strings compare as their dates do, and then as what follows
    the seconds. *)
Lemma text_ltb_format f g r1 r2 :
  validDateTime f = true → validDateTime g = true →
  Forall (λ c, (c < 55296)%N) r1 → Forall (λ c, (c < 55296)%N) r2 →
  text_ltb (formatDateTime f ++ r1) (formatDateTime g ++ r2) = true
  ↔ DateTime_lt f g ∨ (f = g ∧ lex_ltb r1 r2 = true).
Proof.
  intros Hf Hg H1 H2. unfold text_ltb.
  rewrite !codePoints_low by (apply Forall_app; split; [by apply formatDateTime_low|done]).
  by apply formatDateTime_ltb.
Qed.

(** The texts [DATETIME] gives two instants compare as the instants do. *)
Lemma text_ltb_DATETIME c t :
  DATETIME_MIN ≤ c < DATETIME_MAX → DATETIME_MIN ≤ t < DATETIME_MAX →
  text_ltb (formatDateTime (dateTimeOf c)) (formatDateTime (dateTimeOf t)) = true ↔ c < t.
Proof.
  intros Hc Ht. rewrite (dateTimeOf_lt c t Hc Ht).
  destruct (dateTimeOf_spec c Hc) as [Vc _]. destruct (dateTimeOf_spec t Ht) as [Vt _].
  rewrite <- (app_nil_r (formatDateTime (dateTimeOf c))),
    <- (app_nil_r (formatDateTime (dateTimeOf t))).
  rewrite text_ltb_format by done. simpl. split; [by intros [?|[_ ?]] | by left].
Qed.

(** C3 as stated fails: in a process in UTC, a row that [formatRow] reads
    as created 1600000000 seconds after the epoch, written with a fraction
    of a second, is returned for the cutoff 1600000000, though it was not
    created after it; and a row whose date is the number 1700000000000,
    which [formatRow] reads as that many milliseconds after the epoch, is
    not returned, though it was created after the cutoff. *)
Lemma row_at_cutoff_selected :
  let p := sample_point "42" 4 None "2020-09-13 12:26:40.000" in
  let q := {| p_id := js "43"; p_lat := 10; p_lon := 20; p_rating := 4; p_name := None;
              p_datetime := SqlNumber 1700000000000; p_banned := 0; p_reviewed := 1 |} in
  let env := sample_env [p; q] in
  Date_new env (p_datetime p) = Integer (1600000000 * 1000)
  ∧ Date_new env (p_datetime q) = Integer (1700000000 * 1000)
  ∧ (getSrcRows env (Some [p; q]) 1600000000 (startOf None ∅)).1 = Resolved [selected p].
Proof. repeat split; vm_compute; reflexivity. Qed.

(** C3, as the code has it. [getSrcRows] returns exactly the rows of the
    dump that are not banned, are reviewed, have a rating above 2 and a
    [datetime] above the text of the cutoff (with their multiplicity), in
    ascending order of [datetime].  Only a text is above the text of the
    cutoff, which from the year 0000 to the year 9999 is
    [YYYY-MM-DD HH:MM:SS] in UTC.  For a row whose [datetime] is written the
    same way, that is: created strictly after the cutoff, a row created at
    the cutoff being left out; and such rows come in ascending order of
    creation time. *)
Theorem source_selection env points (cutoff : Z) st :
  let rows := query env points cutoff in
  (getSrcRows env (Some points) cutoff st).1 = Resolved rows
  ∧ rows ≡ₚ selected <$> filter (λ p, p_banned p = 0 ∧ p_reviewed p = 1 ∧ 2 < p_rating p
                                      ∧ sql_gt (p_datetime p) (DATETIME env cutoff) = true)
                           points
  ∧ Sorted (λ a b, sql_le (datetime a) (datetime b)) rows
  ∧ (DATETIME_MIN ≤ cutoff < DATETIME_MAX →
     DATETIME env cutoff = SqlText (formatDateTime (dateTimeOf cutoff))
     ∧ (∀ v, sql_gt v (DATETIME env cutoff) = true
             ↔ ∃ s, v = SqlText s
                    ∧ text_ltb (formatDateTime (dateTimeOf cutoff)) s = true)
     ∧ (∀ r t, DATETIME_MIN ≤ t < DATETIME_MAX →
               datetime r = SqlText (formatDateTime (dateTimeOf t)) →
               (r ∈ rows
                ↔ cutoff < t
                  ∧ ∃ p, p ∈ points ∧ r = selected p
                         ∧ p_banned p = 0 ∧ p_reviewed p = 1 ∧ 2 < p_rating p)
               ∧ (t = cutoff → r ∉ rows))
     ∧ (∀ i j ri rj ti tj,
          rows !! i = Some ri → rows !! j = Some rj → (i < j)%nat →
          DATETIME_MIN ≤ ti < DATETIME_MAX → DATETIME_MIN ≤ tj < DATETIME_MAX →
          datetime ri = SqlText (formatDateTime (dateTimeOf ti)) →
          datetime rj = SqlText (formatDateTime (dateTimeOf tj)) →
          ti ≤ tj)).
Proof.
  intros rows. subst rows. split; [done|]. split; [|split; [apply query_Sorted|]].
  { rewrite query_Permutation.
    by rewrite (list_filter_iff _ _ points (ingestible_true env cutoff)). }
  intros Hc.
  assert (∀ r t, DATETIME_MIN ≤ t < DATETIME_MAX →
                 datetime r = SqlText (formatDateTime (dateTimeOf t)) →
                 r ∈ query env points cutoff
                 ↔ cutoff < t
                   ∧ ∃ p, p ∈ points ∧ r = selected p
                          ∧ p_banned p = 0 ∧ p_reviewed p = 1 ∧ 2 < p_rating p) as Hsel.
  { intros r t Ht Hdate. rewrite elem_of_query. split.
    - intros (p & Hp & -> & Hing). apply ingestible_true in Hing as (? & ? & ? & Hgt).
      simpl in Hdate. rewrite (DATETIME_text env cutoff Hc), Hdate in Hgt. simpl in Hgt.
      rewrite text_ltb_DATETIME in Hgt by done. split; [done|]. by exists p.
    - intros (Hlt & p & Hp & -> & Hb & Hr & Hrat). exists p. repeat split; [done|].
      apply ingestible_true. repeat split; [done..|]. simpl in Hdate.
      rewrite (DATETIME_text env cutoff Hc), Hdate. simpl.
      by apply text_ltb_DATETIME. }
  split; [by apply DATETIME_text|]. split.
  { intros v. rewrite (DATETIME_text env cutoff Hc). apply sql_gt_text. }
  split.
  - intros r t Ht Hdate. split; [by apply Hsel|].
    intros -> Hin. apply (Hsel r cutoff Ht Hdate) in Hin. lia.
  - intros i j ri rj ti tj Hi Hj Hij Hti Htj Hdi Hdj.
    assert (sql_le (datetime ri) (datetime rj)) as Hle.
    { apply (StronglySorted_lookup_lt (λ a b, sql_le (datetime a) (datetime b))
               (query env points cutoff) i j); [|done..].
      apply Sorted_StronglySorted; [apply _ | apply query_Sorted]. }
    unfold sql_le in Hle. rewrite Hdi, Hdj in Hle. simpl in Hle.
    apply negb_true_iff in Hle.
    destruct (Z_lt_le_dec tj ti) as [Hlt|]; [|done].
    apply (text_ltb_DATETIME tj ti Htj Hti) in Hlt. congruence.
Qed.

(** ** The watermark *)

Ltac number_cases :=
  unfold Timestamp_le, Timestamp_lt, Number_lt, Number_le in *;
  repeat match goal with
         | t : Timestamp |- _ => destruct t as [[|?] [|?]]
         | x : Number |- _ => destruct x
         end;
  cbn [seconds nanoseconds] in *;
  try (intuition (simplify_eq; try done; try lia); fail).

Lemma Timestamp_ltb_lt a b : Timestamp_ltb a b = true ↔ Timestamp_lt a b.
Proof.
  unfold Timestamp_ltb, Timestamp_lt.
  rewrite orb_true_iff, andb_true_iff, !bool_decide_eq_true. tauto.
Qed.

Lemma Timestamp_le_refl a : Timestamp_le a a.
Proof. number_cases. Qed.

Lemma Timestamp_le_trans a b c : Timestamp_le a b → Timestamp_le b c → Timestamp_le a c.
Proof. number_cases. Qed.

Lemma Timestamp_le_seconds a b : Timestamp_le a b → Number_le (seconds a) (seconds b).
Proof. number_cases. Qed.

Lemma Timestamp_lt_or_le a b : Timestamp_lt a b ∨ Timestamp_le b a.
Proof.
  destruct a as [[|sa] [|na]], b as [[|sb] [|nb]];
    unfold Timestamp_le, Timestamp_lt, Number_lt, Number_le; cbn [seconds nanoseconds];
    try (destruct (Z.lt_trichotomy sa sb) as [?|[->|?]]);
    try (destruct (Z.lt_trichotomy na nb) as [?|[->|?]]);
    intuition (try done; try lia).
Qed.

Lemma Timestamp_lt_le a b : Timestamp_lt a b → Timestamp_le a b.
Proof. number_cases. Qed.

Lemma later_cases a b :
  (later a b = a ∨ later a b = b)
  ∧ Timestamp_le (submittedTimestamp a) (submittedTimestamp (later a b))
  ∧ Timestamp_le (submittedTimestamp b) (submittedTimestamp (later a b)).
Proof.
  unfold later. destruct (Timestamp_ltb _ _) eqn:H.
  - apply Timestamp_ltb_lt in H.
    repeat split; [by right | by apply Timestamp_lt_le | apply Timestamp_le_refl].
  - apply not_true_iff_false in H. rewrite Timestamp_ltb_lt in H.
    repeat split; [by left | apply Timestamp_le_refl |].
    by destruct (Timestamp_lt_or_le (submittedTimestamp a) (submittedTimestamp b)).
Qed.

Lemma latest_None docs : latest docs = None ↔ docs = [].
Proof. destruct docs; simpl; split; congruence. Qed.

(** [latest] picks a document of the list that no other is later than. *)
Lemma latest_Some docs d :
  latest docs = Some d →
  d ∈ docs ∧ ∀ d', d' ∈ docs → Timestamp_le (submittedTimestamp d') (submittedTimestamp d).
Proof.
  revert d. induction docs as [|a docs IH]; intros d; simpl; [done|].
  intros [= <-]. destruct (latest docs) as [e|] eqn:He; simpl.
  - destruct (IH e eq_refl) as [Hin Hmax].
    destruct (later_cases a e) as ([->| ->] & Ha & Hb).
    + split; [left|]. intros d' [->|Hd']%elem_of_cons; [done|].
      eapply Timestamp_le_trans; [by apply Hmax | done].
    + split; [by right|]. intros d' [->|Hd']%elem_of_cons; [done|].
      by apply Hmax.
  - apply latest_None in He as ->. split; [left|].
    intros d' [->|Hd']%elem_of_cons; [apply Timestamp_le_refl|].
    by apply elem_of_nil in Hd'.
Qed.

Lemma elem_of_hitchwiki_docs (spots : gmap (list N) DstRow) d :
  d ∈ filter (λ d, source_type d = HITCHWIKI) (snd <$> map_to_list spots)
  ↔ source_type d = HITCHWIKI ∧ ∃ key, spots !! key = Some d.
Proof.
  rewrite list_elem_of_filter, list_elem_of_fmap. split.
  - intros [Ht ([key d'] & -> & Hin%elem_of_map_to_list)]. eauto.
  - intros [Ht [key Hk]]. split; [done|]. exists (key, d).
    split; [done | by apply elem_of_map_to_list].
Qed.

(** The watermark query finds nothing exactly when the collection has no
    document of Hitchwiki provenance. *)
Lemma lastIngested_None (spots : gmap (list N) DstRow) :
  lastIngested spots = None
  ↔ ∀ key d, spots !! key = Some d → source_type d ≠ HITCHWIKI.
Proof.
  unfold lastIngested. rewrite latest_None. split.
  - intros Hnil key d Hk Ht.
    assert (d ∈ filter (λ d, source_type d = HITCHWIKI) (snd <$> map_to_list spots)) as Hin
      by (apply elem_of_hitchwiki_docs; eauto).
    rewrite Hnil in Hin. by apply elem_of_nil in Hin.
  - intros Hno. apply elem_of_nil_inv. intros d [Ht [key Hk]]%elem_of_hitchwiki_docs.
    by apply (Hno key d).
Qed.

(** Otherwise it finds a document of Hitchwiki provenance whose
    [submittedTimestamp] is the maximum over that provenance. *)
Lemma lastIngested_Some (spots : gmap (list N) DstRow) d :
  lastIngested spots = Some d →
  source_type d = HITCHWIKI
  ∧ (∃ key, spots !! key = Some d)
  ∧ ∀ key d', spots !! key = Some d' → source_type d' = HITCHWIKI →
              Timestamp_le (submittedTimestamp d') (submittedTimestamp d).
Proof.
  unfold lastIngested. intros [[Ht Hk]%elem_of_hitchwiki_docs Hmax]%latest_Some.
  repeat split; [done..|]. intros key d' Hk' Ht'.
  apply Hmax, elem_of_hitchwiki_docs. eauto.
Qed.

Lemma lastIngested_is_Some (spots : gmap (list N) DstRow) key d :
  spots !! key = Some d → source_type d = HITCHWIKI → is_Some (lastIngested spots).
Proof.
  intros Hk Ht. destruct (lastIngested spots) eqn:H; [done|].
  rewrite lastIngested_None in H. by destruct (H key d).
Qed.

(** C4. On a first run, when the collection holds no document of Hitchwiki
    provenance, the watermark query does not throw and finds nothing, and
    the cutoff is the epoch, 0.  When such a document exists, the query
    returns one whose [submittedTimestamp] is the maximum over the
    provenance, and the cutoff is read from that timestamp. *)
Theorem watermark_resolution env st :
  getDocsRejects env = false →
  ((∀ key d, hitchingSpots st !! key = Some d → source_type d ≠ HITCHWIKI) →
   (getLastIngestedRow env st).1 = Resolved None ∧ cutoffOf None = 0)
  ∧ ((∃ key d, hitchingSpots st !! key = Some d ∧ source_type d = HITCHWIKI) →
     ∃ last,
       (getLastIngestedRow env st).1 = Resolved (Some last)
       ∧ source_type last = HITCHWIKI
       ∧ (∃ key, hitchingSpots st !! key = Some last)
       ∧ (∀ key d, hitchingSpots st !! key = Some d → source_type d = HITCHWIKI →
                   Timestamp_le (submittedTimestamp d) (submittedTimestamp last))
       ∧ cutoffOf (Some last) = seconds (submittedTimestamp last)).
Proof.
  intros Hok. unfold getLastIngestedRow, bind, log, emit. rewrite Hok. simpl.
  split.
  - intros Hno. by rewrite (proj2 (lastIngested_None _) Hno).
  - intros (key & d & Hk & Ht).
    destruct (lastIngested_is_Some _ _ _ Hk Ht) as [last Hlast].
    exists last. rewrite Hlast.
    destruct (lastIngested_Some _ _ Hlast) as (? & ? & ?). done.
Qed.

(** ** The write loop *)

Lemma printed_printed a b st : printed b (printed a st) = printed (a ++ b) st.
Proof. unfold printed. simpl. by rewrite app_assoc. Qed.

Lemma printed_nil st : printed [] st = st.
Proof. destruct st. unfold printed. simpl. by rewrite app_nil_r. Qed.

Lemma stored_same st : stored (hitchingSpots st) st = st.
Proof. by destruct st. Qed.

Lemma writesOf_app a b : writesOf (a ++ b) = writesOf a ++ writesOf b.
Proof. apply omap_app. Qed.

Lemma written_snoc spots rows row :
  written spots (rows ++ [row]) = <[docId row := row]> (written spots rows).
Proof. unfold written. by rewrite foldl_app. Qed.

(** One turn of the loop: the write is issued; when Firestore rejects it the
    loop is left at once, otherwise the document is in its slot, the
    progress line is printed (and the quota line when [done] has reached
    [MAX_WRITES]), and the loop goes on with the next row. *)
Lemma insertLoop_cons env total row rest done st :
  insertLoop env total (row :: rest) done st
  = if setDocRejects env (docId row) row
    then (Rejected (SetDocRejected (docId row)), printed [SetDoc (docId row) row] st)
    else insertLoop env total rest (done + 1)
           (printed (SetDoc (docId row) row
                     :: Log (Progress (done + 1) total (source_id row) (submittedTimestamp row))
                     :: (if MAX_WRITES <=? done + 1 then [Log ReachedQuota] else []))
              (stored (<[docId row := row]> (hitchingSpots st)) st)).
Proof.
  simpl. unfold setDoc, bind, log, emit, throw, ret.
  destruct (setDocRejects env (docId row) row); [done|].
  destruct (MAX_WRITES <=? done + 1); simpl; f_equal;
    unfold printed, stored; simpl; by rewrite <- ?app_assoc.
Qed.

(** The loop as a whole: it writes the rows in order up to the first one
    Firestore rejects, and nothing after it. *)
Lemma insertLoop_run env total rows done st :
  ∃ n evs o,
    insertLoop env total rows done st
    = (o, printed evs (stored (written (hitchingSpots st) (take n rows)) st))
    ∧ Forall loop_event evs
    ∧ Forall (λ d, setDocRejects env (docId d) d = false) (take n rows)
    ∧ match o with
      | Resolved _ =>
          n = length rows ∧ writesOf evs = (λ d, (docId d, d)) <$> rows
      | Rejected e =>
          ∃ d, rows !! n = Some d
               ∧ setDocRejects env (docId d) d = true
               ∧ e = SetDocRejected (docId d)
               ∧ writesOf evs = (λ d, (docId d, d)) <$> take (S n) rows
               ∧ last evs = Some (SetDoc (docId d) d)
      end.
Proof.
  revert done st. induction rows as [|row rest IH]; intros done st.
  - exists 0%nat, [], (Resolved tt). simpl.
    by rewrite printed_nil, stored_same.
  - rewrite insertLoop_cons. destruct (setDocRejects env (docId row) row) eqn:Hrej.
    + exists 0%nat, [SetDoc (docId row) row], (Rejected (SetDocRejected (docId row))).
      simpl. rewrite stored_same. repeat split; [by repeat constructor|constructor|].
      by exists row.
    + match goal with |- context [insertLoop env total rest ?d ?s] =>
        destruct (IH d s) as (n & evs & o & Hrun & Hev & Hacc & Ho) end.
      match type of Hrun with context [printed evs (stored _ (printed ?e _))] =>
        exists (S n), (e ++ evs), o end.
      rewrite Hrun. split; [|split; [|split]].
      * f_equal. unfold printed, stored, written. simpl.
        by rewrite <- app_assoc.
      * apply Forall_app. split; [|done].
        destruct (MAX_WRITES <=? done + 1); by repeat constructor.
      * simpl. by constructor.
      * destruct o as [[]|e].
        -- destruct Ho as [-> Hw]. split; [done|].
           rewrite writesOf_app, Hw. by destruct (MAX_WRITES <=? done + 1).
        -- destruct Ho as (d & Hd & Hr & -> & Hw & Hlast). exists d.
           repeat split; [done..| |].
           ++ rewrite writesOf_app, Hw. by destruct (MAX_WRITES <=? done + 1).
           ++ rewrite last_app, Hlast. done.
Qed.

Lemma insertRows_run env rows st :
  ∃ n evs o,
    insertRows env rows st
    = (o, printed (Log (InsertingRows (Z.of_nat (length rows))) :: evs)
            (stored (written (hitchingSpots st) (take n rows)) st))
    ∧ Forall loop_event evs
    ∧ Forall (λ d, setDocRejects env (docId d) d = false) (take n rows)
    ∧ match o with
      | Resolved _ =>
          n = length rows ∧ writesOf evs = (λ d, (docId d, d)) <$> rows
      | Rejected e =>
          ∃ d, rows !! n = Some d
               ∧ setDocRejects env (docId d) d = true
               ∧ e = SetDocRejected (docId d)
               ∧ writesOf evs = (λ d, (docId d, d)) <$> take (S n) rows
               ∧ last evs = Some (SetDoc (docId d) d)
      end.
Proof.
  unfold insertRows, bind, log, emit.
  destruct (insertLoop_run env (Z.of_nat (length rows)) rows 0
              (printed [Log (InsertingRows (Z.of_nat (length rows)))] st))
    as (n & evs & o & Hrun & Hev & Hacc & Ho).
  exists n, evs, o. rewrite Hrun. split; [|done].
  f_equal. unfold printed, stored. simpl. by rewrite <- app_assoc.
Qed.

(** When Firestore rejects none of the rows, every row is written, however
    many there are: [MAX_WRITES] only decides what is printed. *)
Lemma insertRows_writes_all env rows st :
  Forall (λ d, setDocRejects env (docId d) d = false) rows →
  ∃ evs,
    insertRows env rows st
    = (Resolved tt, printed (Log (InsertingRows (Z.of_nat (length rows))) :: evs)
                      (stored (written (hitchingSpots st) rows) st))
    ∧ writesOf evs = (λ d, (docId d, d)) <$> rows.
Proof.
  intros Hall. destruct (insertRows_run env rows st) as (n & evs & o & Hrun & _ & _ & Ho).
  destruct o as [[]|e].
  - destruct Ho as [-> Hw]. exists evs. by rewrite firstn_all in Hrun.
  - destruct Ho as (d & Hd & Hr & _).
    apply list_elem_of_lookup_2 in Hd. rewrite Forall_forall in Hall.
    rewrite (Hall d Hd) in Hr. discriminate.
Qed.

(** ** The pass *)

(** [srcRows.map(formatRow)] touches neither the collection nor the
    console, and returns unless a row is not [formattable]. *)
Lemma mapM_formatRow env rows st :
  ∃ o st',
    mapM (formatRow env) rows st = (o, st')
    ∧ sqliteFile st' = sqliteFile st
    ∧ hitchingSpots st' = hitchingSpots st
    ∧ console st' = console st
    ∧ match o with
      | Resolved ds => forallb (formattable env) rows = true ∧ Forall2 (formats env) rows ds
      | Rejected e => forallb (formattable env) rows = false
      end.
Proof.
  revert st. induction rows as [|row rows IH]; intros st.
  - exists (Resolved []), st. simpl. repeat split. constructor.
  - simpl. unfold bind. destruct (formattable env row) eqn:Hrow.
    + destruct (formatRow_returns env row st Hrow) as [d Hd]. rewrite Hd.
      destruct (IH (tick st)) as (o & st' & Hrun & Hf & Hs & Hc & Ho). rewrite Hrun.
      destruct o as [ds|e].
      * exists (Resolved (d :: ds)), st'. destruct Ho as [Hall Hds].
        repeat split; [done..|]. constructor; [|done]. by exists st, (tick st).
      * by exists (Rejected e), st'.
    + destruct (formatRow_throws env row st Hrow) as [e He]. rewrite He.
      by exists (Rejected e), st.
Qed.

Lemma selection_Some env db cutoff rows :
  selection env db cutoff = Some rows
  ↔ ∃ points c, db = Some points ∧ cutoff = Integer c ∧ rows = query env points c.
Proof.
  unfold selection. destruct db as [points|], cutoff as [|c]; split;
    try done; try (by intros (? & ? & ? & ? & ?)).
  - intros [= <-]. by exists points, c.
  - by intros (? & ? & [= <-] & [= <-] & ->).
Qed.

(** [ingest], stage by stage. *)
Lemma ingest_run env st :
  let cutoff := cutoffOf (lastIngested (hitchingSpots st)) in
  ingest env st
  = match served env with
    | None =>
        (Rejected DownloadFailed, printed [Log Running; Log DownloadingFile] (saved None st))
    | Some file =>
        if getDocsRejects env
        then (Rejected GetDocsRejected, printed stage_lines (saved file st))
        else
          let st3 := printed (stage_lines ++ [Log (GettingRowsAfter cutoff)]) (saved file st) in
          match selection env file cutoff with
          | None => (Rejected SqliteError, st3)
          | Some srcRows =>
              match mapM (formatRow env) srcRows st3 with
              | (Resolved dstRows, st4) =>
                  try_catch (insertRows env dstRows >> log CompletedWithoutError)
                    (λ err, log (Failed err)) st4
              | (Rejected e, st4) => (Rejected e, st4)
              end
          end
    end.
Proof.
  unfold ingest, downloadDump, getSrcDb, getDstDb, getLastIngestedRow, getSrcRows.
  unfold bind at 1 2 3 4 5 6 7 8 9 10 11. unfold log, emit, throw, ret, orThrow. simpl.
  destruct (served env) as [file|]; simpl.
  - destruct (getDocsRejects env); simpl.
    + f_equal. unfold printed, saved. simpl. by rewrite <- !app_assoc.
    + assert (printed [Log (GettingRowsAfter (cutoffOf (lastIngested (hitchingSpots st))))]
                (printed [Log GettingLastIngestedRow]
                   (printed [Log ConnectingToFirebase]
                      (printed [Log ConnectingToSqlite]
                         (saved file (printed [Log DownloadingFile] (printed [Log Running] st))))))
              = printed (stage_lines ++ [Log (GettingRowsAfter (cutoffOf (lastIngested (hitchingSpots st))))])
                  (saved file st)) as ->.
      { unfold printed, saved. simpl. by rewrite <- !app_assoc. }
      destruct (selection env file _) as [srcRows|]; [|done]. simpl. unfold bind at 1.
      by destruct (mapM _ _ _) as [[dstRows|e] st4].
  - f_equal. unfold printed, saved. simpl. by rewrite <- !app_assoc.
Qed.

Ltac in_lines H :=
  repeat (apply elem_of_cons in H as [H|H]; [try discriminate H|]);
  try (by apply elem_of_nil in H).

Lemma Forall2_take_r {A B} (P : A → B → Prop) l k n d :
  Forall2 P l k → d ∈ take n k → ∃ a, a ∈ l ∧ P a d.
Proof.
  intros HF Hd. apply list_elem_of_lookup in Hd as [i Hi].
  apply lookup_take_Some in Hi as [Hi _].
  destruct (Forall2_lookup_r _ _ _ _ _ HF Hi) as (a & Ha & HP).
  exists a. split; [by eapply list_elem_of_lookup_2 | done].
Qed.

(** What a pass leaves behind: it prints the cutoff it selects with, which
    is the one read from the collection it started with, and the documents
    it puts in the collection are made of rows selected with that cutoff. *)
Lemma ingest_pass env st :
  let cutoff := cutoffOf (lastIngested (hitchingSpots st)) in
  ∃ evs ds,
    console (ingest env st).2 = console st ++ evs
    ∧ hitchingSpots (ingest env st).2 = written (hitchingSpots st) ds
    ∧ (∀ c, Log (GettingRowsAfter c) ∈ evs → c = cutoff)
    ∧ Forall (λ d, ∃ points c row, served env = Some (Some points) ∧ cutoff = Integer c
                                   ∧ row ∈ query env points c ∧ formats env row d) ds
    ∧ (is_Some (served env) → getDocsRejects env = false →
       Log (GettingRowsAfter cutoff) ∈ evs).
Proof.
  intros cutoff. rewrite ingest_run. fold cutoff.
  destruct (served env) as [file|] eqn:Hserved.
  2:{ exists [Log Running; Log DownloadingFile], []. repeat split; [|constructor|].
      - intros c Hc. in_lines Hc.
      - by intros [? ?]. }
  destruct (getDocsRejects env).
  { exists stage_lines, []. repeat split; [|constructor|done].
    intros c Hc. unfold stage_lines in Hc. in_lines Hc. }
  cbv zeta. set (st3 := printed _ _).
  assert (∀ c, Log (GettingRowsAfter c) ∈ stage_lines ++ [Log (GettingRowsAfter cutoff)] →
               c = cutoff) as Hlines.
  { intros c Hc. unfold stage_lines in Hc. simpl in Hc. in_lines Hc. by injection Hc. }
  assert (Log (GettingRowsAfter cutoff) ∈ stage_lines ++ [Log (GettingRowsAfter cutoff)])
    as Hprinted by (apply elem_of_app; right; by left).
  destruct (selection env file cutoff) as [srcRows|] eqn:Hsel.
  2:{ exists (stage_lines ++ [Log (GettingRowsAfter cutoff)]), [].
      repeat split; [done|constructor|done]. }
  apply selection_Some in Hsel as (points & c & -> & Hcut & ->).
  destruct (mapM_formatRow env (query env points c) st3)
    as (o & st4 & Hmap & Hf4 & Hs4 & Hc4 & Ho).
  rewrite Hmap. destruct o as [dstRows|e].
  2:{ exists (stage_lines ++ [Log (GettingRowsAfter cutoff)]), [].
      simpl. rewrite Hs4, Hc4. repeat split; [done|constructor|done]. }
  destruct Ho as [_ Hrows].
  destruct (insertRows_run env dstRows st4) as (n & evs & o & Hrun & Hev & _ & _).
  unfold try_catch, bind. rewrite Hrun.
  exists ((stage_lines ++ [Log (GettingRowsAfter cutoff)])
          ++ (Log (InsertingRows (Z.of_nat (length dstRows))) :: evs)
          ++ [Log (match o with Resolved _ => CompletedWithoutError | Rejected e => Failed e end)]),
         (take n dstRows).
  assert (∀ l, l = CompletedWithoutError ∨ (∃ e, l = Failed e) →
    console (printed [Log l]
               (printed (Log (InsertingRows (Z.of_nat (length dstRows))) :: evs)
                  (stored (written (hitchingSpots st4) (take n dstRows)) st4)))
    = console st ++ (stage_lines ++ [Log (GettingRowsAfter cutoff)])
        ++ (Log (InsertingRows (Z.of_nat (length dstRows))) :: evs) ++ [Log l]) as Hconsole.
  { intros l _. simpl. rewrite Hc4. simpl. by rewrite <- !app_assoc. }
  split; [|split; [|split; [|split]]].
  - destruct o as [[]|e]; simpl; unfold log, emit; apply Hconsole; eauto.
  - destruct o as [[]|e]; simpl; by rewrite Hs4.
  - intros c' [Hc|Hc]%elem_of_app; [by apply Hlines|].
    apply elem_of_app in Hc as [Hc|Hc].
    + apply elem_of_cons in Hc as [Hc|Hc]; [discriminate|].
      rewrite Forall_forall in Hev. by destruct (Hev _ Hc).
    + destruct o; in_lines Hc.
  - apply Forall_forall. intros d Hd.
    destruct (Forall2_take_r _ _ _ _ _ Hrows Hd) as (row & Hrow & Hfmt).
    by exists points, c, row.
  - intros _ _. apply elem_of_app. by left.
Qed.

(** A slot of the collection holds after the writes either what it held
    before or one of the written documents. *)
Lemma written_lookup (spots : gmap (list N) DstRow) ds key :
  written spots ds !! key = spots !! key
  ∨ ∃ d, d ∈ ds ∧ docId d = key ∧ written spots ds !! key = Some d.
Proof.
  induction ds as [|d ds IH] using rev_ind; [by left|].
  rewrite written_snoc. destruct (decide (docId d = key)) as [<-|Hne].
  - right. exists d. rewrite lookup_insert_eq. split; [|done].
    apply elem_of_app. right. by left.
  - rewrite lookup_insert_ne by done. destruct IH as [IH|(d' & Hd' & Hk & IH)].
    + by left.
    + right. exists d'. split; [|done]. apply elem_of_app. by left.
Qed.

(** ** The cutoff and the stored times *)

Lemma secondsOf_bounds f :
  validDateTime f = true → DATETIME_MIN ≤ secondsOf f < DATETIME_MAX.
Proof.
  rewrite validDateTime_true. unfold DaysInMonth, secondsOf, MakeDay, DATETIME_MIN, DATETIME_MAX.
  intros (Hy & Hm & Hd & Hh & Hi & Hs).
  pose proof (DaysBeforeMonth_mono (year f) (month f + 1) 13 ltac:(lia) ltac:(lia) ltac:(lia))
    as Hend. rewrite DaysBeforeMonth_13 in Hend.
  pose proof (DaysBeforeMonth_mono (year f) 1 (month f) ltac:(lia) ltac:(lia) ltac:(lia))
    as Hstart. rewrite DaysBeforeMonth_1 in Hstart.
  pose proof (DayFromYear_mono 0 (year f) ltac:(lia)) as Hlo. rewrite DayFromYear_0 in Hlo.
  pose proof (DayFromYear_mono (year f + 1) 10000 ltac:(lia)) as Hhi.
  rewrite DayFromYear_10000, DayFromYear_succ in Hhi. lia.
Qed.

Lemma dateTimeOf_secondsOf f : validDateTime f = true → dateTimeOf (secondsOf f) = f.
Proof.
  intros Hf. pose proof (secondsOf_bounds f Hf) as Hb.
  destruct (dateTimeOf_spec _ Hb) as [Hv He].
  destruct (DateTime_lt_trichotomy (dateTimeOf (secondsOf f)) f) as [H|[H|H]]; [|done|].
  - pose proof (secondsOf_lt _ _ Hv Hf H). lia.
  - pose proof (secondsOf_lt _ _ Hf Hv H). lia.
Qed.

(** A date string is above the text of a cutoff when its date and time,
    read in UTC, is after the cutoff, or is the cutoff and something follows
    the seconds. *)
Lemma text_after_cutoff s f ms c :
  DATETIME_MIN ≤ c < DATETIME_MAX →
  parseDateTime s = Some (f, ms) →
  0 ≤ ms < 1000
  ∧ (text_ltb (formatDateTime (dateTimeOf c)) s = true → c * 1000 ≤ secondsOf f * 1000 + ms)
  ∧ (c * 1000 < secondsOf f * 1000 + ms → text_ltb (formatDateTime (dateTimeOf c)) s = true).
Proof.
  intros Hc (Hf & _ & rest & -> & Hfrac)%parseDateTime_Some.
  apply fractionOf_Some in Hfrac as (Hms & Hnil & Hpos & Hlow).
  destruct (dateTimeOf_spec c Hc) as [Hv He].
  pose proof (secondsOf_bounds f Hf) as Hb.
  assert (text_ltb (formatDateTime (dateTimeOf c)) (formatDateTime f ++ rest) = true
          ↔ c < secondsOf f ∨ (c = secondsOf f ∧ rest ≠ [])) as ->.
  { rewrite <- (app_nil_r (formatDateTime (dateTimeOf c))).
    rewrite text_ltb_format, lex_ltb_nil_l by (done || constructor).
    rewrite (dateTimeOf_lt c (secondsOf f) Hc Hb), (dateTimeOf_secondsOf f Hf).
    split; (intros [?|[Heq ?]]; [by left|right; split; [|done]]).
    - by rewrite <- Heq.
    - by rewrite Heq, dateTimeOf_secondsOf. }
  split; [done|]. split; [lia|]. intros Hlt.
  destruct (Z_lt_le_dec c (secondsOf f)) as [?|?]; [by left|right].
  split; [lia|]. apply Hpos. lia.
Qed.

(** The time value [Date] reads from a date string: the date and time are
    taken as local time. *)
Lemma Date_new_text env s f ms :
  parseDateTime s = Some (f, ms) →
  (∀ t, -86400000 ≤ LocalTZA env t ≤ 86400000) →
  let t := secondsOf f * 1000 + ms in
  Date_new env (SqlText s) = Integer (t - LocalTZA env t).
Proof.
  intros Hs Hzone t. unfold Date_new, Date_parse. rewrite Hs. fold t.
  apply parseDateTime_Some in Hs as (Hf & _ & rest & _ & Hfrac).
  apply fractionOf_Some in Hfrac as (Hms & _).
  pose proof (secondsOf_bounds f Hf) as Hb. specialize (Hzone t).
  unfold TimeClip. replace (_ <=? _) with true; [done|]. symmetry. apply Z.leb_le.
  unfold MAX_TIME, DATETIME_MIN, DATETIME_MAX in *. lia.
Qed.

(** In a time zone that is not ahead of UTC, a document made of a row
    selected with [cutoff] is not stored before [cutoff]. *)
Lemma selected_doc_after env points (cutoff : Z) row d :
  (∀ t, -86400000 ≤ LocalTZA env t ≤ 0) →
  Forall (λ p, readable (p_datetime p)) points →
  DATETIME_MIN ≤ cutoff < DATETIME_MAX →
  row ∈ query env points cutoff → formats env row d →
  ∃ z : Z, seconds (submittedTimestamp d) = z ∧ cutoff ≤ z.
Proof.
  intros Hzone Hread Hc (p & Hp & -> & Hing)%elem_of_query (st & st' & Hfmt).
  apply formatRow_resolved in Hfmt as (point & submitted & _ & Hsub & -> & _).
  cbn [submittedTimestamp datetime selected] in *.
  apply ingestible_true in Hing as (_ & _ & _ & Hgt).
  rewrite (DATETIME_text env cutoff Hc) in Hgt.
  apply sql_gt_text in Hgt as (s & Hs & Hgt).
  rewrite Forall_forall in Hread.
  destruct (Hread p Hp s Hs) as [[f ms] Hparse].
  destruct (text_after_cutoff s f ms cutoff Hc Hparse) as (Hms & Hafter & _).
  specialize (Hafter Hgt).
  rewrite Hs, (Date_new_text env s f ms Hparse) in Hsub
    by (intros t; specialize (Hzone t); lia).
  apply fromMillis_Some in Hsub as (-> & _). eexists. split; [done|].
  specialize (Hzone (secondsOf f * 1000 + ms)).
  apply Z.div_le_lower_bound; lia.
Qed.

(** Under these conditions the watermark does not move back over a pass. *)
Lemma watermark_advances env st (cutoff : Z) :
  (∀ t, -86400000 ≤ LocalTZA env t ≤ 0) →
  (∀ points, served env = Some (Some points) → Forall (λ p, readable (p_datetime p)) points) →
  DATETIME_MIN ≤ cutoff < DATETIME_MAX →
  cutoffOf (lastIngested (hitchingSpots st)) = cutoff →
  ∃ z : Z, cutoffOf (lastIngested (hitchingSpots (ingest env st).2)) = z ∧ cutoff ≤ z.
Proof.
  intros Hzone Hread Hc Hcut.
  destruct (ingest_pass env st) as (evs & ds & _ & -> & _ & Hds & _).
  rewrite Hcut in Hds.
  assert (∀ d, d ∈ ds → source_type d = HITCHWIKI
                        ∧ ∃ z : Z, seconds (submittedTimestamp d) = z ∧ cutoff ≤ z) as Hnew.
  { intros d Hd. rewrite Forall_forall in Hds.
    destruct (Hds d Hd) as (points & c & row & Hserved & [= <-] & Hrow & Hfmt).
    split; [|exact (selected_doc_after env points cutoff row d Hzone
                      (Hread points Hserved) Hc Hrow Hfmt)].
    destruct Hfmt as (s & s' & (? & ? & _ & _ & -> & _)%formatRow_resolved). done. }
  assert (∀ key d (z : Z), written (hitchingSpots st) ds !! key = Some d →
                   source_type d = HITCHWIKI →
                   seconds (submittedTimestamp d) = z → cutoff ≤ z →
                   ∃ z' : Z, cutoffOf (lastIngested (written (hitchingSpots st) ds)) = z'
                             ∧ cutoff ≤ z') as Hfound.
  { intros key d z Hk Ht Hz Hle.
    destruct (lastIngested_is_Some _ _ _ Hk Ht) as [last Hlast]. rewrite Hlast. simpl.
    destruct (lastIngested_Some _ _ Hlast) as (_ & _ & Hmax).
    specialize (Hmax key d Hk Ht). apply Timestamp_le_seconds in Hmax.
    rewrite Hz in Hmax. destruct (seconds (submittedTimestamp last)) as [|z']; [done|].
    exists z'. split; [done|]. simpl in Hmax. lia. }
  destruct (lastIngested (hitchingSpots st)) as [d0|] eqn:Hold.
  - destruct (lastIngested_Some _ _ Hold) as (Ht0 & [key0 Hk0] & _). simpl in Hcut.
    destruct (written_lookup (hitchingSpots st) ds key0) as [Hsame|(d1 & Hd1 & _ & Hk1)].
    + apply (Hfound key0 d0 cutoff); [by rewrite Hsame | done | done | lia].
    + destruct (Hnew d1 Hd1) as (? & z & ? & ?). by apply (Hfound key0 d1 z).
  - simpl in Hcut. injection Hcut as <-.
    destruct (lastIngested (written (hitchingSpots st) ds)) as [d'|] eqn:Hnow;
      [|by exists 0].
    destruct (lastIngested_Some _ _ Hnow) as (Ht' & [key Hk] & _).
    destruct (written_lookup (hitchingSpots st) ds key) as [Hsame|(d1 & Hd1 & _ & Hk1)].
    + rewrite lastIngested_None in Hold. rewrite Hsame in Hk. by destruct (Hold key d').
    + rewrite Hk in Hk1. injection Hk1 as ->. simpl.
      by destruct (Hnew d1 Hd1) as (_ & z & ? & ?); eauto.
Qed.




Lemma sample_points_readable :
  Forall (λ p, readable (p_datetime p)) sample_points.
Proof.
  repeat constructor; intros s [= <-]; vm_compute; eauto.
Qed.


Lemma watermark_resolution_witness :
  ((getLastIngestedRow (sample_env []) (startOf None ∅)).1 = Resolved None
   ∧ cutoffOf None = 0)
  ∧ ∃ last,
      (getLastIngestedRow (sample_env [])
         (startOf None {[ js "hitchwiki-42" := sample_doc "42" 2 "X" 1600000000 500000000 ]})).1
      = Resolved (Some last)
      ∧ cutoffOf (Some last) = 1600000000.
Proof.
  split.
  - apply (proj1 (watermark_resolution (sample_env []) (startOf None ∅) eq_refl)).
    intros key d Hk. simpl in Hk. by rewrite lookup_empty in Hk.
  - destruct (proj2 (watermark_resolution (sample_env [])
                (startOf None {[ js "hitchwiki-42" := sample_doc "42" 2 "X" 1600000000 500000000 ]})
                eq_refl)) as (last & Hrun & _ & _ & _ & Hcut).
    + exists (js "hitchwiki-42"), (sample_doc "42" 2 "X" 1600000000 500000000).
      split; [apply lookup_singleton_eq | reflexivity].
    + exists last. split; [exact Hrun|]. rewrite Hcut.
      vm_compute in Hrun. injection Hrun as <-. reflexivity.
Defined.

(** C6. A source rating of 3, 4 or 5 becomes that rating minus 2, that is
    1, 2 or 3; and since selection keeps ratings above 2 only, with source
    ratings within 1 to 5 every document a pass puts in the collection has a
    rating of 1, 2 or 3: after the pass a slot holds what it held before or
    such a document. *)
Theorem rating_rescale env st :
  (∀ points, served env = Some (Some points) →
             Forall (λ p, 1 ≤ p_rating p ≤ 5) points) →
  (∀ row st0 d st',
     formatRow env row st0 = (Resolved d, st') →
     rating row = 3 ∨ rating row = 4 ∨ rating row = 5 →
     dst_rating d = rating row - 2
     ∧ (dst_rating d = 1 ∨ dst_rating d = 2 ∨ dst_rating d = 3))
  ∧ (∀ key d,
       hitchingSpots (ingest env st).2 !! key = Some d →
       hitchingSpots st !! key = Some d
       ∨ (dst_rating d = 1 ∨ dst_rating d = 2 ∨ dst_rating d = 3)).
Proof.
  intros Hsrc. split.
  - intros row st0 d st' (point & submitted & _ & _ & -> & _)%formatRow_resolved Hr.
    simpl. lia.
  - intros key d Hk.
    destruct (ingest_pass env st) as (evs & ds & _ & Hspots & _ & Hds & _).
    rewrite Hspots in Hk.
    destruct (written_lookup (hitchingSpots st) ds key) as [Hsame|(d1 & Hd1 & _ & Hk1)].
    + left. by rewrite <- Hsame.
    + right. rewrite Hk in Hk1. injection Hk1 as <-.
      rewrite Forall_forall in Hds.
      destruct (Hds d Hd1) as (points & c & row & Hserved & _ & Hrow & Hfmt).
      destruct Hfmt as (s & s' & (? & ? & _ & _ & -> & _)%formatRow_resolved).
      apply elem_of_query in Hrow as (p & Hp & -> & Hsel).
      apply ingestible_true in Hsel as (_ & _ & Hlow & _).
      specialize (Hsrc points Hserved). rewrite Forall_forall in Hsrc.
      specialize (Hsrc p Hp). simpl. lia.
Qed.

Lemma rating_rescale_witness :
  ∃ d, hitchingSpots (ingest (sample_env sample_points) (startOf None ∅)).2
         !! js "hitchwiki-42" = Some d
       ∧ (dst_rating d = 1 ∨ dst_rating d = 2 ∨ dst_rating d = 3).
Proof.
  assert (∀ points, served (sample_env sample_points) = Some (Some points) →
                    Forall (λ p, 1 ≤ p_rating p ≤ 5) points) as Hsrc.
  { intros points [= <-]. repeat constructor; simpl; lia. }
  destruct (hitchingSpots (ingest (sample_env sample_points) (startOf None ∅)).2
              !! js "hitchwiki-42") as [d|] eqn:Hk;
    [|vm_compute in Hk; discriminate Hk].
  exists d. split; [reflexivity|].
  destruct (proj2 (rating_rescale (sample_env sample_points) (startOf None ∅) Hsrc)
              (js "hitchwiki-42") d Hk) as [Hold|Hr].
  - simpl in Hold. rewrite lookup_empty in Hold. discriminate Hold.
  - exact Hr.
Defined.

(** ** Idempotent writes *)

(** C5. The document of a source row is written under the key "hitchwiki-"
    followed by the row's id: once Firestore has accepted the write, the
    collection holds the document in that slot and is otherwise as before.
    Writing the document twice leaves the collection as writing it once
    does; and a later document of the same source id has the same key, so
    that writing it after the first replaces the first in that slot, and the
    collection has the same keys as after the first write. *)
Theorem upsert_idempotent env row st d st' :
  formatRow env row st = (Resolved d, st') →
  docId d = js "hitchwiki-" ++ id row
  ∧ (∀ st0, setDocRejects env (docId d) d = false →
       hitchingSpots (insertRows env [d] st0).2 = <[docId d := d]> (hitchingSpots st0)
       ∧ hitchingSpots (insertRows env [d] st0).2 !! docId d = Some d
       ∧ ∀ key, key ≠ docId d →
                hitchingSpots (insertRows env [d] st0).2 !! key = hitchingSpots st0 !! key)
  ∧ (∀ st0, hitchingSpots (insertRows env [d; d] st0).2
            = hitchingSpots (insertRows env [d] st0).2)
  ∧ (∀ env' row' s d' s' st0,
       formatRow env' row' s = (Resolved d', s') → id row' = id row →
       docId d' = docId d
       ∧ (setDocRejects env (docId d) d = false →
          setDocRejects env (docId d') d' = false →
          hitchingSpots (insertRows env [d; d'] st0).2
          = hitchingSpots (insertRows env [d'] st0).2
          ∧ hitchingSpots (insertRows env [d; d'] st0).2 !! docId d = Some d'
          ∧ dom (hitchingSpots (insertRows env [d; d'] st0).2)
            = dom (hitchingSpots (insertRows env [d] st0).2))).
Proof.
  intros (point & submitted & _ & _ & Hd & _)%formatRow_resolved.
  assert (docId d = js "hitchwiki-" ++ id row) as Hkey by (by subst d).
  split; [done|]. split; [|split].
  - intros st0 Hacc. unfold insertRows, bind, log, emit.
    rewrite !insertLoop_cons, Hacc. simpl. split; [done|]. split.
    + apply lookup_insert_eq.
    + intros key Hne. by rewrite lookup_insert_ne.
  - intros st0. unfold insertRows, bind, log, emit. rewrite !insertLoop_cons.
    destruct (setDocRejects env (docId d) d); simpl; [done|].
    by rewrite insert_insert_eq.
  - intros env' row' s d' s' st0 (point' & submitted' & _ & _ & Hd' & _)%formatRow_resolved Hid.
    assert (docId d' = docId d) as Hkey'.
    { rewrite Hkey, <- Hid. by subst d'. }
    split; [done|]. intros Hacc Hacc'.
    unfold insertRows, bind, log, emit. rewrite !insertLoop_cons, Hacc, Hacc'. simpl.
    rewrite Hkey'. rewrite insert_insert_eq. split; [done|]. split.
    + apply lookup_insert_eq.
    + rewrite !dom_insert_L. set_solver.
Qed.

Lemma upsert_idempotent_witness :
  let d := sample_doc "42" 2 "X" 1600000000 0 in
  docId d = js "hitchwiki-42"
  ∧ hitchingSpots (insertRows (sample_env []) [d] (startOf None ∅)).2 !! js "hitchwiki-42"
    = Some d
  ∧ hitchingSpots (insertRows (sample_env []) [d; d] (startOf None ∅)).2
    = hitchingSpots (insertRows (sample_env []) [d] (startOf None ∅)).2.
Proof.
  intros d.
  destruct (upsert_idempotent (sample_env [])
              (sample_row "42" 4 (Some "X (Hitchwiki)"%string) "2020-09-13 12:26:40")
              (startOf None ∅) d (tick (startOf None ∅)) eq_refl)
    as (Hkey & Hput & Htwice & _).
  destruct (Hput (startOf None ∅) eq_refl) as (_ & Hslot & _).
  split; [exact Hkey|]. split; [|exact (Htwice (startOf None ∅))].
  exact Hslot.
Defined.

(** ** The write budget *)

Lemma insertRows_ignores_budget env rows st :
  Forall (λ d, setDocRejects env (docId d) d = false) rows →
  (insertRows env rows st).1 = Resolved tt
  ∧ length (writesOf (console (insertRows env rows st).2))
    = (length (writesOf (console st)) + length rows)%nat.
Proof.
  intros Hall. destruct (insertRows_writes_all env rows st Hall) as (evs & -> & Hw).
  split; [done|]. simpl. rewrite writesOf_app. simpl. fold (writesOf evs).
  by rewrite length_app, Hw, length_fmap.
Qed.

(** C1, on the code. With 10001 rows, one more than [MAX_WRITES], and a
    Firestore that accepts every write, [insertRows] issues 10001 writes:
    the loop does not stop when [done] reaches [MAX_WRITES]. *)
Theorem insertRows_over_budget :
  let r := insertRows (sample_env []) many_rows (startOf None ∅) in
  Z.of_nat (length many_rows) = MAX_WRITES + 1
  ∧ r.1 = Resolved tt
  ∧ Z.of_nat (length (writesOf (console r.2))) = MAX_WRITES + 1.
Proof.
  assert (length many_rows = Z.to_nat 10001) as Hlen.
  { unfold many_rows. by rewrite length_fmap, length_seq. }
  destruct (insertRows_ignores_budget (sample_env []) many_rows (startOf None ∅))
    as [Hres Hwrites].
  { apply Forall_forall. by intros d _. }
  cbv zeta. rewrite Hres, Hwrites, Hlen.
  change (length (writesOf (console (startOf None ∅)))) with 0%nat.
  unfold MAX_WRITES. repeat split; lia.
Qed.

(** ** How a pass ends *)

Lemma elem_of_writesOf evs key d : (key, d) ∈ writesOf evs ↔ SetDoc key d ∈ evs.
Proof.
  unfold writesOf. rewrite list_elem_of_omap. split.
  - intros ([l|key' d'] & Hin & Heq); [discriminate|]. by injection Heq as -> ->.
  - intros Hin. by exists (SetDoc key d).
Qed.

(** A pass either stops before the write stage, with [ingest] rejected and
    nothing written, or reaches it, and then [ingest] resolves whatever the
    writes do: the rows are written in order up to the first one Firestore
    rejects, and the last line printed tells which of the two happened. *)
Lemma ingest_outcome env st :
  let cutoff := cutoffOf (lastIngested (hitchingSpots st)) in
  let r := ingest env st in
  (∃ e evs,
     r.1 = Rejected e
     ∧ console r.2 = console st ++ evs ∧ writesOf evs = []
     ∧ hitchingSpots r.2 = hitchingSpots st
     ∧ ((served env = None ∧ e = DownloadFailed)
        ∨ (is_Some (served env) ∧ getDocsRejects env = true ∧ e = GetDocsRejected)
        ∨ (∃ file, served env = Some file ∧ getDocsRejects env = false
                   ∧ selection env file cutoff = None ∧ e = SqliteError)
        ∨ (∃ file rows, served env = Some file ∧ getDocsRejects env = false
                        ∧ selection env file cutoff = Some rows
                        ∧ forallb (formattable env) rows = false)))
  ∨ (∃ file rows dstRows n evs l,
       served env = Some file ∧ getDocsRejects env = false
       ∧ selection env file cutoff = Some rows
       ∧ forallb (formattable env) rows = true
       ∧ Forall2 (formats env) rows dstRows
       ∧ r.1 = Resolved tt
       ∧ console r.2
         = console st ++ (stage_lines ++ [Log (GettingRowsAfter cutoff)])
             ++ (Log (InsertingRows (Z.of_nat (length dstRows))) :: evs) ++ [Log l]
       ∧ hitchingSpots r.2 = written (hitchingSpots st) (take n dstRows)
       ∧ Forall (λ d, setDocRejects env (docId d) d = false) (take n dstRows)
       ∧ ((n = length dstRows
           ∧ writesOf evs = (λ d, (docId d, d)) <$> dstRows
           ∧ l = CompletedWithoutError)
          ∨ (∃ d, dstRows !! n = Some d
                  ∧ setDocRejects env (docId d) d = true
                  ∧ writesOf evs = (λ d, (docId d, d)) <$> take (S n) dstRows
                  ∧ last evs = Some (SetDoc (docId d) d)
                  ∧ l = Failed (SetDocRejected (docId d))))).
Proof.
  intros cutoff r. subst r. rewrite ingest_run. fold cutoff.
  destruct (served env) as [file|] eqn:Hserved.
  2:{ left. exists DownloadFailed, [Log Running; Log DownloadingFile].
      repeat split. by left. }
  destruct (getDocsRejects env) eqn:Hdocs.
  { left. exists GetDocsRejected, stage_lines. repeat split. right. left. eauto. }
  cbv zeta. set (st3 := printed _ _).
  destruct (selection env file cutoff) as [rows|] eqn:Hsel.
  2:{ left. exists SqliteError, (stage_lines ++ [Log (GettingRowsAfter cutoff)]).
      repeat split. right. right. left. by exists file. }
  destruct (mapM_formatRow env rows st3)
    as (o & st4 & Hmap & Hf4 & Hs4 & Hc4 & Ho).
  rewrite Hmap. destruct o as [dstRows|e].
  2:{ left. exists e, (stage_lines ++ [Log (GettingRowsAfter cutoff)]).
      simpl. rewrite Hs4, Hc4. repeat split. right. right. right. by exists file, rows. }
  destruct Ho as [Hall Hrows]. right.
  destruct (insertRows_run env dstRows st4) as (n & evs & o & Hrun & Hev & Hacc & Ho).
  unfold try_catch, bind. rewrite Hrun.
  exists file, rows, dstRows, n, evs,
    (match o with Resolved _ => CompletedWithoutError | Rejected e => Failed e end).
  repeat split; try exact Hall; try exact Hrows; try exact Hacc; try exact Hsel.
  - by destruct o as [[]|e].
  - destruct o as [[]|e]; simpl; rewrite Hc4; simpl; by rewrite <- !app_assoc.
  - destruct o as [[]|e]; simpl; by rewrite Hs4.
  - destruct o as [[]|e].
    + left. by destruct Ho.
    + right. destruct Ho as (d & Hd & Hr & -> & Hw & Hlast). by exists d.
Qed.

Lemma writesOf_pass c n evs l :
  writesOf ((stage_lines ++ [Log (GettingRowsAfter c)])
            ++ (Log (InsertingRows n) :: evs) ++ [Log l])
  = writesOf evs.
Proof.
  rewrite !writesOf_app. simpl. fold (writesOf evs). by rewrite app_nil_r.
Qed.

Lemma last_pass c n evs l :
  last ((stage_lines ++ [Log (GettingRowsAfter c)])
        ++ (Log (InsertingRows n) :: evs) ++ [Log l])
  = Some (Log l).
Proof. by rewrite !app_assoc, last_snoc. Qed.

(** Among the writes of the loop only the last one can be a rejected one. *)
Lemma rejected_write env dstRows n key d :
  Forall (λ d, setDocRejects env (docId d) d = false) (take n dstRows) →
  setDocRejects env key d = true →
  (key, d) ∉ (λ d, (docId d, d)) <$> take n dstRows.
Proof.
  intros Hacc Hrej (d' & [= -> ->] & Hin)%list_elem_of_fmap.
  rewrite Forall_forall in Hacc. rewrite (Hacc _ Hin) in Hrej. discriminate.
Qed.

(** C8, as the code has it. The script sets no exit code.  A rejected
    upsert stops the write loop (it is the last write issued), is printed as
    a failure and swallowed, so that [ingest] resolves and the process exits
    with code 0, as it does after a pass that wrote every selected row or
    had none to write.  A failure of the download, of the watermark query,
    of the selection or of the transform rejects [ingest] before any write;
    the exit code is then the one the runtime gives an unhandled
    rejection. *)
Theorem ingest_exit env file spots u :
  let r := ingest env (startOf file spots) in
  let cutoff := cutoffOf (lastIngested spots) in
  (∀ key d, SetDoc key d ∈ console r.2 → setDocRejects env key d = true →
            r.1 = Resolved tt ∧ exitCode u r.1 = 0
            ∧ last (writesOf (console r.2)) = Some (key, d)
            ∧ last (console r.2) = Some (Log (Failed (SetDocRejected key))))
  ∧ (∀ points (c : Z), served env = Some (Some points) → getDocsRejects env = false →
               cutoff = c →
               forallb (formattable env) (query env points c) = true →
               r.1 = Resolved tt ∧ exitCode u r.1 = 0
               ∧ ((∀ key d, SetDoc key d ∈ console r.2 → setDocRejects env key d = false) →
                  last (console r.2) = Some (Log CompletedWithoutError)))
  ∧ (served env = None → r.1 = Rejected DownloadFailed)
  ∧ (is_Some (served env) → getDocsRejects env = true → r.1 = Rejected GetDocsRejected)
  ∧ (served env = Some None → getDocsRejects env = false → r.1 = Rejected SqliteError)
  ∧ (is_Some (served env) → getDocsRejects env = false → cutoff = NaN →
     r.1 = Rejected SqliteError)
  ∧ (∀ points (c : Z), served env = Some (Some points) → getDocsRejects env = false →
               cutoff = c →
               forallb (formattable env) (query env points c) = false →
               ∃ e, r.1 = Rejected e)
  ∧ (∀ e, r.1 = Rejected e →
          exitCode u r.1 = u ∧ writesOf (console r.2) = [] ∧ hitchingSpots r.2 = spots).
Proof.
  intros r cutoff.
  destruct (ingest_outcome env (startOf file spots)) as
    [(e & evs & Hout & Hcon & Hw & Hspots & Hstage)
    |(file' & rows & dstRows & n & evs & l & Hserved & Hdocs & Hsel & Hall & Hrows & Hout
      & Hcon & Hspots & Hacc & Hend)];
    fold r in Hout, Hcon, Hspots;
    change (hitchingSpots (startOf file spots)) with spots in *;
    change (console (startOf file spots)) with (@nil Event) in *;
    rewrite app_nil_l in Hcon; fold cutoff in Hcon;
    try fold cutoff in Hstage; try fold cutoff in Hsel.
  - (* the pass stopped before the write stage *)
    split; [|split; [|split; [|split; [|split; [|split; [|split]]]]]].
    + intros key d Hin _. rewrite Hcon in Hin.
      apply elem_of_writesOf in Hin. rewrite Hw in Hin. by apply elem_of_nil in Hin.
    + intros points c Hserved Hdocs Hcut Hall. exfalso.
      destruct Hstage as [[Hs _]|[(_ & Hd & _)|[(f & Hs & _ & Hsel & _)
                                               |(f & rows & Hs & _ & Hsel & Hbad)]]];
        [congruence..| |].
      * rewrite Hserved in Hs. injection Hs as <-. by rewrite Hcut in Hsel.
      * rewrite Hserved in Hs. injection Hs as <-. rewrite Hcut in Hsel.
        injection Hsel as <-. congruence.
    + intros Hserved.
      destruct Hstage as [[_ ->]|[([? Hs] & _)|[(f & Hs & _)|(f & rows & Hs & _)]]];
        [done|congruence..].
    + intros Hsome Hdocs.
      destruct Hstage as [[Hs _]|[(_ & _ & ->)|[(f & _ & Hd & _)|(f & rows & _ & Hd & _)]]];
        [|done|congruence..].
      rewrite Hs in Hsome. by destruct Hsome.
    + intros Hserved Hdocs.
      destruct Hstage as [[Hs _]|[(_ & Hd & _)|[(f & _ & _ & _ & ->)
                                               |(f & rows & Hs & _ & Hsel & _)]]];
        [congruence..|done|].
      rewrite Hserved in Hs. injection Hs as <-. done.
    + intros Hsome Hdocs Hnan.
      destruct Hstage as [[Hs _]|[(_ & Hd & _)|[(f & _ & _ & _ & ->)
                                               |(f & rows & Hs & _ & Hsel & _)]]];
        [|congruence|done|].
      * rewrite Hs in Hsome. by destruct Hsome.
      * rewrite Hnan in Hsel. by destruct f.
    + intros _ _ _ _ _ _. by exists e.
    + intros e' _. rewrite Hout, Hcon, Hw. done.
  - (* the pass reached the write stage *)
    assert (exitCode u r.1 = 0) as Hexit by (by rewrite Hout).
    split; [|split; [|split; [|split; [|split; [|split; [|split]]]]]].
    + intros key d Hin Hrej. rewrite Hcon in Hin |- *.
      apply elem_of_writesOf in Hin. rewrite writesOf_pass in Hin.
      rewrite writesOf_pass, last_pass.
      destruct Hend as [(-> & Hw & ->)|(d0 & Hd0 & Hr0 & Hw & _ & ->)].
      * exfalso. rewrite Hw in Hin. rewrite firstn_all in Hacc.
        apply (rejected_write env dstRows (length dstRows) key d); [|done|].
        -- by rewrite firstn_all.
        -- by rewrite firstn_all.
      * rewrite Hw in Hin |- *. rewrite (take_S_r _ _ _ Hd0), fmap_app in Hin |- *.
        apply elem_of_app in Hin as [Hin|Hin].
        -- by destruct (rejected_write env dstRows n key d Hacc Hrej).
        -- apply list_elem_of_singleton in Hin. injection Hin as -> ->.
           by rewrite last_app.
    + intros points' c _ _ _ _. repeat split; [done..|]. intros Hnone.
      rewrite Hcon, last_pass.
      destruct Hend as [(_ & _ & ->)|(d0 & Hd0 & Hr0 & Hw & Hlast & _)]; [done|].
      exfalso. rewrite (Hnone (docId d0) d0) in Hr0; [discriminate|].
      rewrite Hcon. apply elem_of_writesOf. rewrite writesOf_pass, Hw.
      rewrite (take_S_r _ _ _ Hd0), fmap_app. apply elem_of_app. right. by left.
    + congruence.
    + congruence.
    + intros Hs _. rewrite Hserved in Hs. injection Hs as ->. done.
    + intros _ _ Hnan. rewrite Hnan in Hsel. by destruct file'.
    + intros points' c Hs _ Hcut Hbad. rewrite Hserved in Hs. injection Hs as ->.
      rewrite Hcut in Hsel. injection Hsel as <-. congruence.
    + intros e He. rewrite Hout in He. discriminate.
Qed.

(** C8 as stated fails: with three rows selected and a Firestore that
    rejects the second of them, the failed upsert is the last of the two
    writes issued, the failure is printed, and [ingest] resolves, so that the
    process exits with code 0 even where unhandled rejections exit with 1. *)
Lemma failed_upsert_exits_zero :
  let env := rejecting_env sample_points in
  let r := ingest env (startOf None ∅) in
  ∃ d, SetDoc (js "hitchwiki-42") d ∈ console r.2
       ∧ setDocRejects env (js "hitchwiki-42") d = true
       ∧ length (query env sample_points 0) = 3%nat
       ∧ length (writesOf (console r.2)) = 2%nat
       ∧ last (console r.2) = Some (Log (Failed (SetDocRejected (js "hitchwiki-42"))))
       ∧ exitCode 1 r.1 = 0.
Proof.
  eexists. split; [|repeat split].
  - apply (list_elem_of_lookup_2 _ 9). vm_compute. reflexivity.
Qed.

(** ** The cutoff is a whole second *)





(** * Further properties of the script *)

(** ** [formatRow] *)

Lemma GeoPoint_new_is_Some lat lon :
  is_Some (GeoPoint_new lat lon)
  ↔ (-90 <= lat ∧ lat <= 90 ∧ -180 <= lon ∧ lon <= 180)%Q.
Proof.
  unfold GeoPoint_new. rewrite <- !Qle_bool_iff.
  destruct (Qle_bool (-90) lat), (Qle_bool lat 90), (Qle_bool (-180) lon),
    (Qle_bool lon 180); simpl; split;
    first [by intros [? [=]] | by intros (? & ? & ? & ?) | by eauto].
Qed.

Lemma fromMillis_is_Some (ms : Z) :
  is_Some (Timestamp_fromMillis ms) ↔ MIN_SECONDS * 1000 ≤ ms < MAX_SECONDS * 1000.
Proof.
  split.
  - intros [t (_ & _ & Hr)%fromMillis_Some].
    pose proof (Z.div_mod ms 1000 ltac:(lia)).
    pose proof (Z.mod_pos_bound ms 1000 ltac:(lia)). lia.
  - intros Hr. rewrite (fromMillis_in_range ms Hr). eauto.
Qed.

(** X1. [formatRow] throws on a location outside [-90, 90] x [-180, 180]
    before it looks at the date.  Otherwise it throws on a date that [Date]
    holds but that is outside the years 0001 to 9999, in both cases without
    reading the clock; on a date in these years it returns after one clock
    read a document stamped with that date; and on a date that [Date] does
    not hold it does not throw either: the document it returns carries the
    timestamp of [NaN] seconds and [NaN] nanoseconds. *)
Theorem formatRow_errors env row st :
  let geo_ok := (-90 <= lat row ∧ lat row <= 90 ∧ -180 <= lon row ∧ lon row <= 180)%Q in
  (¬ geo_ok →
   formatRow env row st = (Rejected (InvalidGeoPoint (lat row) (lon row)), st))
  ∧ (geo_ok → ∀ ms : Z, Date_new env (datetime row) = ms →
       ¬ MIN_SECONDS * 1000 ≤ ms < MAX_SECONDS * 1000 →
       formatRow env row st = (Rejected (InvalidTimestamp (datetime row)), st))
  ∧ (geo_ok → ∀ ms : Z, Date_new env (datetime row) = ms →
       MIN_SECONDS * 1000 ≤ ms < MAX_SECONDS * 1000 →
       ∃ d, formatRow env row st = (Resolved d, tick st)
            ∧ submittedTimestamp d
              = {| seconds := ms / 1000; nanoseconds := (ms - ms / 1000 * 1000) * 1000000 |})
  ∧ (geo_ok → Date_new env (datetime row) = NaN →
     ∃ d, formatRow env row st = (Resolved d, tick st)
          ∧ submittedTimestamp d = {| seconds := NaN; nanoseconds := NaN |}).
Proof.
  intros geo_ok. subst geo_ok. rewrite <- GeoPoint_new_is_Some.
  unfold formatRow, bind, orThrow, Timestamp_now, ret, throw.
  destruct (GeoPoint_new _ _) as [point|].
  - split; [by intros []; eauto|]. split; [|split].
    + intros _ ms -> Hms. rewrite <- fromMillis_is_Some in Hms.
      destruct (Timestamp_fromMillis ms); [by destruct Hms; eauto|done].
    + intros _ ms -> Hms. rewrite (fromMillis_in_range ms Hms). eauto.
    + intros _ ->. rewrite fromMillis_NaN. eauto.
  - split; [done|]. repeat split; intros; exfalso;
      match goal with H : is_Some None |- _ => by destruct H end.
Qed.

Lemma formatRow_errors_witness :
  ∃ d, formatRow (sample_env [])
         {| id := js "1"; lat := 10; lon := 20; rating := 4; name := None;
            datetime := SqlText (js "yesterday") |} (startOf None ∅)
       = (Resolved d, tick (startOf None ∅))
       ∧ submittedTimestamp d = {| seconds := NaN; nanoseconds := NaN |}.
Proof.
  refine (proj2 (proj2 (proj2 (formatRow_errors (sample_env [])
            {| id := js "1"; lat := 10; lon := 20; rating := 4; name := None;
               datetime := SqlText (js "yesterday") |} (startOf None ∅)))) _ _).
  - vm_compute. repeat split; discriminate.
  - reflexivity.
Defined.

Lemma number2_pad2 n : 0 ≤ n < 100 → number2 (digit (n / 10)) (digit (n mod 10)) = Some n.
Proof.
  intros Hn. unfold number2, digitOf, digit.
  assert (0 ≤ n / 10 ≤ 9 ∧ 0 ≤ n mod 10 ≤ 9 ∧ 10 * (n / 10) + n mod 10 = n)
    as (H1 & H2 & H3) by (Z.to_euclidean_division_equations; lia).
  replace ((48 <=? Z.to_N (48 + n / 10))%N && (Z.to_N (48 + n / 10) <=? 57)%N) with true
    by (symmetry; apply andb_true_iff; split; apply N.leb_le; lia).
  replace ((48 <=? Z.to_N (48 + n mod 10))%N && (Z.to_N (48 + n mod 10) <=? 57)%N) with true
    by (symmetry; apply andb_true_iff; split; apply N.leb_le; lia).
  cbn [mbind option_bind]. f_equal. lia.
Qed.

(** [Date] reads back the texts [DATETIME] writes, from the year 0100 on. *)
Lemma parseDateTime_format f :
  validDateTime f = true → 100 ≤ year f →
  parseDateTime (formatDateTime f) = Some (f, 0).
Proof.
  intros Hf Hy. pose proof Hf as Hv. rewrite validDateTime_true in Hv.
  destruct Hv as (Hyr & Hm & Hd & Hh & Hi & Hs).
  pose proof (DaysInMonth_le (year f) (month f) Hm).
  unfold formatDateTime, pad4, pad2.
  change (js "-") with [45%N]. change (js " ") with [32%N]. change (js ":") with [58%N].
  cbn [app parseDateTime N.eqb Pos.eqb andb].
  rewrite !number2_pad2 by (Z.to_euclidean_division_equations; lia).
  cbn [mbind option_bind fractionOf].
  replace (100 * (year f / 100) + year f mod 100) with (year f)
    by (Z.to_euclidean_division_equations; lia).
  destruct f as [y m d h i sec]. cbn [year month day hour minute second] in *.
  rewrite Hf. replace (100 <=? y) with true by (symmetry; apply Z.leb_le; lia). done.
Qed.

(** X2. The [submittedTimestamp] of a document is the date and time of its
    row read as local time: for a date string [YYYY-MM-DD HH:MM:SS] with or
    without a fraction, it is the instant that date and time is in UTC, to
    the millisecond, moved back by what the time zone of the process is
    ahead of UTC.  So a date written by [DATETIME] for the instant [t] is
    stored at [t] by a process in UTC, and elsewhere at [t] less the
    offset. *)
Theorem submitted_is_local_time env row st d st' s f ms :
  (∀ t, -86400000 ≤ LocalTZA env t ≤ 86400000) →
  datetime row = SqlText s → parseDateTime s = Some (f, ms) →
  formatRow env row st = (Resolved d, st') →
  let local := secondsOf f * 1000 + ms in
  let utc := local - LocalTZA env local in
  seconds (submittedTimestamp d) = utc / 1000
  ∧ nanoseconds (submittedTimestamp d) = utc mod 1000 * 1000000
  ∧ (∀ t, DATETIME_MIN ≤ t < DATETIME_MAX → s = formatDateTime (dateTimeOf t) →
          local = t * 1000
          ∧ (LocalTZA env local = 0 →
             submittedTimestamp d = {| seconds := t; nanoseconds := 0 |})).
Proof.
  intros Hzone Hs Hparse (point & submitted & _ & Hsub & -> & _)%formatRow_resolved local utc.
  cbn [submittedTimestamp].
  rewrite Hs, (Date_new_text env s f ms Hparse Hzone) in Hsub. fold local utc in Hsub.
  apply fromMillis_Some in Hsub as (Hsec & Hnano & _).
  split; [done|]. split; [done|]. intros t Ht ->.
  destruct (dateTimeOf_spec t Ht) as [Hv He].
  assert (f = dateTimeOf t ∧ ms = 0) as [-> ->].
  { pose proof (parseDateTime_Some _ _ _ Hparse) as (Hf & Hy & rest & Heq & Hfrac).
    assert (length rest = 0%nat) as Hlen.
    { apply (f_equal length) in Heq. rewrite length_app in Heq.
      assert (∀ g, length (formatDateTime g) = 19%nat) as Hl by done.
      rewrite !Hl in Heq. lia. }
    destruct rest; [|done]. rewrite app_nil_r in Heq. injection Hfrac as <-.
    split; [|done].
    destruct (DateTime_lt_trichotomy f (dateTimeOf t)) as [H|[H|H]]; [|done|].
    - pose proof (proj2 (formatDateTime_ltb f (dateTimeOf t) [] [] Hf Hv) (or_introl H)) as Hlt.
      rewrite !app_nil_r, <- Heq in Hlt.
      by rewrite (lex_ltb_asym _ _ Hlt) in Hlt.
    - pose proof (proj2 (formatDateTime_ltb (dateTimeOf t) f [] [] Hv Hf) (or_introl H)) as Hlt.
      rewrite !app_nil_r, <- Heq in Hlt.
      by rewrite (lex_ltb_asym _ _ Hlt) in Hlt. }
  subst local. rewrite He. split; [lia|]. intros Hutc.
  destruct submitted as [sec nano]. cbn [seconds nanoseconds] in *. subst utc.
  rewrite He, Hutc in Hsec, Hnano. subst sec nano. f_equal; f_equal.
  - rewrite Z.add_0_r, Z.sub_0_r. by rewrite Z.div_mul.
  - rewrite Z.add_0_r, Z.sub_0_r. by rewrite Z.mod_mul.
Qed.

Lemma submitted_is_local_time_witness :
  Integer 1600000000 = (1600000000000 - 0) / 1000
  ∧ Integer 0 = (1600000000000 - 0) mod 1000 * 1000000.
Proof.
  destruct (submitted_is_local_time (sample_env [])
              (sample_row "42" 4 (Some "X"%string) "2020-09-13 12:26:40")
              (startOf None ∅) (sample_doc "42" 2 "X" 1600000000 0)
              (tick (startOf None ∅)) (js "2020-09-13 12:26:40")
              (dateTimeOf 1600000000) 0) as (Hs & Hn & _).
  - intros t. simpl. lia.
  - reflexivity.
  - vm_compute. reflexivity.
  - reflexivity.
  - split; [exact Hs | exact Hn].
Defined.

Lemma formats_docId env row d : formats env row d → docId d = js "hitchwiki-" ++ id row.
Proof. intros (s & s' & (? & ? & _ & _ & -> & _)%formatRow_resolved). done. Qed.

Lemma formats_hitchwiki env row d : formats env row d → source_type d = HITCHWIKI.
Proof. intros (s & s' & (? & ? & _ & _ & -> & _)%formatRow_resolved). done. Qed.

(** X3. Two source rows share a document slot exactly when they have the same
    id: rows of different ids never overwrite each other, whatever else they
    hold and whenever they are transformed. *)
Theorem slot_per_source_id env1 env2 row1 row2 st1 st2 d1 d2 st1' st2' :
  formatRow env1 row1 st1 = (Resolved d1, st1') →
  formatRow env2 row2 st2 = (Resolved d2, st2') →
  docId d1 = docId d2 ↔ id row1 = id row2.
Proof.
  intros H1 H2.
  rewrite (formats_docId env1 row1 d1), (formats_docId env2 row2 d2) by (by eexists _, _).
  split; [|by intros ->]. apply app_inv_head.
Qed.

Lemma slot_per_source_id_witness :
  docId (sample_doc "42" 2 "X" 1600000000 500000000)
  = docId (sample_doc "43" 1 "Y" 1600000000 700000000)
  ↔ js "42" = js "43".
Proof.
  exact (slot_per_source_id (sample_env []) (sample_env [])
           (sample_row "42" 4 (Some "X"%string) "2020-09-13 12:26:40.500")
           (sample_row "43" 3 (Some "Y"%string) "2020-09-13 12:26:40.700")
           (startOf None ∅) (startOf None ∅)
           (sample_doc "42" 2 "X" 1600000000 500000000)
           (sample_doc "43" 1 "Y" 1600000000 700000000)
           (tick (startOf None ∅)) (tick (startOf None ∅)) eq_refl eq_refl).
Defined.

(** ** [srcRows.map(formatRow)] *)

(** X4. The transformed rows come in the order of the source rows, one document
    per row, and each document carries a clock reading of its own: the i-th
    one is stamped with the i-th reading after those made before the map. *)
Theorem formatted_in_order env rows st ds st' :
  mapM (formatRow env) rows st = (Resolved ds, st') →
  length ds = length rows
  ∧ clockReads st' = (clockReads st + length rows)%nat
  ∧ ∀ i row, rows !! i = Some row →
      ∃ d, ds !! i = Some d
           ∧ source_id d = id row
           ∧ Timestamp_fromMillis (Date_new env (datetime row)) = Some (submittedTimestamp d)
           ∧ source_ingestedTimestamp d = clock env (clockReads st + i).
Proof.
  revert st ds st'. induction rows as [|row rows IH]; intros st ds st'; simpl.
  - intros [= <- <-]. repeat split; [simpl; lia|]. intros i row. by rewrite lookup_nil.
  - unfold bind at 1. destruct (formatRow env row st) as [[d|e] st1] eqn:Hrow; [|done].
    unfold bind at 1. destruct (mapM (formatRow env) rows st1) as [[ds1|e] st2] eqn:Hrest; [|done].
    intros [= <- <-].
    apply formatRow_resolved in Hrow as (point & submitted & _ & Hsub & -> & ->).
    destruct (IH _ _ _ Hrest) as (Hlen & Hclock & Hi). simpl in Hclock.
    split; [simpl; lia|]. split; [lia|].
    intros [|i] row'; simpl.
    + intros [= <-]. eexists. split; [done|]. simpl. rewrite Nat.add_0_r. done.
    + intros Hrow'. destruct (Hi i row' Hrow') as (d & Hd & Hid & Hts & Hclk).
      exists d. repeat split; [done..|]. rewrite Hclk. simpl. f_equal. lia.
Qed.

Lemma formatted_in_order_witness :
  ∃ d, [sample_doc "42" 2 "X" 1600000000 500000000] !! 0%nat = Some d
       ∧ source_id d = js "42"
       ∧ Timestamp_fromMillis
           (Date_new (sample_env []) (SqlText (js "2020-09-13 12:26:40.500")))
         = Some (submittedTimestamp d)
       ∧ source_ingestedTimestamp d = clock (sample_env []) 0.
Proof.
  exact (proj2 (proj2 (formatted_in_order (sample_env [])
           [sample_row "42" 4 (Some "X"%string) "2020-09-13 12:26:40.500"] (startOf None ∅)
           [sample_doc "42" 2 "X" 1600000000 500000000]
           (tick (startOf None ∅)) eq_refl)) 0%nat
           (sample_row "42" 4 (Some "X"%string) "2020-09-13 12:26:40.500") eq_refl).
Defined.

(** ** [insertRows] *)

(** X5. When Firestore rejects a row, [insertRows] rejects with that error: the
    rows before it are in the collection, the rejected row and the rows
    after it are not, and no write is issued after the rejected one. *)
Theorem insertRows_stops_at_rejection env before d after st :
  Forall (λ d, setDocRejects env (docId d) d = false) before →
  setDocRejects env (docId d) d = true →
  let r := insertRows env (before ++ d :: after) st in
  r.1 = Rejected (SetDocRejected (docId d))
  ∧ hitchingSpots r.2 = written (hitchingSpots st) before
  ∧ writesOf (console r.2)
    = writesOf (console st) ++ ((λ d, (docId d, d)) <$> before ++ [d])
  ∧ last (console r.2) = Some (SetDoc (docId d) d).
Proof.
  intros Hbefore Hrej r. subst r.
  destruct (insertRows_run env (before ++ d :: after) st)
    as (n & evs & o & Hrun & _ & Hacc & Ho).
  rewrite Hrun. simpl.
  assert (n = length before ∧ o = Rejected (SetDocRejected (docId d))
          ∧ writesOf evs = (λ d, (docId d, d)) <$> before ++ [d]
          ∧ last evs = Some (SetDoc (docId d) d)) as (-> & -> & Hw & Hlast).
  { rewrite Forall_forall in Hbefore, Hacc.
    destruct (Nat.lt_trichotomy n (length before)) as [Hlt|[->|Hgt]].
    - (* the loop cannot stop inside the accepted rows *)
      exfalso. destruct o as [[]|e].
      + destruct Ho as [-> _]. rewrite length_app in Hlt. lia.
      + destruct Ho as (d0 & Hd0 & Hr0 & _).
        rewrite lookup_app_l in Hd0 by done.
        apply list_elem_of_lookup_2 in Hd0. rewrite (Hbefore _ Hd0) in Hr0. discriminate.
    - destruct o as [[]|e].
      + destruct Ho as [Hlen _]. rewrite length_app in Hlen. simpl in Hlen. lia.
      + destruct Ho as (d0 & Hd0 & _ & -> & Hw & Hlast).
        rewrite list_lookup_middle in Hd0 by done. injection Hd0 as <-.
        repeat split; [|done]. rewrite Hw.
        rewrite (take_S_r _ _ d) by (by rewrite list_lookup_middle).
        by rewrite take_app_length.
    - (* nor go past the rejected row *)
      exfalso. assert (d ∈ take n (before ++ d :: after)) as Hin.
      { apply elem_of_take. exists (length before).
        split; [by rewrite list_lookup_middle | done]. }
      rewrite (Hacc _ Hin) in Hrej. discriminate. }
  repeat split.
  - by rewrite take_app_length.
  - rewrite writesOf_app. simpl. fold (writesOf evs). by rewrite Hw.
  - by rewrite last_app, last_cons, Hlast.
Qed.

Lemma insertRows_stops_at_rejection_witness :
  let env := rejecting_env [] in
  let r := insertRows env
             [sample_doc "7" 3 "" 1500000000 0;
              sample_doc "42" 2 "X" 1600000000 500000000;
              sample_doc "9" 1 "Y" 1660000000 0] (startOf None ∅) in
  r.1 = Rejected (SetDocRejected (js "hitchwiki-42"))
  ∧ hitchingSpots r.2 = written ∅ [sample_doc "7" 3 "" 1500000000 0].
Proof.
  destruct (insertRows_stops_at_rejection (rejecting_env [])
              [sample_doc "7" 3 "" 1500000000 0]
              (sample_doc "42" 2 "X" 1600000000 500000000)
              [sample_doc "9" 1 "Y" 1660000000 0] (startOf None ∅))
    as (Hout & Hspots & _).
  - by repeat constructor.
  - reflexivity.
  - split; [exact Hout | exact Hspots].
Defined.

Lemma quotaLinesOf_app a b : quotaLinesOf (a ++ b) = (quotaLinesOf a + quotaLinesOf b)%nat.
Proof. unfold quotaLinesOf. by rewrite omap_app, length_app. Qed.

Lemma insertLoop_quota env total rows done st :
  Forall (λ d, setDocRejects env (docId d) d = false) rows →
  Z.of_nat (quotaLinesOf (console (insertLoop env total rows done st).2))
  = Z.of_nat (quotaLinesOf (console st))
    + Z.max 0 (Z.min (Z.of_nat (length rows))
                 (done + Z.of_nat (length rows) - MAX_WRITES + 1)).
Proof.
  revert done st. induction rows as [|row rest IH]; intros done st Hacc.
  - simpl. lia.
  - apply Forall_cons in Hacc as [Hrow Hrest].
    rewrite insertLoop_cons, Hrow, (IH _ _ Hrest).
    cbn [console printed stored]. rewrite quotaLinesOf_app.
    change (length (row :: rest)) with (S (length rest)).
    destruct (MAX_WRITES <=? done + 1) eqn:Hq;
      [apply Z.leb_le in Hq | apply Z.leb_gt in Hq];
      cbn [quotaLinesOf omap list_omap length]; lia.
Qed.

(** X6. [MAX_WRITES] only decides what is printed.  When Firestore accepts
    every row, the quota line is printed once after each write from the
    [MAX_WRITES]-th on, that is [length rows - MAX_WRITES + 1] times, and
    never for fewer than [MAX_WRITES] rows; all rows are written either
    way. *)
Theorem quota_lines env rows st :
  Forall (λ d, setDocRejects env (docId d) d = false) rows →
  let r := insertRows env rows st in
  Z.of_nat (quotaLinesOf (console r.2))
  = Z.of_nat (quotaLinesOf (console st))
    + Z.max 0 (Z.of_nat (length rows) - MAX_WRITES + 1)
  ∧ hitchingSpots r.2 = written (hitchingSpots st) rows.
Proof.
  intros Hacc r. subst r. split.
  - unfold insertRows, bind, log, emit. rewrite (insertLoop_quota _ _ _ _ _ Hacc).
    cbn [console printed]. rewrite quotaLinesOf_app.
    cbn [quotaLinesOf omap list_omap length]. unfold MAX_WRITES. lia.
  - by destruct (insertRows_writes_all env rows st Hacc) as (evs & -> & _).
Qed.

Lemma quota_lines_witness :
  let r := insertRows (sample_env []) [sample_doc "7" 3 "" 1500000000 0] (startOf None ∅) in
  Z.of_nat (quotaLinesOf (console r.2)) = 0 + Z.max 0 (1 - MAX_WRITES + 1)
  ∧ hitchingSpots r.2 = written ∅ [sample_doc "7" 3 "" 1500000000 0].
Proof.
  refine (quota_lines (sample_env []) [sample_doc "7" 3 "" 1500000000 0]
            (startOf None ∅) _).
  by repeat constructor.
Defined.

(** ** What a pass persists *)

Lemma sql_le_refl v : sql_le v v.
Proof. by destruct (sql_leb_total v v). Qed.

Lemma selectedRows_cases env points spots :
  (selectedRows env points spots = [] ∧ cutoffOf (lastIngested spots) = NaN)
  ∨ ∃ c : Z, cutoffOf (lastIngested spots) = c
             ∧ selectedRows env points spots = query env points c.
Proof.
  unfold selectedRows, selection. destruct (cutoffOf _) as [|c]; [by left|].
  right. by exists c.
Qed.

Lemma selection_selectedRows env points spots rows :
  selection env (Some points) (cutoffOf (lastIngested spots)) = Some rows →
  selectedRows env points spots = rows.
Proof. unfold selectedRows. by intros ->. Qed.

(** The selection is in ascending order of [datetime], position by
    position. *)
Lemma query_lookup_le env points spots i j ri rj :
  selectedRows env points spots !! i = Some ri →
  selectedRows env points spots !! j = Some rj →
  (i ≤ j)%nat → sql_le (datetime ri) (datetime rj).
Proof.
  intros Hi Hj Hij. destruct (decide (i = j)) as [->|Hne].
  - rewrite Hi in Hj. injection Hj as <-. apply sql_le_refl.
  - destruct (selectedRows_cases env points spots) as [[Hnil _]|(c & _ & Hq)].
    { by rewrite Hnil, lookup_nil in Hi. }
    rewrite Hq in Hi, Hj.
    apply (StronglySorted_lookup_lt (λ a b, sql_le (datetime a) (datetime b))
             (query env points c) i j); [|done..|lia].
    apply Sorted_StronglySorted; [apply _ | apply query_Sorted].
Qed.

Lemma filter_accepted env ds :
  Forall (λ d, setDocRejects env (docId d) d = false) ds →
  filter (λ w, setDocRejects env w.1 w.2 = false) ((λ d, (docId d, d)) <$> ds)
  = (λ d, (docId d, d)) <$> ds.
Proof.
  induction 1 as [|d ds Hd _ IH]; [done|].
  rewrite fmap_cons, filter_cons_True by done. by rewrite IH.
Qed.

(** The documents Firestore accepted during a pass are made of the first
    selected rows, one per row in order, and they are what the pass has put
    in the collection. *)
Lemma pass_written env file spots points :
  served env = Some (Some points) →
  let r := ingest env (startOf file spots) in
  let rows := selectedRows env points spots in
  ∃ ds,
    Forall2 (formats env) (take (length ds) rows) ds
    ∧ (length ds ≤ length rows)%nat
    ∧ acceptedWrites env (console r.2) = (λ d, (docId d, d)) <$> ds
    ∧ hitchingSpots r.2 = written spots ds.
Proof.
  intros Hserved r rows.
  destruct (ingest_outcome env (startOf file spots)) as
    [(e & evs & _ & Hcon & Hw & Hspots & _)
    |(file' & rows' & dstRows & n & evs & l & Hserved' & _ & Hsel & _ & Hrows & _ & Hcon
      & Hspots & Hacc & Hend)];
    fold r in Hcon, Hspots;
    change (hitchingSpots (startOf file spots)) with spots in *;
    change (console (startOf file spots)) with (@nil Event) in *;
    rewrite app_nil_l in Hcon.
  - exists []. repeat split; [constructor | simpl; lia | | done].
    unfold acceptedWrites. by rewrite Hcon, Hw.
  - rewrite Hserved in Hserved'. injection Hserved' as <-.
    apply selection_selectedRows in Hsel. fold rows in Hsel. subst rows'.
    pose proof (Forall2_length _ _ _ Hrows) as Hlen.
    assert (n ≤ length dstRows)%nat as Hn.
    { destruct Hend as [(-> & _)|(d0 & Hd0 & _)]; [done|].
      apply lookup_lt_Some in Hd0. lia. }
    exists (take n dstRows). rewrite length_take_le by done.
    repeat split; [by apply Forall2_take | lia | | done].
    unfold acceptedWrites. rewrite Hcon, writesOf_pass.
    destruct Hend as [(-> & -> & _)|(d0 & Hd0 & Hr0 & -> & _)].
    + rewrite firstn_all in Hacc |- *. by apply filter_accepted.
    + rewrite (take_S_r _ _ _ Hd0), fmap_app, filter_app, (filter_accepted _ _ Hacc).
      simpl. rewrite filter_cons_False, filter_nil, app_nil_r; [done|].
      simpl. by rewrite Hr0.
Qed.

(** X7. No gap. The documents a pass has put in the collection are those of
    the first selected rows, as many as Firestore accepted, and every one of
    these rows comes no later in the order of [datetime] than any selected
    row the pass has not written, whether the pass ended by a rejected write
    or not. *)
Theorem pass_writes_prefix env file spots points :
  served env = Some (Some points) →
  let r := ingest env (startOf file spots) in
  let rows := selectedRows env points spots in
  let done := length (acceptedWrites env (console r.2)) in
  (done ≤ length rows)%nat
  ∧ (∃ ds, Forall2 (formats env) (take done rows) ds
           ∧ acceptedWrites env (console r.2) = (λ d, (docId d, d)) <$> ds
           ∧ hitchingSpots r.2 = written spots ds)
  ∧ ∀ i j ri rj, rows !! i = Some ri → rows !! j = Some rj →
                 (i < done ≤ j)%nat → sql_le (datetime ri) (datetime rj).
Proof.
  intros Hserved r rows done.
  destruct (pass_written env file spots points Hserved) as (ds & Hrows & Hlen & Hacc & Hspots).
  fold r in Hacc, Hspots. fold rows in Hrows, Hlen.
  assert (done = length ds) as Hdone by (subst done; by rewrite Hacc, length_fmap).
  rewrite Hdone. split; [done|]. split; [by exists ds|].
  intros i j ri rj Hi Hj Hij.
  apply (query_lookup_le env points spots i j); [done..|lia].
Qed.

Lemma pass_writes_prefix_witness :
  (length (acceptedWrites (rejecting_env sample_points)
             (console (ingest (rejecting_env sample_points) (startOf None ∅)).2))
   ≤ length (selectedRows (rejecting_env sample_points) sample_points ∅))%nat
  ∧ sql_le (SqlText (js "2017-07-14 02:40:00")) (SqlText (js "2020-09-13 12:26:40.500")).
Proof.
  destruct (pass_writes_prefix (rejecting_env sample_points) None ∅ sample_points eq_refl)
    as (Hlen & _ & Hgap).
  split; [exact Hlen|].
  refine (Hgap 0%nat 1%nat (selected (sample_point "7" 5 None "2017-07-14 02:40:00"))
            (selected (sample_point "42" 4 (Some "X (Hitchwiki)"%string) "2020-09-13 12:26:40.500"))
            _ _ _).
  - vm_compute. reflexivity.
  - vm_compute. reflexivity.
  - vm_compute. lia.
Defined.

(** ** The next pass, in UTC *)

(** What is above the text of a cutoff is above the text of every earlier
    cutoff. *)
Lemma sql_gt_DATETIME_mono env c1 c2 v :
  DATETIME_MIN ≤ c1 → c1 ≤ c2 → c2 < DATETIME_MAX →
  sql_gt v (DATETIME env c2) = true → sql_gt v (DATETIME env c1) = true.
Proof.
  intros H1 H12 H2.
  rewrite !DATETIME_text by lia. rewrite !sql_gt_text.
  intros (s & -> & Hgt). exists s. split; [done|].
  destruct (text_ltb (formatDateTime (dateTimeOf c1)) s) eqn:Hle; [done|]. exfalso.
  assert (text_ltb (formatDateTime (dateTimeOf c2)) (formatDateTime (dateTimeOf c1)) = false)
    as Hcut.
  { apply not_true_iff_false. rewrite text_ltb_DATETIME by lia. lia. }
  unfold text_ltb in *.
  rewrite (lex_leb_trans _ _ _ Hle Hcut) in Hgt. discriminate.
Qed.

Lemma lex_ltb_eq a b : lex_ltb a b = false → lex_ltb b a = false → a = b.
Proof.
  revert b. induction a as [|x a IH]; intros [|y b]; simpl; try done.
  rewrite !orb_false_iff, !andb_false_iff, !N.ltb_ge, !N.eqb_neq.
  intros [H1 H2] [H3 H4]. assert (x = y) as -> by lia. f_equal.
  apply IH; [by destruct H2 | by destruct H4].
Qed.

Lemma parsed_low s f ms :
  parseDateTime s = Some (f, ms) → Forall (λ c, (c < 55296)%N) s.
Proof.
  intros (Hf & _ & rest & -> & Hfrac)%parseDateTime_Some.
  apply fractionOf_Some in Hfrac as (_ & _ & _ & Hlow).
  apply Forall_app. split; [by apply formatDateTime_low | done].
Qed.

(** Date strings in the order of [ORDER BY] are in the order of their
    seconds. *)
Lemma text_le_seconds s1 f1 ms1 s2 f2 ms2 :
  parseDateTime s1 = Some (f1, ms1) → parseDateTime s2 = Some (f2, ms2) →
  sql_le (SqlText s1) (SqlText s2) → secondsOf f1 ≤ secondsOf f2.
Proof.
  intros (Hf1 & _ & r1 & -> & Hr1)%parseDateTime_Some
         (Hf2 & _ & r2 & -> & Hr2)%parseDateTime_Some Hle.
  apply fractionOf_Some in Hr1 as (_ & _ & _ & Hl1).
  apply fractionOf_Some in Hr2 as (_ & _ & _ & Hl2).
  unfold sql_le in Hle. simpl in Hle. apply negb_true_iff in Hle.
  destruct (DateTime_lt_trichotomy f1 f2) as [H|[->|H]]; [|lia|].
  - pose proof (secondsOf_lt _ _ Hf1 Hf2 H). lia.
  - exfalso. apply not_true_iff_false in Hle. apply Hle.
    apply text_ltb_format; [done..|]. by left.
Qed.

(** In UTC the document of a row is stored in the second its date string
    names. *)
Lemma stored_second env row d s f ms :
  (∀ t, LocalTZA env t = 0) →
  datetime row = SqlText s → parseDateTime s = Some (f, ms) →
  formats env row d →
  seconds (submittedTimestamp d) = secondsOf f
  ∧ MIN_SECONDS ≤ secondsOf f < MAX_SECONDS.
Proof.
  intros Hzone Hs Hparse (st & st' & Hfmt).
  apply formatRow_resolved in Hfmt as (point & submitted & _ & Hsub & -> & _).
  cbn [submittedTimestamp].
  rewrite Hs, (Date_new_text env s f ms Hparse) in Hsub
    by (intros t; rewrite Hzone; lia).
  rewrite Hzone, Z.sub_0_r in Hsub.
  apply parseDateTime_Some in Hparse as (_ & _ & rest & _ & Hfrac).
  apply fractionOf_Some in Hfrac as (Hms & _).
  assert ((secondsOf f * 1000 + ms) / 1000 = secondsOf f) as Hdiv
    by (Z.to_euclidean_division_equations; lia).
  apply fromMillis_Some in Hsub as (-> & _ & Hrange). by rewrite Hdiv in *.
Qed.

(** A row selected in a dump of readable dates has a date string above the
    text of the cutoff. *)
Lemma selected_parsed env points (c : Z) r :
  Forall (λ p, readable (p_datetime p)) points →
  DATETIME_MIN ≤ c < DATETIME_MAX →
  r ∈ query env points c →
  ∃ s f ms, datetime r = SqlText s ∧ parseDateTime s = Some (f, ms)
            ∧ text_ltb (formatDateTime (dateTimeOf c)) s = true.
Proof.
  intros Hread Hc (p & Hp & -> & Hing)%elem_of_query.
  apply ingestible_true in Hing as (_ & _ & _ & Hgt).
  rewrite (DATETIME_text env c Hc) in Hgt. apply sql_gt_text in Hgt as (s & Hs & Hgt).
  rewrite Forall_forall in Hread. destruct (Hread p Hp s Hs) as [[f ms] Hparse].
  by exists s, f, ms.
Qed.

(** After documents of Hitchwiki provenance have been written, the cutoff
    is not after the old one, or it is the second of one of them. *)
Lemma cutoff_after_writes (spots : gmap (list N) DstRow) ds :
  Forall (λ d, source_type d = HITCHWIKI) ds →
  Number_le (cutoffOf (lastIngested (written spots ds))) (cutoffOf (lastIngested spots))
  ∨ ∃ d, d ∈ ds ∧ cutoffOf (lastIngested (written spots ds)) = seconds (submittedTimestamp d).
Proof.
  intros Hds. rewrite Forall_forall in Hds.
  destruct (lastIngested (written spots ds)) as [d'|] eqn:Hnow.
  - destruct (lastIngested_Some _ _ Hnow) as (Ht' & [key Hk] & _).
    destruct (written_lookup spots ds key) as [Hsame|(d1 & Hd1 & _ & Hk1)].
    + left. rewrite Hsame in Hk.
      destruct (lastIngested_is_Some _ _ _ Hk Ht') as [d0 Hold]. rewrite Hold.
      destruct (lastIngested_Some _ _ Hold) as (_ & _ & Hmax).
      apply (Timestamp_le_seconds _ _ (Hmax key d' Hk Ht')).
    + right. rewrite Hk in Hk1. injection Hk1 as <-. by exists d'.
  - left. destruct (lastIngested spots) as [d0|] eqn:Hold; [|simpl; lia]. exfalso.
    destruct (lastIngested_Some _ _ Hold) as (Ht0 & [key Hk] & _).
    rewrite lastIngested_None in Hnow.
    destruct (written_lookup spots ds key) as [Hsame|(d1 & Hd1 & _ & Hk1)].
    + rewrite Hk in Hsame. by apply (Hnow key d0).
    + apply (Hnow key d1 Hk1). by apply Hds.
Qed.

Lemma written_last (spots : gmap (list N) DstRow) ds d :
  last ds = Some d → written spots ds !! docId d = Some d.
Proof.
  intros [ds' ->]%last_Some. rewrite written_snoc. apply lookup_insert_eq.
Qed.

(** In UTC, over a dump of readable dates, the cutoff after a pass is the
    cutoff before it or the second of a row the pass has written. *)
Lemma next_cutoff env file spots points (c : Z) :
  (∀ t, LocalTZA env t = 0) →
  served env = Some (Some points) →
  Forall (λ p, readable (p_datetime p)) points →
  MIN_SECONDS ≤ c < MAX_SECONDS →
  cutoffOf (lastIngested spots) = c →
  let r := ingest env (startOf file spots) in
  let rows := query env points c in
  let done := length (acceptedWrites env (console r.2)) in
  ∃ c' : Z,
    cutoffOf (lastIngested (hitchingSpots r.2)) = c'
    ∧ c ≤ c' < MAX_SECONDS
    ∧ (c' = c
       ∨ ∃ j rj s f ms, (j < done)%nat ∧ rows !! j = Some rj ∧ datetime rj = SqlText s
                        ∧ parseDateTime s = Some (f, ms) ∧ c' = secondsOf f)
    ∧ (∀ j rj s f ms, (j < done)%nat → rows !! j = Some rj → datetime rj = SqlText s →
                      parseDateTime s = Some (f, ms) → secondsOf f ≤ c').
Proof.
  intros Hzone Hserved Hread Hc Hcut r rows done.
  assert (DATETIME_MIN ≤ c < DATETIME_MAX) as Hwin
    by (unfold MIN_SECONDS, MAX_SECONDS, DATETIME_MIN, DATETIME_MAX in *; lia).
  destruct (watermark_advances env (startOf file spots) c) as (c' & Hc' & Hle);
    [intros t; rewrite Hzone; lia | by intros ? [= <-]%(eq_trans (eq_sym Hserved))
    | done | done |].
  fold r in Hc'.
  destruct (pass_written env file spots points Hserved) as (ds & Hrows & Hlen & Hacc & Hspots).
  fold r in Hacc, Hspots.
  unfold selectedRows, selection in Hrows, Hlen. rewrite Hcut in Hrows, Hlen.
  cbn [default from_option Datatypes.id] in Hrows, Hlen. fold rows in Hrows, Hlen.
  assert (done = length ds) as Hdone by (subst done; by rewrite Hacc, length_fmap).
  assert (∀ j d, ds !! j = Some d →
            ∃ rj s f ms, rows !! j = Some rj ∧ (j < done)%nat ∧ datetime rj = SqlText s
                         ∧ parseDateTime s = Some (f, ms)
                         ∧ seconds (submittedTimestamp d) = secondsOf f
                         ∧ MIN_SECONDS ≤ secondsOf f < MAX_SECONDS
                         ∧ source_type d = HITCHWIKI ∧ formats env rj d) as Hdoc.
  { intros j d Hj.
    destruct (Forall2_lookup_r _ _ _ _ _ Hrows Hj) as (rj & Hrj & Hfmt).
    apply lookup_take_Some in Hrj as [Hrj Hlt].
    destruct (selected_parsed env points c rj Hread Hwin) as (s & f & ms & Hs & Hparse & _);
      [by eapply list_elem_of_lookup_2|].
    destruct (stored_second env rj d s f ms Hzone Hs Hparse Hfmt) as [Hsec Hrange].
    exists rj, s, f, ms. split_and!; try done; try lia.
    by eapply formats_hitchwiki. }
  exists c'. rewrite Hspots in Hc'.
  assert (c' = c ∨ ∃ j d, ds !! j = Some d ∧ Integer c' = seconds (submittedTimestamp d))
    as Hfrom.
  { destruct (cutoff_after_writes spots ds) as [Hback|(d & Hd & Heq)].
    - apply Forall_forall. intros d [j Hj]%list_elem_of_lookup.
      by destruct (Hdoc j d Hj) as (? & ? & ? & ? & ? & ? & ? & ? & ? & ? & ? & ?).
    - left. rewrite Hc', Hcut in Hback. simpl in Hback. lia.
    - right. apply list_elem_of_lookup in Hd as [j Hj]. exists j, d.
      split; [done|]. by rewrite <- Hc', Heq. }
  split; [by rewrite Hspots|]. split; [|split].
  - split; [done|]. destruct Hfrom as [->|(j & d & Hj & Heq)]; [lia|].
    destruct (Hdoc j d Hj) as (? & ? & ? & ? & _ & _ & _ & _ & Hsec & Hrange & _).
    rewrite Hsec in Heq. injection Heq as ->. lia.
  - destruct Hfrom as [->|(j & d & Hj & Heq)]; [by left|right].
    destruct (Hdoc j d Hj) as (rj & s & f & ms & Hrj & Hlt & Hs & Hparse & Hsec & _).
    exists j, rj, s, f, ms. repeat split; [done..|].
    rewrite Hsec in Heq. by injection Heq.
  - intros j rj s f ms Hj Hrj Hs Hparse.
    destruct (last ds) as [dl|] eqn:Hlast;
      [|apply last_None in Hlast; subst ds; simpl in *; lia].
    assert (ds !! (length ds - 1)%nat = Some dl) as Hdl.
    { apply last_Some in Hlast as [ds' ->].
      rewrite length_app. simpl. rewrite lookup_app_r by lia.
      by replace (length ds' + 1 - 1 - length ds')%nat with 0%nat by lia. }
    destruct (Hdoc _ dl Hdl) as (rl & sl & fl & msl & Hrl & _ & Hsl & Hpl & Hsec & _ & Htl & _).
    assert (sql_le (datetime rj) (datetime rl)) as Hord.
    { destruct (decide (j = (length ds - 1)%nat)) as [->|Hne].
      - rewrite Hrj in Hrl. injection Hrl as <-. apply sql_le_refl.
      - apply (StronglySorted_lookup_lt (λ a b, sql_le (datetime a) (datetime b))
                 rows j (length ds - 1)); [|done..|lia].
        apply Sorted_StronglySorted; [apply _ | apply query_Sorted]. }
    rewrite Hs, Hsl in Hord.
    pose proof (text_le_seconds _ _ _ _ _ _ Hparse Hpl Hord) as Hsecs.
    pose proof (written_last spots ds dl Hlast) as Hk.
    destruct (lastIngested_is_Some _ _ _ Hk Htl) as [d' Hnow].
    rewrite Hnow in Hc'. simpl in Hc'.
    destruct (lastIngested_Some _ _ Hnow) as (_ & _ & Hm).
    pose proof (Timestamp_le_seconds _ _ (Hm _ _ Hk Htl)) as Hmax.
    rewrite Hsec, Hc' in Hmax. simpl in Hmax. lia.
Qed.

(** X8. Resuming, in UTC. Take a pass over a dump whose date strings are
    dates and times [YYYY-MM-DD HH:MM:SS], with or without a fraction, and
    the cutoff read from the collection it leaves.  A selected row the pass
    has not written, because a write before it was rejected, is selected
    again by the next pass over the same dump, unless its date is the very
    text of the new cutoff. *)
Theorem unwritten_rows_selected_again env file spots points (c : Z) i row :
  (∀ t, LocalTZA env t = 0) →
  served env = Some (Some points) →
  Forall (λ p, readable (p_datetime p)) points →
  MIN_SECONDS ≤ c < MAX_SECONDS →
  cutoffOf (lastIngested spots) = c →
  let r := ingest env (startOf file spots) in
  query env points c !! i = Some row →
  (length (acceptedWrites env (console r.2)) ≤ i)%nat →
  ∃ c' : Z,
    cutoffOf (lastIngested (hitchingSpots r.2)) = c' ∧ c ≤ c'
    ∧ (row ∈ query env points c' ∨ datetime row = DATETIME env c').
Proof.
  intros Hzone Hserved Hread Hc Hcut r Hi Hdone.
  destruct (next_cutoff env file spots points c Hzone Hserved Hread Hc Hcut)
    as (c' & Hc' & Hrange & Hfrom & _).
  fold r in Hc', Hfrom. exists c'. split; [done|]. split; [lia|].
  assert (DATETIME_MIN ≤ c < DATETIME_MAX ∧ DATETIME_MIN ≤ c' < DATETIME_MAX) as [Hwin Hwin']
    by (unfold MIN_SECONDS, MAX_SECONDS, DATETIME_MIN, DATETIME_MAX in *; lia).
  destruct Hfrom as [->|(j & rj & sj & fj & msj & Hj & Hrj & Hsj & Hpj & ->)].
  { left. by eapply list_elem_of_lookup_2. }
  pose proof (list_elem_of_lookup_2 _ _ _ Hi) as Hin.
  destruct (selected_parsed env points c row Hread Hwin Hin) as (s & f & ms & Hs & Hparse & _).
  assert (sql_le (datetime rj) (datetime row)) as Hord.
  { apply (StronglySorted_lookup_lt (λ a b, sql_le (datetime a) (datetime b))
             (query env points c) j i); [|done..|lia].
    apply Sorted_StronglySorted; [apply _ | apply query_Sorted]. }
  rewrite Hsj, Hs in Hord.
  pose proof (text_le_seconds _ _ _ _ _ _ Hpj Hparse Hord) as Hsecs.
  rewrite (DATETIME_text env _ Hwin').
  destruct (text_ltb (formatDateTime (dateTimeOf (secondsOf fj))) s) eqn:Hgt.
  - left. apply elem_of_query in Hin as (p & Hp & -> & Hing).
    apply elem_of_query. exists p. repeat split; [done|].
    apply ingestible_true in Hing as (? & ? & ? & _).
    apply ingestible_true. repeat split; [done..|].
    simpl in Hs. rewrite (DATETIME_text env _ Hwin'), Hs. done.
  - right. rewrite Hs. f_equal.
    pose proof (parseDateTime_Some _ _ _ Hparse) as (Hf & _ & rest & Heq & Hfrac).
    pose proof (parseDateTime_Some _ _ _ Hpj) as (Hfj & _).
    rewrite (dateTimeOf_secondsOf fj Hfj) in Hgt |- *.
    destruct (text_after_cutoff s f ms (secondsOf fj) Hwin' Hparse) as (Hms & _ & Hafter).
    rewrite (dateTimeOf_secondsOf fj Hfj) in Hafter.
    assert (secondsOf f = secondsOf fj ∧ ms = 0) as [Hsame ->].
    { destruct (Z_lt_le_dec (secondsOf fj * 1000) (secondsOf f * 1000 + ms)) as [Hlt|Hge];
        [|lia].
      rewrite (Hafter Hlt) in Hgt. discriminate. }
    assert (f = fj) as ->.
    { rewrite <- (dateTimeOf_secondsOf f Hf), Hsame. by apply dateTimeOf_secondsOf. }
    subst s. apply fractionOf_Some in Hfrac as (_ & _ & _ & Hlow).
    rewrite <- (app_nil_r (formatDateTime fj)) in Hgt at 1.
    apply not_true_iff_false in Hgt.
    rewrite text_ltb_format, lex_ltb_nil_l in Hgt by (done || constructor).
    destruct rest; [by rewrite app_nil_r|]. exfalso. apply Hgt. by right.
Qed.

Lemma unwritten_rows_selected_again_witness :
  let r := ingest (rejecting_env sample_points) (startOf None ∅) in
  ∃ c' : Z,
    cutoffOf (lastIngested (hitchingSpots r.2)) = c' ∧ 0 ≤ c'
    ∧ (selected (sample_point "9" 3 (Some " Y "%string) "2022-08-08 23:06:40")
       ∈ query (rejecting_env sample_points) sample_points c'
       ∨ SqlText (js "2022-08-08 23:06:40") = DATETIME (rejecting_env sample_points) c').
Proof.
  refine (unwritten_rows_selected_again (rejecting_env sample_points) None ∅
            sample_points 0 2
            (selected (sample_point "9" 3 (Some " Y "%string) "2022-08-08 23:06:40"))
            _ eq_refl sample_points_readable _ eq_refl _ _).
  - reflexivity.
  - unfold MIN_SECONDS, MAX_SECONDS. lia.
  - vm_compute. reflexivity.
  - vm_compute. lia.
Defined.

(** X9. Steady state, in UTC. When a pass over a dump of such date strings
    has written every row it selected, a next pass over the same dump
    selects only rows dated within the second of the new cutoff and written
    with a fraction: their date is the text of the cutoff followed by more.
    When the dates of the dump are whole seconds, it selects nothing. *)
Theorem next_pass_within_cutoff_second env file spots points (c : Z) :
  (∀ t, LocalTZA env t = 0) →
  served env = Some (Some points) →
  Forall (λ p, readable (p_datetime p)) points →
  MIN_SECONDS ≤ c < MAX_SECONDS →
  cutoffOf (lastIngested spots) = c →
  let r := ingest env (startOf file spots) in
  length (acceptedWrites env (console r.2)) = length (query env points c) →
  ∃ c' : Z,
    cutoffOf (lastIngested (hitchingSpots r.2)) = c' ∧ c ≤ c'
    ∧ (∀ row, row ∈ query env points c' →
              ∃ rest, rest ≠ []
                      ∧ datetime row = SqlText (formatDateTime (dateTimeOf c') ++ rest))
    ∧ ((∀ p s, p ∈ points → p_datetime p = SqlText s → length s = 19%nat) →
       query env points c' = []).
Proof.
  intros Hzone Hserved Hread Hc Hcut r Hall.
  destruct (next_cutoff env file spots points c Hzone Hserved Hread Hc Hcut)
    as (c' & Hc' & Hrange & _ & Hmax).
  fold r in Hc', Hmax. exists c'. split; [done|]. split; [lia|].
  assert (DATETIME_MIN ≤ c < DATETIME_MAX ∧ DATETIME_MIN ≤ c' < DATETIME_MAX) as [Hwin Hwin']
    by (unfold MIN_SECONDS, MAX_SECONDS, DATETIME_MIN, DATETIME_MAX in *; lia).
  assert (∀ row, row ∈ query env points c' →
                 ∃ rest, rest ≠ []
                         ∧ datetime row = SqlText (formatDateTime (dateTimeOf c') ++ rest))
    as Hwithin.
  { intros row Hrow.
    destruct (selected_parsed env points c' row Hread Hwin' Hrow)
      as (s & f & ms & Hs & Hparse & Hgt).
    assert (row ∈ query env points c) as Hold.
    { apply elem_of_query in Hrow as (p & Hp & -> & Hing).
      apply elem_of_query. exists p. repeat split; [done|].
      apply ingestible_true in Hing as (? & ? & ? & Hsql).
      apply ingestible_true. repeat split; [done..|].
      apply (sql_gt_DATETIME_mono env c c'); [lia..|done]. }
    apply list_elem_of_lookup in Hold as [i Hi].
    pose proof (lookup_lt_Some _ _ _ Hi) as Hlt. rewrite <- Hall in Hlt.
    pose proof (Hmax i row s f ms Hlt Hi Hs Hparse) as Hle.
    destruct (text_after_cutoff s f ms c' Hwin' Hparse) as (Hms & Hafter & _).
    specialize (Hafter Hgt).
    assert (secondsOf f = c') as Hsame by lia.
    pose proof (parseDateTime_Some _ _ _ Hparse) as (Hf & _ & rest & Heq & Hfrac).
    assert (dateTimeOf c' = f) as Hdt by (rewrite <- Hsame; by apply dateTimeOf_secondsOf).
    exists rest. rewrite Hs, Hdt, <- Heq. split; [|done].
    intros ->. rewrite app_nil_r in Heq. subst s. rewrite Hdt in Hgt.
    unfold text_ltb in Hgt. by rewrite (lex_ltb_asym _ _ Hgt) in Hgt. }
  split; [done|]. intros Hwhole.
  destruct (query env points c') as [|row rows] eqn:Hq; [done|]. exfalso.
  destruct (Hwithin row) as (rest & Hrest & Hdate); [by left|].
  assert (row ∈ query env points c') as Hrow by (rewrite Hq; by left).
  apply elem_of_query in Hrow as (p & Hp & -> & _). cbn [selected datetime] in Hdate.
  pose proof (Hwhole p _ Hp Hdate) as Hlen.
  rewrite length_app in Hlen.
  assert (∀ g, length (formatDateTime g) = 19%nat) as Hl by done.
  rewrite Hl in Hlen. destruct rest; [done|]. simpl in Hlen. lia.
Qed.

Lemma next_pass_within_cutoff_second_witness :
  let points := [sample_point "7" 5 None "2017-07-14 02:40:00";
                 sample_point "42" 4 (Some "X (Hitchwiki)"%string) "2020-09-13 12:26:40.500"] in
  let r := ingest (sample_env points) (startOf None ∅) in
  ∃ c' : Z,
    cutoffOf (lastIngested (hitchingSpots r.2)) = c' ∧ 0 ≤ c'
    ∧ ∃ rest, rest ≠ []
        ∧ SqlText (js "2020-09-13 12:26:40.500")
          = SqlText (formatDateTime (dateTimeOf c') ++ rest).
Proof.
  intros points r.
  destruct (next_pass_within_cutoff_second (sample_env points) None ∅ points 0)
    as (c' & Hc' & Hle & Hwithin & _).
  - reflexivity.
  - reflexivity.
  - repeat constructor; intros s [= <-]; vm_compute; eauto.
  - unfold MIN_SECONDS, MAX_SECONDS. lia.
  - reflexivity.
  - vm_compute. reflexivity.
  - exists c'. split; [exact Hc'|]. split; [exact Hle|].
    apply (Hwithin (selected (sample_point "42" 4 (Some "X (Hitchwiki)"%string)
                                "2020-09-13 12:26:40.500"))).
    fold r in Hc'. assert (c' = 1600000000) as ->.
    { assert (cutoffOf (lastIngested (hitchingSpots r.2)) = 1600000000) as H
        by (vm_compute; reflexivity).
      rewrite H in Hc'. by injection Hc'. }
    apply (list_elem_of_lookup_2 _ 0). vm_compute. reflexivity.
Defined.

(** ** A pass on which nothing fails *)

Lemma written_lookup_NoDup (spots : gmap (list N) DstRow) ds d :
  NoDup (docId <$> ds) → d ∈ ds → written spots ds !! docId d = Some d.
Proof.
  induction ds as [|x ds IH] using rev_ind; [by intros _ ?%elem_of_nil|].
  rewrite fmap_app, written_snoc. simpl.
  intros [Hds [Hx _]]%NoDup_app [Hd|Hd]%elem_of_app.
  - rewrite lookup_insert_ne; [by apply IH|].
    intros Heq. apply (Hx (docId x)); [|by left].
    rewrite Heq. by apply list_elem_of_fmap_2.
  - apply list_elem_of_singleton in Hd as ->. apply lookup_insert_eq.
Qed.

Lemma formats_docIds env rows ds :
  Forall2 (formats env) rows ds →
  docId <$> ds = (λ i, js "hitchwiki-" ++ i) <$> (id <$> rows).
Proof.
  induction 1 as [|row d rows ds Hfmt _ IH]; [done|].
  rewrite !fmap_cons, IH. f_equal. by eapply formats_docId.
Qed.

Lemma selection_points env points spots :
  cutoffOf (lastIngested spots) ≠ NaN →
  selection env (Some points) (cutoffOf (lastIngested spots))
  = Some (selectedRows env points spots).
Proof. unfold selectedRows, selection. by destruct (cutoffOf _). Qed.

(** X10. When no stage fails and the selected rows have ids of their own, the
    pass ends with the completion line and the collection holds, for every
    selected row, under the key "hitchwiki-" followed by its id, the
    document made of that row. *)
Theorem complete_pass_stores_every_row env file spots points :
  served env = Some (Some points) →
  getDocsRejects env = false →
  cutoffOf (lastIngested spots) ≠ NaN →
  let r := ingest env (startOf file spots) in
  let rows := selectedRows env points spots in
  forallb (formattable env) rows = true →
  (∀ key d, setDocRejects env key d = false) →
  NoDup (id <$> rows) →
  r.1 = Resolved tt
  ∧ last (console r.2) = Some (Log CompletedWithoutError)
  ∧ ∀ row, row ∈ rows →
      ∃ d, hitchingSpots r.2 !! (js "hitchwiki-" ++ id row) = Some d
           ∧ source_id d = id row
           ∧ dst_rating d = rating row - 2
           ∧ Timestamp_fromMillis (Date_new env (datetime row)) = Some (submittedTimestamp d)
           ∧ user_name d = Js.trim (Js.replace (js "(Hitchwiki)") [] (default [] (name row))).
Proof.
  intros Hserved Hdocs Hnum r rows Hfmt Hacc Hids.
  pose proof (selection_points env points spots Hnum) as Hselect. fold rows in Hselect.
  destruct (ingest_outcome env (startOf file spots)) as
    [(e & evs & _ & _ & _ & _ & Hstage)
    |(file' & rows' & dstRows & n & evs & l & Hserved' & _ & Hsel & _ & Hrows & Hout & Hcon
      & Hspots & _ & Hend)];
    change (hitchingSpots (startOf file spots)) with spots in *.
  { exfalso.
    destruct Hstage as [[Hs _]|[(_ & Hd & _)|[(f & Hs & _ & Hsel & _)
                                             |(f & rows' & Hs & _ & Hsel & Hbad)]]];
      [congruence..| |];
      rewrite Hserved in Hs; injection Hs as <-; rewrite Hselect in Hsel; [done|].
    injection Hsel as <-. congruence. }
  fold r in Hout, Hcon, Hspots. rewrite Hserved in Hserved'. injection Hserved' as <-.
  rewrite Hselect in Hsel. injection Hsel as <-.
  destruct Hend as [(-> & _ & ->)|(d0 & _ & Hr0 & _)]; [|by rewrite Hacc in Hr0].
  rewrite firstn_all in Hspots. split; [done|]. split.
  { rewrite Hcon, app_assoc, app_assoc. apply last_snoc. }
  intros row [i Hi]%list_elem_of_lookup.
  destruct (Forall2_lookup_l _ _ _ _ _ Hrows Hi) as (d & Hd & Hfd).
  exists d. rewrite <- (formats_docId _ _ _ Hfd), Hspots. split.
  - apply written_lookup_NoDup; [|by eapply list_elem_of_lookup_2].
    rewrite (formats_docIds _ _ _ Hrows).
    apply (NoDup_fmap_2_strong _); [|done]. intros ? ? _ _. apply app_inv_head.
  - destruct Hfd as (s & s' & (? & ? & _ & Hsub & -> & _)%formatRow_resolved). done.
Qed.

Lemma complete_pass_stores_every_row_witness :
  let r := ingest (sample_env sample_points) (startOf None ∅) in
  r.1 = Resolved tt
  ∧ ∃ d, hitchingSpots r.2 !! (js "hitchwiki-9") = Some d
         ∧ dst_rating d = 1 ∧ user_name d = js "Y".
Proof.
  destruct (complete_pass_stores_every_row (sample_env sample_points) None ∅ sample_points
              eq_refl eq_refl) as (Hout & _ & Hrows).
  - discriminate.
  - reflexivity.
  - reflexivity.
  - vm_compute. repeat constructor; intros H;
      repeat (apply elem_of_cons in H as [H|H]; [discriminate H|]);
      by apply elem_of_nil in H.
  - split; [exact Hout|].
    destruct (Hrows (selected (sample_point "9" 3 (Some " Y "%string) "2022-08-08 23:06:40")))
      as (d & Hk & _ & Hr & _ & Hn).
    + apply (list_elem_of_lookup_2 _ 2). reflexivity.
    + exists d. split; [exact Hk|]. split; [exact Hr | exact Hn].
Defined.

(** ** What a pass leaves alone *)

(** X11. A pass writes under keys that start with "hitchwiki-" and nowhere else:
    every other slot of the collection holds after the pass what it held
    before, however the pass ends; and the pass removes no document. *)
Theorem pass_keeps_other_documents env st key :
  (¬ js "hitchwiki-" `prefix_of` key →
   hitchingSpots (ingest env st).2 !! key = hitchingSpots st !! key)
  ∧ (is_Some (hitchingSpots st !! key) → is_Some (hitchingSpots (ingest env st).2 !! key)).
Proof.
  destruct (ingest_pass env st) as (evs & ds & _ & -> & _ & Hds & _).
  destruct (written_lookup (hitchingSpots st) ds key) as [->|(d & Hd & Hkey & ->)];
    [done|].
  split; [|by eauto]. intros Hforeign. exfalso. apply Hforeign.
  rewrite Forall_forall in Hds.
  destruct (Hds d Hd) as (points & c & row & _ & _ & _ & Hfmt).
  rewrite <- Hkey, (formats_docId _ _ _ Hfmt). by eexists.
Qed.

(** The cutoff depends on the documents of Hitchwiki provenance only. *)
Lemma cutoff_same_hitchwiki (m1 m2 : gmap (list N) DstRow) :
  (∀ d, source_type d = HITCHWIKI →
        (∃ key, m1 !! key = Some d) ↔ (∃ key, m2 !! key = Some d)) →
  cutoffOf (lastIngested m1) = cutoffOf (lastIngested m2).
Proof.
  intros Hsame.
  destruct (lastIngested m1) as [d1|] eqn:H1, (lastIngested m2) as [d2|] eqn:H2; simpl.
  - destruct (lastIngested_Some _ _ H1) as (Ht1 & Hk1 & Hmax1).
    destruct (lastIngested_Some _ _ H2) as (Ht2 & Hk2 & Hmax2).
    apply (Hsame d1 Ht1) in Hk1 as [k1 Hk1]. apply (Hsame d2 Ht2) in Hk2 as [k2 Hk2].
    pose proof (Timestamp_le_seconds _ _ (Hmax2 _ _ Hk1 Ht1)) as H12.
    pose proof (Timestamp_le_seconds _ _ (Hmax1 _ _ Hk2 Ht2)) as H21.
    destruct (seconds (submittedTimestamp d1)), (seconds (submittedTimestamp d2));
      simpl in *; try done. f_equal. lia.
  - exfalso. destruct (lastIngested_Some _ _ H1) as (Ht1 & Hk1 & _).
    apply (Hsame d1 Ht1) in Hk1 as [k Hk]. rewrite lastIngested_None in H2.
    by apply (H2 k d1).
  - exfalso. destruct (lastIngested_Some _ _ H2) as (Ht2 & Hk2 & _).
    apply (Hsame d2 Ht2) in Hk2 as [k Hk]. rewrite lastIngested_None in H1.
    by apply (H1 k d2).
  - done.
Qed.

(** X12. Documents of another provenance never move the watermark: putting one
    in a slot that holds no Hitchwiki document, or deleting one, leaves the
    cutoff of the next pass as it was. *)
Theorem other_provenance_keeps_cutoff (spots : gmap (list N) DstRow) key :
  (∀ old, spots !! key = Some old → source_type old ≠ HITCHWIKI) →
  (∀ d, source_type d ≠ HITCHWIKI →
        cutoffOf (lastIngested (<[key := d]> spots)) = cutoffOf (lastIngested spots))
  ∧ cutoffOf (lastIngested (delete key spots)) = cutoffOf (lastIngested spots).
Proof.
  intros Hold. split.
  - intros d Hd. apply cutoff_same_hitchwiki. intros d' Hd'. split.
    + intros [k Hk]. destruct (decide (key = k)) as [->|Hne].
      * rewrite lookup_insert_eq in Hk. congruence.
      * rewrite lookup_insert_ne in Hk by done. eauto.
    + intros [k Hk]. exists k. rewrite lookup_insert_ne; [done|].
      intros ->. by apply (Hold d').
  - apply cutoff_same_hitchwiki. intros d' Hd'. split.
    + intros [k Hk]. apply lookup_delete_Some in Hk as [_ Hk]. eauto.
    + intros [k Hk]. exists k. rewrite lookup_delete_ne; [done|].
      intros ->. by apply (Hold d').
Qed.

Lemma other_provenance_keeps_cutoff_witness :
  let spots : gmap (list N) DstRow :=
    {[ js "hitchwiki-42" := sample_doc "42" 2 "X" 1600000000 500000000 ]} in
  cutoffOf (lastIngested (<[js "app-1" := other_doc 1700000000]> spots)) = 1600000000
  ∧ cutoffOf (lastIngested spots) = 1600000000.
Proof.
  intros spots.
  assert (cutoffOf (lastIngested spots) = 1600000000) as Hcut by (vm_compute; reflexivity).
  split; [|exact Hcut]. rewrite <- Hcut.
  refine (proj1 (other_provenance_keeps_cutoff spots (js "app-1") _)
            (other_doc 1700000000) _).
  - intros old Hk. subst spots. rewrite lookup_singleton_ne in Hk; [discriminate Hk|].
    intros H. discriminate H.
  - intros H. discriminate H.
Defined.

(** X13. A pass never reads the file an earlier run left: what it returns, what
    it prints and writes, and the collection it leaves are the same
    whatever the local file was when it started. *)
Theorem pass_ignores_old_file env file1 file2 spots :
  let r1 := ingest env (startOf file1 spots) in
  let r2 := ingest env (startOf file2 spots) in
  r1.1 = r2.1 ∧ console r1.2 = console r2.2 ∧ hitchingSpots r1.2 = hitchingSpots r2.2
  ∧ (is_Some (served env) → r1 = r2).
Proof.
  cbv zeta. rewrite !ingest_run.
  change (hitchingSpots (startOf file1 spots)) with spots.
  change (hitchingSpots (startOf file2 spots)) with spots.
  destruct (served env) as [file|].
  - change (saved file (startOf file1 spots)) with (saved file (startOf file2 spots)).
    done.
  - repeat split; by intros [? ?].
Qed.

(** ** An empty pass *)

(** X14. When no row of the dump is eligible, the pass is a successful no-op:
    [ingest] resolves, issues no write, leaves the collection as it was, and
    prints that it inserts 0 rows and that it completed. *)
Theorem empty_pass env file spots points :
  served env = Some (Some points) →
  getDocsRejects env = false →
  let cutoff := cutoffOf (lastIngested spots) in
  cutoff ≠ NaN →
  selectedRows env points spots = [] →
  ingest env (startOf file spots)
  = (Resolved tt,
     {| sqliteFile := Some points;
        hitchingSpots := spots;
        console := stage_lines
                   ++ [Log (GettingRowsAfter cutoff); Log (InsertingRows 0);
                       Log CompletedWithoutError];
        clockReads := 0 |}).
Proof.
  intros Hserved Hdocs cutoff Hnum Hempty. rewrite ingest_run, Hserved, Hdocs.
  change (hitchingSpots (startOf file spots)) with spots. fold cutoff.
  cbv zeta. unfold cutoff. rewrite (selection_points env points spots Hnum), Hempty.
  reflexivity.
Qed.

Lemma empty_pass_witness :
  ingest (sample_env [sample_point "8" 2 (Some "low"%string) "2022-04-15 05:20:00"])
    (startOf None ∅)
  = (Resolved tt,
     {| sqliteFile := Some [sample_point "8" 2 (Some "low"%string) "2022-04-15 05:20:00"];
        hitchingSpots := ∅;
        console := stage_lines
                   ++ [Log (GettingRowsAfter 0); Log (InsertingRows 0);
                       Log CompletedWithoutError];
        clockReads := 0 |}).
Proof.
  refine (empty_pass (sample_env [sample_point "8" 2 (Some "low"%string) "2022-04-15 05:20:00"])
            None ∅ [sample_point "8" 2 (Some "low"%string) "2022-04-15 05:20:00"]
            eq_refl eq_refl _ eq_refl).
  discriminate.
Defined.

(** ** Selection under a moving cutoff *)

Lemma filter_fmap {A B} (f : A → B) (P : B → Prop) `{!∀ x, Decision (P x)} (l : list A) :
  filter P (f <$> l) = f <$> filter (λ a, P (f a)) l.
Proof.
  induction l as [|a l IH]; [done|].
  rewrite fmap_cons, !filter_cons, IH. by destruct (decide (P (f a))).
Qed.

(** X15. Raising the cutoff only drops rows: the rows selected with a later
    cutoff are the rows selected with the earlier one whose [datetime] is
    above the text of the later cutoff, with their multiplicity, and no row
    comes back. *)
Theorem raising_cutoff_drops_rows env points c1 c2 :
  DATETIME_MIN ≤ c1 → c1 ≤ c2 → c2 < DATETIME_MAX →
  query env points c2
  ≡ₚ filter (λ r, sql_gt (datetime r) (DATETIME env c2) = true) (query env points c1).
Proof.
  intros H1 H12 H2. rewrite !query_Permutation, filter_fmap, list_filter_filter.
  match goal with |- _ <$> filter ?P _ ≡ₚ _ <$> filter ?Q _ =>
    rewrite (list_filter_iff P Q points); [done|] end.
  intros p. rewrite !ingestible_true. simpl. split.
  - intros (? & ? & ? & Hgt). repeat split; [done..|].
    by apply (sql_gt_DATETIME_mono env c1 c2).
  - by intros (? & ? & ? & ? & ?).
Qed.

Lemma raising_cutoff_drops_rows_witness :
  query (sample_env sample_points) sample_points 1600000000
  ≡ₚ filter (λ r, sql_gt (datetime r) (DATETIME (sample_env sample_points) 1600000000) = true)
       (query (sample_env sample_points) sample_points 0).
Proof.
  apply (raising_cutoff_drops_rows (sample_env sample_points) sample_points 0 1600000000);
    unfold DATETIME_MIN, DATETIME_MAX; lia.
Defined.

(** ** Failures before the write stage *)

Lemma mapM_formatRow_stops env before bad after st e :
  forallb (formattable env) before = true →
  formatRow env bad (Nat.iter (length before) tick st)
  = (Rejected e, Nat.iter (length before) tick st) →
  mapM (formatRow env) (before ++ bad :: after) st
  = (Rejected e, Nat.iter (length before) tick st).
Proof.
  revert st. induction before as [|row before IH]; intros st Hok Hbad.
  - simpl in *. unfold bind. by rewrite Hbad.
  - cbn [length] in Hbad |- *. rewrite Nat.iter_succ_r in Hbad |- *.
    cbn [forallb] in Hok. apply andb_true_iff in Hok as [Hrow Hok].
    destruct (formatRow_returns env row st Hrow) as [d Hd].
    change ((row :: before) ++ bad :: after) with (row :: (before ++ bad :: after)).
    cbn [mapM]. unfold bind at 1. rewrite Hd. unfold bind at 1.
    by rewrite (IH (tick st) Hok Hbad).
Qed.

Lemma clockReads_iter_tick n st :
  clockReads (Nat.iter n tick st) = (clockReads st + n)%nat
  ∧ console (Nat.iter n tick st) = console st
  ∧ hitchingSpots (Nat.iter n tick st) = hitchingSpots st
  ∧ sqliteFile (Nat.iter n tick st) = sqliteFile st.
Proof.
  induction n as [|n (Hc & Ho & Hs & Hf)]; simpl; [by rewrite Nat.add_0_r|].
  repeat split; [lia | done..].
Qed.

(** X16. A pass that fails before the write stage stops at the failing stage.
    A failed download leaves Firestore untouched and unread, and of the
    local file what the write stream made of it, no readable dump; a
    rejected watermark query ends the pass before any selection; an
    unreadable dump ends it after the cutoff is printed, and so does a cutoff
    that is [NaN].  In all four cases nothing is written and the clock is
    not read. *)
Theorem early_failure_stops_pass env file spots :
  let r := ingest env (startOf file spots) in
  (served env = None →
   r = (Rejected DownloadFailed,
        {| sqliteFile := None; hitchingSpots := spots;
           console := [Log Running; Log DownloadingFile]; clockReads := 0 |}))
  ∧ (∀ dump, served env = Some dump → getDocsRejects env = true →
     r = (Rejected GetDocsRejected,
          {| sqliteFile := dump; hitchingSpots := spots;
             console := stage_lines; clockReads := 0 |}))
  ∧ (served env = Some None → getDocsRejects env = false →
     r = (Rejected SqliteError,
          {| sqliteFile := None; hitchingSpots := spots;
             console := stage_lines ++ [Log (GettingRowsAfter (cutoffOf (lastIngested spots)))];
             clockReads := 0 |}))
  ∧ (∀ dump, served env = Some dump → getDocsRejects env = false →
     cutoffOf (lastIngested spots) = NaN →
     r = (Rejected SqliteError,
          {| sqliteFile := dump; hitchingSpots := spots;
             console := stage_lines ++ [Log (GettingRowsAfter NaN)];
             clockReads := 0 |})).
Proof.
  intros r. subst r. rewrite ingest_run.
  change (hitchingSpots (startOf file spots)) with spots.
  split; [|split; [|split]].
  - by intros ->.
  - by intros dump -> ->.
  - by intros -> ->.
  - intros dump -> -> ->. by destruct dump.
Qed.

(** X17. A selected row that [formatRow] throws on blocks the whole batch:
    [ingest] rejects with the error of the first such row in creation
    order, and although the rows before it were transformed (one clock read
    each), none of them is written and the collection is as it was. *)
Theorem transform_failure_blocks_batch env file spots points before bad after :
  served env = Some (Some points) →
  getDocsRejects env = false →
  selectedRows env points spots = before ++ bad :: after →
  forallb (formattable env) before = true →
  formattable env bad = false →
  let r := ingest env (startOf file spots) in
  (∃ e, r.1 = Rejected e ∧ ∀ st, formatRow env bad st = (Rejected e, st))
  ∧ writesOf (console r.2) = []
  ∧ hitchingSpots r.2 = spots
  ∧ clockReads r.2 = length before.
Proof.
  intros Hserved Hdocs Hrows Hok Hbad r. subst r.
  rewrite ingest_run, Hserved, Hdocs.
  change (hitchingSpots (startOf file spots)) with spots. cbv zeta.
  rewrite (selection_points env points spots), Hrows.
  2:{ intros Hnan. unfold selectedRows in Hrows. rewrite Hnan in Hrows.
      by destruct before. }
  match goal with |- context [mapM _ _ ?st] => set (st3 := st) end.
  destruct (formatRow_throws env bad (Nat.iter (length before) tick st3) Hbad) as [e He].
  rewrite (mapM_formatRow_stops env before bad after st3 e Hok He).
  destruct (clockReads_iter_tick (length before) st3) as (Hc & Ho & Hs & _).
  cbn [fst snd]. rewrite Hc, Ho, Hs. repeat split.
  exists e. split; [done|]. intros st.
  destruct (formatRow_throws env bad st Hbad) as [e' He'].
  revert He He'. unfold formatRow, bind, orThrow, Timestamp_now, ret, throw.
  destruct (GeoPoint_new _ _); [|congruence].
  destruct (Timestamp_fromMillis _); congruence.
Qed.

Lemma transform_failure_blocks_batch_witness :
  let points := [sample_point "7" 5 None "2017-07-14 02:40:00";
                 {| p_id := js "13"; p_lat := 91; p_lon := 20; p_rating := 4;
                    p_name := None; p_datetime := SqlText (js "2019-02-12 19:33:20");
                    p_banned := 0; p_reviewed := 1 |}] in
  let r := ingest (sample_env points) (startOf None ∅) in
  (∃ e, r.1 = Rejected e)
  ∧ writesOf (console r.2) = [] ∧ hitchingSpots r.2 = ∅ ∧ clockReads r.2 = 1%nat.
Proof.
  intros points r.
  destruct (transform_failure_blocks_batch (sample_env points) None ∅ points
              [selected (sample_point "7" 5 None "2017-07-14 02:40:00")]
              (selected {| p_id := js "13"; p_lat := 91; p_lon := 20; p_rating := 4;
                           p_name := None; p_datetime := SqlText (js "2019-02-12 19:33:20");
                           p_banned := 0; p_reviewed := 1 |})
              [] eq_refl eq_refl)
    as ((e & He & _) & Hw & Hs & Hc).
  - vm_compute. reflexivity.
  - reflexivity.
  - vm_compute. reflexivity.
  - split; [by exists e|]. split; [exact Hw|]. split; [exact Hs | exact Hc].
Defined.

(** ** No retry *)

(** X18. A pass issues at most one write per selected row, in the order of the
    selection and without going back: the writes issued are those of the
    first selected rows, and at most one of them, the last, is a write that
    Firestore rejected. *)
Theorem pass_issues_no_retry env file spots points :
  served env = Some (Some points) →
  let r := ingest env (startOf file spots) in
  let rows := selectedRows env points spots in
  ∃ ds, Forall2 (formats env) (take (length ds) rows) ds
        ∧ writesOf (console r.2) = (λ d, (docId d, d)) <$> ds
        ∧ (length ds ≤ length rows)%nat
        ∧ (length ds ≤ length (acceptedWrites env (console r.2)) + 1)%nat.
Proof.
  intros Hserved r rows.
  destruct (ingest_outcome env (startOf file spots)) as
    [(e & evs & _ & Hcon & Hw & _)
    |(file' & rows' & dstRows & n & evs & l & Hserved' & _ & Hsel & _ & Hrows & _ & Hcon & _
      & Hacc & Hend)];
    fold r in Hcon;
    change (hitchingSpots (startOf file spots)) with spots in *;
    change (console (startOf file spots)) with (@nil Event) in *;
    rewrite app_nil_l in Hcon.
  - exists []. rewrite Hcon, Hw. repeat split; [constructor | simpl; lia..].
  - rewrite Hserved in Hserved'. injection Hserved' as <-.
    apply selection_selectedRows in Hsel. fold rows in Hsel. subst rows'.
    pose proof (Forall2_length _ _ _ Hrows) as Hlen.
    unfold acceptedWrites. rewrite Hcon, writesOf_pass.
    destruct Hend as [(-> & -> & _)|(d0 & Hd0 & Hr0 & -> & _)].
    + exists dstRows. rewrite <- Hlen, firstn_all. rewrite firstn_all in Hacc.
      rewrite (filter_accepted _ _ Hacc), length_fmap. repeat split; [done | lia..].
    + pose proof (lookup_lt_Some _ _ _ Hd0) as Hn.
      exists (take (S n) dstRows). rewrite length_take_le by lia.
      repeat split; [by apply Forall2_take | lia |].
      rewrite (take_S_r _ _ _ Hd0), fmap_app, filter_app, (filter_accepted _ _ Hacc).
      rewrite length_app, length_fmap, length_take_le by lia. lia.
Qed.

Lemma pass_issues_no_retry_witness :
  let r := ingest (rejecting_env sample_points) (startOf None ∅) in
  ∃ ds, writesOf (console r.2) = (λ d, (docId d, d)) <$> ds
        ∧ (length ds ≤ 3)%nat
        ∧ (length ds ≤ 1 + 1)%nat.
Proof.
  destruct (pass_issues_no_retry (rejecting_env sample_points) None ∅ sample_points eq_refl)
    as (ds & _ & Hw & Hlen & Hone).
  exists ds. split; [exact Hw|]. split; [exact Hlen | exact Hone].
Defined.

